(** * Order book and matching engine of [order_execution.py]

    A shallow embedding of the [OrderBook] class: its constructor, the
    resting-order collections, the price oracle and the best bid and ask,
    order admission, the matching loop with its settlement against the
    account collaborator, and the persistence of the unmatched-order
    snapshot.  The functions that only print or export the book and the
    trade log are not modelled.

    Conventions of the model.
    - Python numbers (quantities, prices, balances) are integers of [Z]:
      Python's integer arithmetic is exact and unbounded, and prices are
      taken in the currency's smallest unit.  [float('inf')], which the
      buy-side sort key uses, is the extra point [PosInf].
    - A Python [dict] is a [gmap]; a [deque] of orders is a [list].
    - An order is the Python dict with the keys [account_id], [ticker],
      [action], [order_type], [quantity], [price], [timestamp]; the key
      [price] is always present and [None] is Python's [None].  The dicts of
      the book are distinct objects (as [load_unmatched_orders] builds
      them), so an in-place update of one order is an update at its index.
    - A timestamp is a naive [datetime] (one without [tzinfo]).  Of
      [datetime.fromisoformat] the model fixes the answer on the format
      that [isoformat] writes; its answer on any other string is a
      parameter of the model, [DatetimeLibrary].
    - A Python exception is an explicit [Raise] outcome.
    - [print] output of [match_orders] and the wall-clock timestamp of a
      trade record are not part of the model. *)

From Stdlib Require Import ZArith NArith Ascii String List Lia Bool.
From stdpp Require Import base decidable option list gmap strings numbers
  sorting.

(** ** Timestamps: naive [datetime] values *)

Record datetime := {
  year : N; month : N; day : N;
  hour : N; minute : N; second : N; microsecond : N }.

#[global] Instance datetime_eq_dec : EqDecision datetime.
Proof. solve_decision. Defined.

Definition lex (c1 c2 : comparison) : comparison :=
  match c1 with Eq => c2 | _ => c1 end.

(** [datetime.__lt__] and friends compare the fields in this order. *)
Definition datetime_compare (a b : datetime) : comparison :=
  lex (N.compare (year a) (year b))
 (lex (N.compare (month a) (month b))
 (lex (N.compare (day a) (day b))
 (lex (N.compare (hour a) (hour b))
 (lex (N.compare (minute a) (minute b))
 (lex (N.compare (second a) (second b))
      (N.compare (microsecond a) (microsecond b))))))).

Definition datetime_lt (a b : datetime) : bool :=
  match datetime_compare a b with Lt => true | _ => false end.

(** ** Data model *)

Record order := {
  account_id : Z;
  ticker : string;
  action : string;
  order_type : string;
  quantity : Z;
  price : option Z;
  timestamp : datetime }.

#[global] Instance order_eq_dec : EqDecision order.
Proof. solve_decision. Defined.

Definition set_quantity (o : order) (q : Z) : order :=
  {| account_id := account_id o; ticker := ticker o; action := action o;
     order_type := order_type o; quantity := q; price := price o;
     timestamp := timestamp o |}.

Record account := {
  balance : Z;
  positions : gmap string Z }.

(** [trade_info] of [match_orders], without its wall-clock timestamp. *)
Record trade := {
  tr_ticker : string;
  tr_price : Z;
  tr_quantity : Z;
  buy_account_id : Z;
  sell_account_id : Z }.

Inductive exn := TypeError | ValueError.

Inductive result (A : Type) :=
  | Ok (a : A)
  | Raise (e : exn).
Arguments Ok {A} a.
Arguments Raise {A} e.

(** Modelled from the spec: the Account collaborator ([AccountManager] is
    not in the source file).  [get_account(id)] yields the account with its
    balance and its positions, [update_account(id, account)] stores the
    full account state. *)
Class AccountManager (AM : Type) := {
  get_account : AM → Z → account;
  update_account : AM → Z → account → AM }.

(** A plain store of accounts, used for the concrete examples. *)
#[global] Instance fn_accounts : AccountManager (Z → account) := {
  get_account am id := am id;
  update_account am id a := fun k => if (k =? id)%Z then a else am k }.

(** ** Sort keys of [match_orders] *)

Inductive num := Fin (z : Z) | PosInf.

Definition num_eqb (a b : num) : bool :=
  match a, b with
  | Fin x, Fin y => (x =? y)%Z
  | PosInf, PosInf => true
  | _, _ => false
  end.

Definition num_lt (a b : num) : bool :=
  match a, b with
  | Fin x, Fin y => (x <? y)%Z
  | Fin _, PosInf => true
  | PosInf, _ => false
  end.

(** Truth value of [o.get('price')]: [None] and [0] are false. *)
Definition truthy (p : option Z) : bool :=
  match p with
  | Some z => negb (z =? 0)%Z
  | None => false
  end.

Definition is_market (o : order) : bool := String.eqb (order_type o) "market".
Definition is_limit (o : order) : bool := String.eqb (order_type o) "limit".

Definition sort_key : Type := bool * num * datetime.

(** [(o['order_type'] != 'market',
      -o.get('price', float('inf')) if o.get('price') else float('inf'),
      o['timestamp'])] *)
Definition buy_key (o : order) : sort_key :=
  (negb (is_market o),
   match price o with
   | Some p => if truthy (price o) then Fin (- p) else PosInf
   | None => PosInf
   end,
   timestamp o).

(** [(o['order_type'] != 'market',
      o.get('price', 0) if o.get('price') else 0,
      o['timestamp'])] *)
Definition sell_key (o : order) : sort_key :=
  (negb (is_market o),
   match price o with
   | Some p => if truthy (price o) then Fin p else Fin 0
   | None => Fin 0
   end,
   timestamp o).

Definition bool_lt (a b : bool) : bool := negb a && b.

(** Python compares tuples at the first position where they differ. *)
Definition key_lt (a b : sort_key) : bool :=
  let '(a1, a2, a3) := a in
  let '(b1, b2, b3) := b in
  if negb (Bool.eqb a1 b1) then bool_lt a1 b1
  else if negb (num_eqb a2 b2) then num_lt a2 b2
  else datetime_lt a3 b3.

(** [sorted(xs, key=...)] is a stable sort; its result is the stable
    insertion sort's. *)
Fixpoint insert_by (key : order → sort_key) (x : order) (l : list order)
  : list order :=
  match l with
  | [] => [x]
  | y :: l' =>
      if key_lt (key y) (key x) then y :: insert_by key x l'
      else x :: y :: l'
  end.

Definition sorted (key : order → sort_key) (l : list order) : list order :=
  foldr (insert_by key) [] l.

(** ** Timestamp codec: [datetime.isoformat] and [datetime.fromisoformat]

    Library functions of Python.  [isoformat] writes a naive datetime as
    [YYYY-MM-DDTHH:MM:SS], followed by [.ffffff] when the microsecond is
    not zero.  [fromisoformat] reads the format
    [YYYY-MM-DD[*HH[:MM[:SS[.fff[fff]]]]]] in every version of Python that
    has it; which other strings it reads depends on the version (a UTC
    offset, giving an aware datetime; from Python 3.11 most of ISO 8601,
    such as a fraction of any length), and is left open below. *)

Definition digit (n : N) : ascii := ascii_of_N (48 + n mod 10).

(** [n] on [w] decimal digits, zero padded (as in [%04d], [%02d], [%06d]). *)
Fixpoint pad (w : nat) (n : N) : list ascii :=
  match w with
  | O => []
  | S w' => pad w' (n / 10) ++ [digit n]
  end.

Definition isoformat_chars (d : datetime) : list ascii :=
  pad 4 (year d) ++ ["-"%char] ++ pad 2 (month d) ++ ["-"%char] ++
  pad 2 (day d) ++ ["T"%char] ++
  pad 2 (hour d) ++ [":"%char] ++ pad 2 (minute d) ++ [":"%char] ++
  pad 2 (second d) ++
  (if (microsecond d =? 0)%N then [] else ["."%char] ++ pad 6 (microsecond d)).

Definition isoformat (d : datetime) : string :=
  string_of_list_ascii (isoformat_chars d).

Definition digit_val (c : ascii) : option N :=
  let n := N_of_ascii c in
  if (48 <=? n)%N && (n <=? 57)%N then Some (n - 48)%N else None.

(** Value of a run of decimal digits; [None] when a character is not one. *)
Definition number (l : list ascii) : option N :=
  fold_left (λ acc c, a ← acc; d ← digit_val c; Some (10 * a + d)%N)
            l (Some 0%N).

Definition is_leap (y : N) : bool :=
  ((y mod 4 =? 0) && (negb (y mod 100 =? 0) || (y mod 400 =? 0)))%N.

Definition days_in_month (y m : N) : N :=
  if (m =? 2)%N then (if is_leap y then 29 else 28)%N
  else if ((m =? 4) || (m =? 6) || (m =? 9) || (m =? 11))%N then 30%N
  else 31%N.

(** The ranges every [datetime] object satisfies. *)
Definition valid_datetime (d : datetime) : bool :=
  ((1 <=? year d) && (year d <=? 9999) &&
   (1 <=? month d) && (month d <=? 12) &&
   (1 <=? day d) && (day d <=? days_in_month (year d) (month d)) &&
   (hour d <? 24) && (minute d <? 60) && (second d <? 60) &&
   (microsecond d <? 1000000))%N.

Definition is_char (c d : ascii) : bool := Ascii.eqb c d.

(** The fraction of that format: [.fff] or [.ffffff] after the seconds, or
    nothing. *)
Definition parse_fraction (f : list ascii) : option N :=
  match f with
  | [] => Some 0%N
  | [p; f1; f2; f3] =>
      if is_char p "." then (λ ms, ms * 1000)%N <$> number [f1; f2; f3]
      else None
  | [p; f1; f2; f3; f4; f5; f6] =>
      if is_char p "." then number [f1; f2; f3; f4; f5; f6] else None
  | _ => None
  end.

(** The time of that format: [HH[:MM[:SS[.fff[fff]]]]]. *)
Definition parse_time (t : list ascii) : option (N * N * N * N) :=
  match t with
  | [h1; h2] => h ← number [h1; h2]; Some (h, 0, 0, 0)%N
  | [h1; h2; c1; m1; m2] =>
      if is_char c1 ":" then
        h ← number [h1; h2]; mi ← number [m1; m2]; Some (h, mi, 0, 0)%N
      else None
  | h1 :: h2 :: c1 :: m1 :: m2 :: c2 :: s1 :: s2 :: frac =>
      if is_char c1 ":" && is_char c2 ":" then
        h ← number [h1; h2]; mi ← number [m1; m2]; se ← number [s1; s2];
        us ← parse_fraction frac; Some (h, mi, se, us)
      else None
  | _ => None
  end.

(** A string of the format [YYYY-MM-DD[*HH[:MM[:SS[.fff[fff]]]]]] that
    denotes a date and a time of day; [None] for every other string. *)
Definition parse_datetime (s : list ascii) : option datetime :=
  match s with
  | y1 :: y2 :: y3 :: y4 :: c1 :: m1 :: m2 :: c2 :: d1 :: d2 :: rest =>
      if is_char c1 "-" && is_char c2 "-" then
        y ← number [y1; y2; y3; y4];
        mo ← number [m1; m2];
        dd ← number [d1; d2];
        t ← match rest with
            | [] => Some (0, 0, 0, 0)%N
            | _ :: tm => parse_time tm
            end;
        let '(h, mi, se, us) := t in
        let d := {| year := y; month := mo; day := dd; hour := h;
                    minute := mi; second := se; microsecond := us |} in
        if valid_datetime d then Some d else None
      else None
  | _ => None
  end.

(** What [datetime.fromisoformat] makes of a string outside that format:
    the datetime it reads from it, or [None] for its [ValueError], the only
    exception it has for a string.  The answer is that of the Python at
    hand and is not fixed here.  Timestamps are naive datetimes in this
    model, so the answer to a string with a UTC offset, an aware datetime,
    has no counterpart in it. *)
Class DatetimeLibrary := {
  other_formats : string → option datetime }.

Definition fromisoformat `{DatetimeLibrary} (s : string) : result datetime :=
  match parse_datetime (list_ascii_of_string s) with
  | Some d => Ok d
  | None =>
      match other_formats s with
      | Some d => Ok d
      | None => Raise ValueError
      end
  end.

(** ** Order book state and persistence *)

(** [serialize_order]: a copy of the order whose timestamp is a string. *)
Record serialized_order := {
  s_account_id : Z;
  s_ticker : string;
  s_action : string;
  s_order_type : string;
  s_quantity : Z;
  s_price : option Z;
  s_timestamp : string }.

(** The JSON document of the unmatched-orders file, as the value
    [json.load] returns for what [json.dump] wrote; a top-level key can be
    missing in a file written by other means. *)
Record snapshot := {
  snap_buy_orders : option (gmap string (list serialized_order));
  snap_sell_orders : option (gmap string (list serialized_order)) }.

(** [self] of [OrderBook].  A file is [None] when it does not exist; the
    executed-trades file is also [None] when it does not hold JSON.
    [stock_info] is [self.stock_info.get_initial_price]: the class of that
    collaborator is not in the source file and, as the spec has it, the
    lookup gives the initial price of a ticker. *)
Record OrderBook := {
  stock_info : string → Z;
  buy_orders : gmap string (list order);
  sell_orders : gmap string (list order);
  last_trade_price : gmap string Z;
  unmatched_orders_file : option snapshot;
  executed_trades_file : option (list trade) }.

Definition set_orders (self : OrderBook)
    (bo so : gmap string (list order)) : OrderBook :=
  {| stock_info := stock_info self;
     buy_orders := bo; sell_orders := so;
     last_trade_price := last_trade_price self;
     unmatched_orders_file := unmatched_orders_file self;
     executed_trades_file := executed_trades_file self |}.

Definition serialize_order (o : order) : serialized_order :=
  {| s_account_id := account_id o; s_ticker := ticker o;
     s_action := action o; s_order_type := order_type o;
     s_quantity := quantity o; s_price := price o;
     s_timestamp := isoformat (timestamp o) |}.

Definition save_unmatched_orders (self : OrderBook) : OrderBook :=
  let data :=
    {| snap_buy_orders := Some (map serialize_order <$> buy_orders self);
       snap_sell_orders := Some (map serialize_order <$> sell_orders self) |} in
  {| stock_info := stock_info self;
     buy_orders := buy_orders self; sell_orders := sell_orders self;
     last_trade_price := last_trade_price self;
     unmatched_orders_file := Some data;
     executed_trades_file := executed_trades_file self |}.

(** The loop body of [load_unmatched_orders] on one stored order. *)
Definition deserialize_order `{DatetimeLibrary} (s : serialized_order)
  : option order :=
  match fromisoformat (s_timestamp s) with
  | Ok d =>
      Some {| account_id := s_account_id s; ticker := s_ticker s;
              action := s_action s; order_type := s_order_type s;
              quantity := s_quantity s; price := s_price s;
              timestamp := d |}
  | Raise _ => None
  end.

(** One side of the file; the only exception is [fromisoformat]'s. *)
Definition load_side `{DatetimeLibrary}
    (m : gmap string (list serialized_order))
  : result (gmap string (list order)) :=
  let m' := mapM deserialize_order <$> m in
  if decide (map_Forall (λ _ v, is_Some v) m')
  then Ok (omap id m') else Raise ValueError.

Definition load_unmatched_orders `{DatetimeLibrary} (self : OrderBook)
  : result OrderBook :=
  match unmatched_orders_file self with
  | Some data =>
      match load_side (default ∅ (snap_buy_orders data)) with
      | Ok bo =>
          match load_side (default ∅ (snap_sell_orders data)) with
          | Ok so => Ok (set_orders self bo so)
          | Raise e => Raise e
          end
      | Raise e => Raise e
      end
  | None => Ok (set_orders self ∅ ∅)
  end.

Definition save_executed_trade (self : OrderBook) (trade_info : trade)
  : OrderBook :=
  {| stock_info := stock_info self;
     buy_orders := buy_orders self; sell_orders := sell_orders self;
     last_trade_price := last_trade_price self;
     unmatched_orders_file := unmatched_orders_file self;
     executed_trades_file :=
       Some (default [] (executed_trades_file self) ++ [trade_info]) |}.

(** ** Price oracle *)

(** [a < b] on prices; comparing [None] with a number is a [TypeError]. *)
Definition py_lt (a b : option Z) : result bool :=
  match a, b with
  | Some x, Some y => Ok (x <? y)%Z
  | _, _ => Raise TypeError
  end.

(** [min] keeps the first item and replaces it by each later item that is
    smaller; [max] replaces it by each later item that is greater. *)
Fixpoint py_min_from (cur : option Z) (l : list (option Z))
  : result (option Z) :=
  match l with
  | [] => Ok cur
  | x :: l' =>
      match py_lt x cur with
      | Ok true => py_min_from x l'
      | Ok false => py_min_from cur l'
      | Raise e => Raise e
      end
  end.

Fixpoint py_max_from (cur : option Z) (l : list (option Z))
  : result (option Z) :=
  match l with
  | [] => Ok cur
  | x :: l' =>
      match py_lt cur x with
      | Ok true => py_max_from x l'
      | Ok false => py_max_from cur l'
      | Raise e => Raise e
      end
  end.

Definition py_min (l : list (option Z)) : result (option Z) :=
  match l with
  | [] => Raise ValueError
  | x :: l' => py_min_from x l'
  end.

Definition py_max (l : list (option Z)) : result (option Z) :=
  match l with
  | [] => Raise ValueError
  | x :: l' => py_max_from x l'
  end.

Definition limit_orders (orders : list order) : list order :=
  List.filter is_limit orders.

Definition get_best_price (self : OrderBook) (action ticker : string)
  : result (option Z) :=
  let fallback :=
    Ok (Some (default (stock_info self ticker)
                      (last_trade_price self !! ticker))) in
  if String.eqb action "buy" then
    match sell_orders self !! ticker with
    | Some orders =>
        match limit_orders orders with
        | [] => fallback
        | lo => py_min (map price lo)
        end
    | None => fallback
    end
  else if String.eqb action "sell" then
    match buy_orders self !! ticker with
    | Some orders =>
        match limit_orders orders with
        | [] => fallback
        | lo => py_max (map price lo)
        end
    | None => fallback
    end
  else fallback.

(** ** Order admission and matching *)

(** The line [add_order] prints. *)
Inductive message :=
  | ErrQuantity
  | ErrOrderType
  | ErrLimitPrice
  | ErrShares (id : Z)
  | MsgAdded.

(** How the inner loop body of [match_orders] prices a pair: [Skip] is a
    [continue], [Exec p] leaves [execution_price = p], and [PricingError] is
    the [TypeError] of comparing with a price that is [None]. *)
Inductive pricing :=
  | Skip
  | Exec (p : option Z)
  | PricingError.

Definition execution_price (self : OrderBook) (ticker : string)
    (buy_order sell_order : order) : pricing :=
  if is_market buy_order && is_market sell_order then
    match last_trade_price self !! ticker with
    | Some p => Exec (Some p)
    | None => Skip
    end
  else if is_market buy_order && is_limit sell_order then
    Exec (price sell_order)
  else if is_limit buy_order && is_market sell_order then
    Exec (price buy_order)
  else if is_limit buy_order && is_limit sell_order then
    match price buy_order, price sell_order with
    | Some pb, Some ps => if (ps <=? pb)%Z then Exec (Some ps) else Skip
    | _, _ => PricingError
    end
  else Skip.

(** [deque.remove(x)]: drops the first item equal to [x] (dicts compare by
    content); [None] is the [ValueError] of an absent item. *)
Fixpoint deque_remove (x : order) (l : list order) : option (list order) :=
  match l with
  | [] => None
  | y :: l' =>
      if decide (y = x) then Some l' else (y ::.) <$> deque_remove x l'
  end.

Section Matching.
Context {AM : Type} `{AccountManager AM}.

Definition add_order (self : OrderBook) (o : order) (account_manager : AM)
  : bool * message * OrderBook :=
  let tk := ticker o in
  let account := get_account account_manager (account_id o) in
  if (quantity o <=? 0)%Z then (false, ErrQuantity, self)
  else if negb (is_market o || is_limit o) then (false, ErrOrderType, self)
  else if is_limit o &&
          match price o with
          | None => true
          | Some p => (p <=? 0)%Z
          end
  then (false, ErrLimitPrice, self)
  else if String.eqb (action o) "sell" &&
          (default 0 (positions account !! tk) <? quantity o)%Z
  then (false, ErrShares (account_id o), self)
  else
    let self' :=
      if String.eqb (action o) "buy" then
        set_orders self
          (<[tk := default [] (buy_orders self !! tk) ++ [o]]>
             (buy_orders self))
          (sell_orders self)
      else if String.eqb (action o) "sell" then
        set_orders self
          (buy_orders self)
          (<[tk := default [] (sell_orders self !! tk) ++ [o]]>
             (sell_orders self))
      else self in
    (true, MsgAdded, save_unmatched_orders self').

(** The variables of a running [match_orders]: its two local deques, the
    book object and the account collaborator.  The loop works on the local
    deques only: the orders that [book] maps the ticker to are those the
    call started from, until the call ends and stores the local deques. *)
Record mstate := {
  buys : list order;
  sells : list order;
  book : OrderBook;
  accounts : AM }.

(** What one pass over a pair, a row of pairs or the whole scan did:
    nothing ([matched] still false), a match or a rejection that left the
    state [m], or an exception. *)
Inductive step :=
  | NoMatch
  | Matched (m : mstate)
  | Raised (e : exn).

Definition set_last_trade_price (self : OrderBook) (ticker : string)
    (p : Z) : OrderBook :=
  {| stock_info := stock_info self;
     buy_orders := buy_orders self; sell_orders := sell_orders self;
     last_trade_price := <[ticker := p]> (last_trade_price self);
     unmatched_orders_file := unmatched_orders_file self;
     executed_trades_file := executed_trades_file self |}.

(** [if q == 0: orders.remove(o)] *)
Definition remove_filled (o : order) (l : list order)
  : option (list order) :=
  if (quantity o =? 0)%Z then deque_remove o l else Some l.

(** Lines 161-215: the pair [buys[i]], [sells[j]] at [execution_price]. *)
Definition settle (m : mstate) (ticker : string) (i j : nat)
    (buy_order sell_order : order) (execution_price : option Z) : step :=
  let exec_quantity := Z.min (quantity buy_order) (quantity sell_order) in
  let buyer_account := get_account (accounts m) (account_id buy_order) in
  match execution_price with
  | None => Raised TypeError
  | Some execution_price =>
      let total_cost := (exec_quantity * execution_price)%Z in
      if (total_cost <=? balance buyer_account)%Z then
        let buyer_positions := positions buyer_account in
        let buyer_account' :=
          {| balance := balance buyer_account - total_cost;
             positions :=
               <[ticker := (default 0 (buyer_positions !! ticker)
                            + exec_quantity)%Z]> buyer_positions |} in
        let am1 :=
          update_account (accounts m) (account_id buy_order)
                         buyer_account' in
        let seller_account := get_account am1 (account_id sell_order) in
        let seller_positions :=
          <[ticker := (default 0 (positions seller_account !! ticker)
                       - exec_quantity)%Z]> (positions seller_account) in
        let seller_positions' :=
          if (default 0 (seller_positions !! ticker) =? 0)%Z
          then delete ticker seller_positions else seller_positions in
        let seller_account' :=
          {| balance := balance seller_account + total_cost;
             positions := seller_positions' |} in
        let am2 :=
          update_account am1 (account_id sell_order) seller_account' in
        let buy_order' :=
          set_quantity buy_order (quantity buy_order - exec_quantity) in
        let sell_order' :=
          set_quantity sell_order (quantity sell_order - exec_quantity) in
        let buys1 := <[i := buy_order']> (buys m) in
        let sells1 := <[j := sell_order']> (sells m) in
        let self1 := set_last_trade_price (book m) ticker execution_price in
        let trade_info :=
          {| tr_ticker := ticker; tr_price := execution_price;
             tr_quantity := exec_quantity;
             buy_account_id := account_id buy_order;
             sell_account_id := account_id sell_order |} in
        let self2 := save_executed_trade self1 trade_info in
        match remove_filled buy_order' buys1 with
        | None => Raised ValueError
        | Some buys2 =>
            match remove_filled sell_order' sells1 with
            | None => Raised ValueError
            | Some sells2 =>
                Matched {| buys := buys2; sells := sells2;
                           book := self2; accounts := am2 |}
            end
        end
      else
        match deque_remove buy_order (buys m) with
        | None => Raised ValueError
        | Some buys' =>
            Matched {| buys := buys'; sells := sells m;
                       book := book m; accounts := accounts m |}
        end
  end.

(** Lines 137-215: the body of the inner [for]. *)
Definition pair_body (m : mstate) (ticker : string) (i j : nat)
    (buy_order sell_order : order) : step :=
  if (account_id buy_order =? account_id sell_order)%Z then NoMatch
  else
    match execution_price (book m) ticker buy_order sell_order with
    | Skip => NoMatch
    | PricingError => Raised TypeError
    | Exec p => settle m ticker i j buy_order sell_order p
    end.

(** [for sell_order in list(sell_orders)], from the [j]-th item on. *)
Fixpoint for_sells (m : mstate) (ticker : string) (i : nat)
    (buy_order : order) (rest : list order) (j : nat) : step :=
  match rest with
  | [] => NoMatch
  | sell_order :: rest' =>
      match pair_body m ticker i j buy_order sell_order with
      | NoMatch => for_sells m ticker i buy_order rest' (S j)
      | r => r
      end
  end.

(** [for buy_order in list(buy_orders)], from the [i]-th item on. *)
Fixpoint for_buys (m : mstate) (ticker : string) (rest : list order)
    (i : nat) : step :=
  match rest with
  | [] => NoMatch
  | buy_order :: rest' =>
      match for_sells m ticker i buy_order (sells m) 0 with
      | NoMatch => for_buys m ticker rest' (S i)
      | r => r
      end
  end.

(** [while buy_orders and sell_orders] *)
Definition loop_condition (m : mstate) : bool :=
  negb (bool_decide (buys m = [])) && negb (bool_decide (sells m = [])).

(** One iteration of the [while] body. *)
Definition match_iteration (m : mstate) (ticker : string) : step :=
  for_buys m ticker (buys m) 0.

Inductive loop_result :=
  | Done (m : mstate)
  | Failed (e : exn) (m : mstate)
  | OutOfFuel.

Fixpoint match_loop (fuel : nat) (ticker : string) (m : mstate)
  : loop_result :=
  match fuel with
  | O => OutOfFuel
  | S fuel' =>
      if loop_condition m then
        match match_iteration m ticker with
        | NoMatch => Done m
        | Matched m' => match_loop fuel' ticker m'
        | Raised e => Failed e m
        end
      else Done m
  end.

(** How a call ends: it returns, or an exception leaves it in the state
    [m] of the matching loop; [Diverged] marks a run that the fuel of
    the model did not cover. *)
Inductive outcome :=
  | Returned (self : OrderBook) (am : AM)
  | Thrown (e : exn) (m : mstate)
  | Diverged.

(** Lines 117-130: the two deques of the ticker, sorted. *)
Definition initial_state (self : OrderBook) (ticker : string)
    (account_manager : AM) : mstate :=
  let buy_orders0 := default [] (buy_orders self !! ticker) in
  let sell_orders0 := default [] (sell_orders self !! ticker) in
  {| buys := sorted buy_key buy_orders0;
     sells := sorted sell_key sell_orders0;
     book := self; accounts := account_manager |}.

Definition match_orders (self : OrderBook) (ticker : string)
    (account_manager : AM) : outcome :=
  let m0 := initial_state self ticker account_manager in
  match match_loop (S (length (buys m0) + length (sells m0))) ticker m0 with
  | Done m =>
      Returned
        (save_unmatched_orders
           (set_orders (book m)
              (<[ticker := buys m]> (buy_orders (book m)))
              (<[ticker := sells m]> (sell_orders (book m)))))
        (accounts m)
  | Failed e m => Thrown e m
  | OutOfFuel => Diverged
  end.

(** A driver's calls on one book. *)
Inductive call :=
  | AddOrder (o : order)
  | MatchOrders (ticker : string).

Fixpoint run_calls (cs : list call) (self : OrderBook) (am : AM)
  : outcome :=
  match cs with
  | [] => Returned self am
  | AddOrder o :: cs' =>
      let '(_, _, self') := add_order self o am in
      run_calls cs' self' am
  | MatchOrders ticker :: cs' =>
      match match_orders self ticker am with
      | Returned self' am' => run_calls cs' self' am'
      | r => r
      end
  end.

(** The executed-trades log when a call has ended. *)
Definition trades_of (self : OrderBook) : list trade :=
  default [] (executed_trades_file self).

Definition outcome_trades (r : outcome) : option (list trade) :=
  match r with
  | Returned self _ => Some (trades_of self)
  | Thrown _ m => Some (trades_of (book m))
  | Diverged => None
  end.

End Matching.

Arguments mstate AM : clear implicits.
Arguments step AM : clear implicits.
Arguments loop_result AM : clear implicits.
Arguments outcome AM : clear implicits.

(** ** Vocabulary of the statements *)

(** The inner loop passes over the pair ([continue]): the two orders are of
    one account, or the pair has no execution price. *)
Definition skips (self : OrderBook) (ticker : string) (b s : order) : bool :=
  (account_id b =? account_id s)%Z ||
  match execution_price self ticker b s with
  | Skip => true
  | _ => false
  end.

(** [buys[i]], [sells[j]] is the pair an iteration of the matching loop
    stops at: the first pair, buy orders first, that is not passed over. *)
Definition selected {AM : Type} (m : mstate AM) (ticker : string)
    (i j : nat) (b s : order) : Prop :=
  buys m !! i = Some b ∧ sells m !! j = Some s ∧
  skips (book m) ticker b s = false ∧
  (∀ i' b' s', i' < i → buys m !! i' = Some b' → s' ∈ sells m →
               skips (book m) ticker b' s' = true) ∧
  (∀ j' s', j' < j → sells m !! j' = Some s' →
            skips (book m) ticker b s' = true).

(** Every limit order carries a price (the data model's invariant). *)
Definition priced (o : order) : Prop :=
  is_limit o = true → is_Some (price o).

Definition total_quantity (l : list order) : Z :=
  foldr (λ o acc, (quantity o + acc)%Z) 0%Z l.

Definition distinct_parties (t : trade) : Prop :=
  buy_account_id t ≠ sell_account_id t.

(** The log of [self'] is the log of [self] and then records of trades
    between two accounts. *)
Definition extends (self self' : OrderBook) : Prop :=
  ∃ new, trades_of self' = trades_of self ++ new ∧
         Forall distinct_parties new.

(** The resting orders of a ticker, side by side. *)
Definition resting_buys (self : OrderBook) (ticker : string) : list order :=
  default [] (buy_orders self !! ticker).

Definition resting_sells (self : OrderBook) (ticker : string) : list order :=
  default [] (sell_orders self !! ticker).

(** Every buyer can pay any match of its resting order, and every seller
    holds what its resting order sells. *)
Definition sufficient_funds {AM : Type} `{AccountManager AM}
    (self : OrderBook) (ticker : string) (am : AM) : Prop :=
  (∀ b s p, b ∈ resting_buys self ticker → s ∈ resting_sells self ticker →
            execution_price self ticker b s = Exec (Some p) →
            (Z.min (quantity b) (quantity s) * p
             ≤ balance (get_account am (account_id b)))%Z) ∧
  (∀ s, s ∈ resting_sells self ticker →
        (quantity s
         ≤ default 0 (positions (get_account am (account_id s)) !! ticker))%Z).

Definition positive (o : order) : Prop := (0 < quantity o)%Z.

(** The grounds on which an order is refused, for the account [acct] that
    submits it. *)
Definition refusable (o : order) (acct : account) : Prop :=
  (quantity o ≤ 0)%Z ∨
  (order_type o ≠ "market" ∧ order_type o ≠ "limit") ∨
  (order_type o = "limit" ∧
   (price o = None ∨ ∃ p, price o = Some p ∧ (p ≤ 0)%Z)) ∨
  (action o = "sell" ∧
   (default 0 (positions acct !! ticker o) < quantity o)%Z).

(** The four tests of [add_order], as one. *)
Definition refused (o : order) (acct : account) : bool :=
  (quantity o <=? 0)%Z ||
  negb (is_market o || is_limit o) ||
  (is_limit o && match price o with
                 | None => true
                 | Some p => (p <=? 0)%Z
                 end) ||
  (String.eqb (action o) "sell" &&
   (default 0 (positions acct !! ticker o) <? quantity o)%Z).

(** The timestamps of the resting orders are [datetime] objects. *)
Definition well_timed (self : OrderBook) : Prop :=
  map_Forall (λ _ l, Forall (λ o, valid_datetime (timestamp o) = true) l)
             (buy_orders self) ∧
  map_Forall (λ _ l, Forall (λ o, valid_datetime (timestamp o) = true) l)
             (sell_orders self).

(** ** Sample data *)

Definition at_microsecond (us : N) : datetime :=
  {| year := 2024; month := 2; day := 29; hour := 9; minute := 30;
     second := 0; microsecond := us |}.

Definition sample_order (acct : Z) (act ty : string) (q : Z)
    (p : option Z) (us : N) : order :=
  {| account_id := acct; ticker := "XYZ"; action := act; order_type := ty;
     quantity := q; price := p; timestamp := at_microsecond us |}.

Definition empty_book : OrderBook :=
  {| stock_info := λ _, 50%Z; buy_orders := ∅; sell_orders := ∅;
     last_trade_price := ∅; unmatched_orders_file := None;
     executed_trades_file := None |}.

(** Every account holds 100000 in cash and 100 shares of XYZ. *)
Definition rich_accounts : Z → account :=
  λ _, {| balance := 100000; positions := {[ "XYZ" := 100%Z ]} |}.


Definition book_of (bs ss : list order) : OrderBook :=
  set_orders empty_book {[ "XYZ" := bs ]} {[ "XYZ" := ss ]}.

Definition state_of (bs ss : list order) (am : Z → account)
  : mstate (Z → account) :=
  {| buys := bs; sells := ss; book := book_of bs ss; accounts := am |}.

(** The orders of the spec's scenarios. *)
Definition buy_101 : order := sample_order 1 "buy" "limit" 5 (Some 101%Z) 1.
Definition sell_100 : order := sample_order 2 "sell" "limit" 10 (Some 100%Z) 2.
Definition buy_market : order := sample_order 1 "buy" "market" 5 None 1.
Definition buy_50 : order := sample_order 1 "buy" "limit" 10 (Some 50%Z) 1.
Definition sell_50 : order := sample_order 2 "sell" "limit" 10 (Some 50%Z) 2.
Definition own_buy_100 : order :=
  sample_order 1 "buy" "limit" 10 (Some 100%Z) 1.
Definition own_sell_100 : order :=
  sample_order 1 "sell" "limit" 10 (Some 100%Z) 2.
Definition hold_order : order := sample_order 1 "hold" "market" 5 None 1.
Definition oversell : order :=
  sample_order 2 "sell" "limit" 200 (Some 100%Z) 3.

(** ** The rest of the class *)

(** [__init__]: an empty book over the two files, then
    [load_unmatched_orders]. *)
Definition OrderBook_init `{DatetimeLibrary} (stock_info : string → Z)
    (unmatched_orders_file : option snapshot)
    (executed_trades_file : option (list trade)) : result OrderBook :=
  load_unmatched_orders
    {| stock_info := stock_info; buy_orders := ∅; sell_orders := ∅;
       last_trade_price := ∅;
       unmatched_orders_file := unmatched_orders_file;
       executed_trades_file := executed_trades_file |}.

(** [get_best_bid_ask]: [(best_bid, best_ask)], each [None] when the
    ticker has no limit order on that side; the bid is computed first. *)
Definition get_best_bid_ask (self : OrderBook) (ticker : string)
  : result (option Z * option Z) :=
  let best_bid :=
    match buy_orders self !! ticker with
    | Some orders =>
        match limit_orders orders with
        | [] => Ok None
        | limit_buy_orders => py_max (map price limit_buy_orders)
        end
    | None => Ok None
    end in
  let best_ask :=
    match sell_orders self !! ticker with
    | Some orders =>
        match limit_orders orders with
        | [] => Ok None
        | limit_sell_orders => py_min (map price limit_sell_orders)
        end
    | None => Ok None
    end in
  match best_bid with
  | Raise e => Raise e
  | Ok bid =>
      match best_ask with
      | Raise e => Raise e
      | Ok ask => Ok (bid, ask)
      end
  end.

(** ** Vocabulary of the further statements *)

(** Modelled from the spec: what [update_account] persists is what
    [get_account] then yields for that account, and no other account
    changes. *)
Class AccountManagerLaws (AM : Type) `{AccountManager AM} : Prop := {
  get_update_eq (am : AM) id a :
    get_account (update_account am id a) id = a;
  get_update_ne (am : AM) id id' a :
    id ≠ id' → get_account (update_account am id a) id' = get_account am id' }.

#[global] Instance fn_accounts_laws : AccountManagerLaws (Z → account).
Proof.
  split; simpl.
  - intros am id a. by rewrite Z.eqb_refl.
  - intros am id id' a Hne.
    destruct (id' =? id)%Z eqn:E; [apply Z.eqb_eq in E; congruence|done].
Qed.

(** [a <= b] on sort keys: [b] is not before [a]. *)
Definition key_le (a b : sort_key) : Prop := key_lt b a = false.

(** The list is in the order of its keys. *)
Definition ordered (key : order → sort_key) (l : list order) : Prop :=
  StronglySorted key_le (key <$> l).

(** The fields of a timestamp, most significant first. *)
Definition fields (d : datetime) : list N :=
  [year d; month d; day d; hour d; minute d; second d; microsecond d].

Fixpoint lex_compare (a b : list N) : comparison :=
  match a, b with
  | x :: a', y :: b' => lex (N.compare x y) (lex_compare a' b')
  | [], [] => Eq
  | [], _ :: _ => Lt
  | _ :: _, [] => Gt
  end.

(** An order but for its quantity. *)
Definition forget_quantity (o : order) : order := set_quantity o 0.

(** What [add_order] admits: a positive quantity, and a market order or a
    limit order with a positive price. *)
Definition admissible (o : order) : Prop :=
  (0 < quantity o)%Z ∧
  (is_market o = true ∨
   (is_limit o = true ∧ ∃ p, price o = Some p ∧ (0 < p)%Z)).

Definition admissible_book (self : OrderBook) : Prop :=
  map_Forall (λ _ l, Forall admissible l) (buy_orders self) ∧
  map_Forall (λ _ l, Forall admissible l) (sell_orders self).

(** The unmatched-orders file holds the orders of the book: loading it
    changes nothing. *)
Definition synced `{DatetimeLibrary} (self : OrderBook) : Prop :=
  load_unmatched_orders self = Ok self.

(** The timestamps of the orders that the calls submit are [datetime]
    objects. *)
Definition timely (c : call) : Prop :=
  match c with
  | AddOrder o => valid_datetime (timestamp o) = true
  | MatchOrders _ => True
  end.

Definition sum_quantities (ts : list trade) : Z :=
  foldr (λ t acc, (tr_quantity t + acc)%Z) 0%Z ts.

(** Two market orders, and a limit order without a usable price. *)
Definition late_market_buy : order := sample_order 3 "buy" "market" 5 None 9.
Definition buy_unpriced : order := sample_order 4 "buy" "limit" 5 None 0.
Definition sell_market : order := sample_order 5 "sell" "market" 5 None 9.

(** The account store after the two legs of a trade (lines 164-186). *)
Definition transfer {AM : Type} `{AccountManager AM} (am : AM)
    (ticker : string) (b s : order) (p : Z) : AM :=
  let e := Z.min (quantity b) (quantity s) in
  let buyer := get_account am (account_id b) in
  let am1 :=
    update_account am (account_id b)
      {| balance := balance buyer - e * p;
         positions := <[ticker := (default 0 (positions buyer !! ticker)
                                   + e)%Z]> (positions buyer) |} in
  let seller := get_account am1 (account_id s) in
  let seller_positions :=
    <[ticker := (default 0 (positions seller !! ticker) - e)%Z]>
      (positions seller) in
  update_account am1 (account_id s)
    {| balance := balance seller + e * p;
       positions :=
         if (default 0 (seller_positions !! ticker) =? 0)%Z
         then delete ticker seller_positions else seller_positions |}.

(** The state after the rejection of [buys[i]]. *)
Definition after_rejection {AM : Type} (m : mstate AM) (i : nat)
  : mstate AM :=
  {| buys := delete i (buys m); sells := sells m;
     book := book m; accounts := accounts m |}.

(** The record of a trade between [b] and [s] at price [p]. *)
Definition trade_of (ticker : string) (b s : order) (p : Z) : trade :=
  {| tr_ticker := ticker; tr_price := p;
     tr_quantity := Z.min (quantity b) (quantity s);
     buy_account_id := account_id b; sell_account_id := account_id s |}.

(** The state after the trade of [buys[i]] with [sells[j]] at [p]. *)
Definition after_trade {AM : Type} `{AccountManager AM} (m : mstate AM)
    (ticker : string) (i j : nat) (b s : order) (p : Z) : mstate AM :=
  let e := Z.min (quantity b) (quantity s) in
  let b' := set_quantity b (quantity b - e) in
  let s' := set_quantity s (quantity s - e) in
  {| buys := if (quantity b' =? 0)%Z then delete i (buys m)
             else <[i := b']> (buys m);
     sells := if (quantity s' =? 0)%Z then delete j (sells m)
              else <[j := s']> (sells m);
     book := save_executed_trade (set_last_trade_price (book m) ticker p)
                                 (trade_of ticker b s p);
     accounts := transfer (accounts m) ticker b s p |}.

(** What the loop of [match_orders] has done between two of its states:
    the log has grown by the records [new]. *)
Definition logged {AM : Type} (ticker : string) (m m' : mstate AM)
    (new : list trade) : Prop :=
  trades_of (book m') = trades_of (book m) ++ new ∧
  Forall (λ t, tr_ticker t = ticker) new ∧
  match last new with
  | Some t => last_trade_price (book m') !! ticker = Some (tr_price t)
  | None => book m' = book m ∧ accounts m' = accounts m
  end ∧
  sum_quantities new
  = (total_quantity (sells m) - total_quantity (sells m'))%Z ∧
  length new + length (buys m') + length (sells m')
    ≤ length (buys m) + length (sells m).

(** The book object apart from its log and its last trade prices, and the
    last trade prices of the other tickers, are kept. *)
Definition framed {AM : Type} (ticker : string) (m m' : mstate AM) : Prop :=
  stock_info (book m') = stock_info (book m) ∧
  buy_orders (book m') = buy_orders (book m) ∧
  sell_orders (book m') = sell_orders (book m) ∧
  unmatched_orders_file (book m') = unmatched_orders_file (book m) ∧
  (∀ t, t ≠ ticker →
        last_trade_price (book m') !! t = last_trade_price (book m) !! t) ∧
  (∀ t, is_Some (last_trade_price (book m) !! t) →
        is_Some (last_trade_price (book m') !! t)).

(** The orders of [m'] are orders of [m], in the same order, but for
    their quantities. *)
Definition thinned {AM : Type} (m m' : mstate AM) : Prop :=
  (forget_quantity <$> buys m') `sublist_of` (forget_quantity <$> buys m) ∧
  (forget_quantity <$> sells m') `sublist_of` (forget_quantity <$> sells m).

Definition timestamps_valid (l : list order) : Prop :=
  Forall (λ o, valid_datetime (timestamp o) = true) l.

Definition buy_90 : order := sample_order 1 "buy" "limit" 5 (Some 90%Z) 1.

(** Scenario 2 as a driver's calls on the empty book. *)
Definition scenario_calls : list call :=
  [AddOrder buy_101; AddOrder sell_100; MatchOrders "XYZ"].


(** The examples run on a Python whose [fromisoformat] reads the format
    that [isoformat] writes and nothing else. *)
#[global] Instance isoformat_only : DatetimeLibrary := {
  other_formats _ := None }.

(** Another book object over the file that the book of [buy_101] and
    [sell_100] has written; it holds an order of its own before it loads
    the file. *)
Definition reopened_book : OrderBook :=
  {| stock_info := λ _, 50%Z;
     buy_orders := {[ "XYZ" := [buy_50] ]}; sell_orders := ∅;
     last_trade_price := ∅;
     unmatched_orders_file :=
       unmatched_orders_file
         (save_unmatched_orders (book_of [buy_101] [sell_100]));
     executed_trades_file := None |}.

(** A file in which an order's timestamp is not a date. *)
Definition undated_snapshot : snapshot :=
  {| snap_buy_orders :=
       Some {[ "XYZ" := [ {| s_account_id := 1; s_ticker := "XYZ";
                             s_action := "buy"; s_order_type := "market";
                             s_quantity := 5; s_price := None;
                             s_timestamp := "yesterday" |} ] ]};
     snap_sell_orders := None |}.

(** * Properties *)

Section MatchingFacts.
Context {AM : Type} `{AccountManager AM}.
Implicit Types (m : mstate AM) (b s : order) (ticker : string).

Lemma settle_not_NoMatch m ticker i j b s p :
  settle m ticker i j b s p ≠ NoMatch.
Proof.
  unfold settle. destruct p as [p|]; [|discriminate].
  case_match.
  - repeat case_match; discriminate.
  - case_match; discriminate.
Qed.

Lemma pair_body_skips m ticker i j b s :
  pair_body m ticker i j b s = NoMatch ↔ skips (book m) ticker b s = true.
Proof.
  unfold pair_body, skips.
  destruct (account_id b =? account_id s)%Z; [done|]. simpl.
  destruct (execution_price (book m) ticker b s) eqn:E; split; try done.
  intros Hs. by apply settle_not_NoMatch in Hs.
Qed.

Lemma pair_body_skipped m ticker i j b s :
  skips (book m) ticker b s = true → pair_body m ticker i j b s = NoMatch.
Proof. apply pair_body_skips. Qed.

Lemma pair_body_not_skipped m ticker i j b s :
  skips (book m) ticker b s = false → pair_body m ticker i j b s ≠ NoMatch.
Proof. intros Hs Hp. apply pair_body_skips in Hp. congruence. Qed.

Lemma for_sells_hit m ticker i b rest j k s :
  rest !! k = Some s →
  skips (book m) ticker b s = false →
  (∀ k' s', k' < k → rest !! k' = Some s' →
            skips (book m) ticker b s' = true) →
  for_sells m ticker i b rest j = pair_body m ticker i (j + k) b s.
Proof.
  revert j k. induction rest as [|x rest IH]; intros j k Hk Hs Hbefore.
  - done.
  - destruct k as [|k]; simpl in *.
    + simplify_eq. rewrite Nat.add_0_r.
      destruct (pair_body m ticker i j b s) eqn:E; try done.
      apply pair_body_skips in E. congruence.
    + rewrite (pair_body_skipped m ticker i j b x).
      * rewrite (IH (S j) k Hk Hs); [f_equal; lia|].
        intros k' s' Hlt Hk'. apply (Hbefore (S k') s'); [lia|done].
      * apply (Hbefore 0 x); [lia|done].
Qed.

Lemma for_sells_NoMatch m ticker i b rest j :
  for_sells m ticker i b rest j = NoMatch ↔
  ∀ s, s ∈ rest → skips (book m) ticker b s = true.
Proof.
  revert j. induction rest as [|x rest IH]; intros j; simpl.
  - split; [|done]. intros _ s Hs. by apply elem_of_nil in Hs.
  - destruct (pair_body m ticker i j b x) eqn:E.
    + apply pair_body_skips in E. rewrite IH. split.
      * intros Hr s [->|Hs]%elem_of_cons; auto.
      * intros Hr s Hs. apply Hr. by right.
    + split; [done|]. intros Hr.
      assert (pair_body m ticker i j b x = NoMatch) as E'.
      { apply pair_body_skips, Hr. by left. }
      congruence.
    + split; [done|]. intros Hr.
      assert (pair_body m ticker i j b x = NoMatch) as E'.
      { apply pair_body_skips, Hr. by left. }
      congruence.
Qed.

(** A row of the scan that stops, stops at its first pair not passed
    over. *)
Lemma for_sells_stops m ticker i b rest j :
  for_sells m ticker i b rest j ≠ NoMatch →
  ∃ k s, rest !! k = Some s ∧ skips (book m) ticker b s = false ∧
         (∀ k' s', k' < k → rest !! k' = Some s' →
                   skips (book m) ticker b s' = true).
Proof.
  revert j. induction rest as [|x rest IH]; intros j; simpl; [done|].
  destruct (skips (book m) ticker b x) eqn:Hx.
  - rewrite (pair_body_skipped _ _ _ _ _ _ Hx). intros Hr.
    destruct (IH _ Hr) as (k & s & Hk & Hs & Hbefore).
    exists (S k), s. split_and!; [done..|].
    intros [|k'] s' Hlt Hk'; simpl in Hk'; [by simplify_eq|].
    apply (Hbefore k' s'); [lia|done].
  - intros _. exists 0, x. split_and!; [done..|]. intros; lia.
Qed.

Lemma for_buys_NoMatch m ticker rest i :
  for_buys m ticker rest i = NoMatch ↔
  ∀ b s, b ∈ rest → s ∈ sells m → skips (book m) ticker b s = true.
Proof.
  revert i. induction rest as [|x rest IH]; intros i; simpl.
  - split; [|done]. intros _ b s Hb. by apply elem_of_nil in Hb.
  - destruct (for_sells m ticker i x (sells m) 0) eqn:E.
    + rewrite for_sells_NoMatch in E. rewrite IH. split.
      * intros Hr b s [->|Hb]%elem_of_cons; auto.
      * intros Hr b s Hb. apply Hr. by right.
    + split; [done|]. intros Hr.
      assert (for_sells m ticker i x (sells m) 0 = NoMatch) as E'.
      { apply for_sells_NoMatch. intros s. apply Hr. by left. }
      congruence.
    + split; [done|]. intros Hr.
      assert (for_sells m ticker i x (sells m) 0 = NoMatch) as E'.
      { apply for_sells_NoMatch. intros s. apply Hr. by left. }
      congruence.
Qed.

Lemma for_buys_hit m ticker rest i k j b s :
  rest !! k = Some b →
  sells m !! j = Some s →
  skips (book m) ticker b s = false →
  (∀ k' b' s', k' < k → rest !! k' = Some b' → s' ∈ sells m →
               skips (book m) ticker b' s' = true) →
  (∀ j' s', j' < j → sells m !! j' = Some s' →
            skips (book m) ticker b s' = true) →
  for_buys m ticker rest i = pair_body m ticker (i + k) j b s.
Proof.
  revert i k. induction rest as [|x rest IH];
    intros i k Hk Hj Hs Hrows Hrow; [done|].
  destruct k as [|k]; simpl in *.
  - simplify_eq. rewrite Nat.add_0_r.
    rewrite (for_sells_hit m ticker i b (sells m) 0 j s Hj Hs Hrow).
    simpl. pose proof (pair_body_not_skipped m ticker i j b s Hs).
    by destruct (pair_body m ticker i j b s).
  - assert (for_sells m ticker i x (sells m) 0 = NoMatch) as ->.
    { apply for_sells_NoMatch. intros s'. apply (Hrows 0 x s'); [lia|done]. }
    rewrite (IH (S i) k Hk Hj Hs); [f_equal; lia| |done].
    intros k' b' s' Hlt Hk'. apply (Hrows (S k') b' s'); [lia|done].
Qed.

Lemma for_buys_stops m ticker rest i :
  for_buys m ticker rest i ≠ NoMatch →
  ∃ k j b s, rest !! k = Some b ∧ sells m !! j = Some s ∧
    skips (book m) ticker b s = false ∧
    (∀ k' b' s', k' < k → rest !! k' = Some b' → s' ∈ sells m →
                 skips (book m) ticker b' s' = true) ∧
    (∀ j' s', j' < j → sells m !! j' = Some s' →
              skips (book m) ticker b s' = true).
Proof.
  revert i. induction rest as [|x rest IH]; intros i; simpl; [done|].
  destruct (for_sells m ticker i x (sells m) 0) eqn:E.
  - intros Hr. destruct (IH _ Hr) as (k & j & b & s & Hk & Hj & Hs & Hrows & Hrow).
    exists (S k), j, b, s. split_and!; [done..| |done].
    intros [|k'] b' s' Hlt Hk' Hs'; simpl in Hk'.
    + simplify_eq. rewrite for_sells_NoMatch in E. by apply E.
    + apply (Hrows k' b' s'); [lia|done..].
  - intros _.
    destruct (for_sells_stops m ticker i x (sells m) 0) as (j & s & Hj & Hs & Hrow);
      [by rewrite E|].
    exists 0, j, x, s. split_and!; [done..| |done]. intros; lia.
  - intros _.
    destruct (for_sells_stops m ticker i x (sells m) 0) as (j & s & Hj & Hs & Hrow);
      [by rewrite E|].
    exists 0, j, x, s. split_and!; [done..| |done]. intros; lia.
Qed.

(** An iteration runs the loop body on the selected pair. *)
Lemma selected_iteration m ticker i j b s :
  selected m ticker i j b s →
  match_iteration m ticker = pair_body m ticker i j b s.
Proof.
  intros (Hi & Hj & Hs & Hrows & Hrow). unfold match_iteration.
  by rewrite (for_buys_hit m ticker (buys m) 0 i j b s).
Qed.

Lemma iteration_selects m ticker :
  match_iteration m ticker ≠ NoMatch →
  ∃ i j b s, selected m ticker i j b s.
Proof.
  intros Hr. apply for_buys_stops in Hr.
  destruct Hr as (i & j & b & s & ?). by exists i, j, b, s.
Qed.

Lemma iteration_NoMatch m ticker :
  match_iteration m ticker = NoMatch →
  ∀ b s, b ∈ buys m → s ∈ sells m → skips (book m) ticker b s = true.
Proof. unfold match_iteration. by rewrite for_buys_NoMatch. Qed.

(** *** Removal from a deque *)

Lemma deque_remove_at (l : list order) i x :
  l !! i = Some x →
  (∀ i' y, i' < i → l !! i' = Some y → y ≠ x) →
  deque_remove x l = Some (delete i l).
Proof.
  revert i. induction l as [|y l IH]; intros i Hi Hfirst; [done|].
  destruct i as [|i]; simpl in *.
  - simplify_eq. by rewrite decide_True.
  - rewrite decide_False; [|by apply (Hfirst 0 y); [lia|]].
    rewrite (IH i Hi); [done|].
    intros i' z Hlt Hz. apply (Hfirst (S i') z); [lia|done].
Qed.

Lemma deque_remove_length (l l' : list order) x :
  deque_remove x l = Some l' → length l = S (length l').
Proof.
  revert l'. induction l as [|y l IH]; intros l'; simpl; [done|].
  case_decide.
  - by intros [= ->].
  - destruct (deque_remove x l) as [l0|]; simpl; [|done].
    intros [= <-]. simpl. f_equal. by apply IH.
Qed.

Lemma delete_insert_same (l : list order) i x :
  delete i (<[i := x]> l) = delete i l.
Proof.
  revert i. induction l as [|y l IH]; intros [|i]; simpl; try done.
  by rewrite IH.
Qed.

Lemma set_quantity_id o : set_quantity o (quantity o) = o.
Proof. by destruct o. Qed.

Lemma skips_set_quantity self ticker b s qb qs :
  skips self ticker (set_quantity b qb) (set_quantity s qs)
  = skips self ticker b s.
Proof. reflexivity. Qed.

(** No earlier buy order equals the selected one, whatever its quantity:
    it would have been selected. *)
Lemma selected_buy_first m ticker i j b s q :
  selected m ticker i j b s →
  ∀ i' y, i' < i → buys m !! i' = Some y → y ≠ set_quantity b q.
Proof.
  intros (Hi & Hj & Hs & Hrows & Hrow) i' y Hlt Hy ->.
  assert (skips (book m) ticker (set_quantity b q) s = true) as Hs'.
  { apply (Hrows i'); [done..|]. by eapply list_elem_of_lookup_2. }
  rewrite <- (set_quantity_id s), skips_set_quantity in Hs'. congruence.
Qed.

Lemma selected_sell_first m ticker i j b s q :
  selected m ticker i j b s →
  ∀ j' y, j' < j → sells m !! j' = Some y → y ≠ set_quantity s q.
Proof.
  intros (Hi & Hj & Hs & Hrows & Hrow) j' y Hlt Hy ->.
  assert (skips (book m) ticker b (set_quantity s q) = true) as Hs'.
  { by apply (Hrow j'). }
  rewrite <- (set_quantity_id b), skips_set_quantity in Hs'. congruence.
Qed.

(** [if o.quantity == 0: orders.remove(o)] after the in-place update of
    the order at index [i]. *)
Lemma remove_filled_at (l : list order) i o o' :
  l !! i = Some o →
  (∀ i' y, i' < i → l !! i' = Some y → y ≠ o') →
  remove_filled o' (<[i := o']> l)
  = Some (if (quantity o' =? 0)%Z then delete i l else <[i := o']> l).
Proof.
  intros Hi Hfirst. unfold remove_filled.
  destruct (quantity o' =? 0)%Z; [|done].
  rewrite (deque_remove_at _ i).
  - by rewrite delete_insert_same.
  - apply list_lookup_insert_eq. by eapply lookup_lt_Some.
  - intros i' y Hlt. rewrite list_lookup_insert_ne; [|lia]. by apply Hfirst.
Qed.

(** *** Settlement of the selected pair *)

Lemma settle_reject m ticker i j b s p :
  selected m ticker i j b s →
  (balance (get_account (accounts m) (account_id b))
   < Z.min (quantity b) (quantity s) * p)%Z →
  settle m ticker i j b s (Some p)
  = Matched {| buys := delete i (buys m); sells := sells m;
               book := book m; accounts := accounts m |}.
Proof.
  intros Hsel Hlt. unfold settle.
  rewrite (proj2 (Z.leb_gt _ _) Hlt).
  rewrite (deque_remove_at _ i); [done|apply Hsel|].
  rewrite <- (set_quantity_id b). by eapply selected_buy_first.
Qed.

Lemma settle_trade m ticker i j b s p :
  selected m ticker i j b s →
  (Z.min (quantity b) (quantity s) * p
   ≤ balance (get_account (accounts m) (account_id b)))%Z →
  let e := Z.min (quantity b) (quantity s) in
  let b' := set_quantity b (quantity b - e) in
  let s' := set_quantity s (quantity s - e) in
  ∃ am',
    settle m ticker i j b s (Some p)
    = Matched
        {| buys := if (quantity b' =? 0)%Z then delete i (buys m)
                   else <[i := b']> (buys m);
           sells := if (quantity s' =? 0)%Z then delete j (sells m)
                    else <[j := s']> (sells m);
           book := save_executed_trade
                     (set_last_trade_price (book m) ticker p)
                     {| tr_ticker := ticker; tr_price := p;
                        tr_quantity := e;
                        buy_account_id := account_id b;
                        sell_account_id := account_id s |};
           accounts := am' |}.
Proof.
  intros Hsel Hle e b' s'. unfold settle.
  rewrite (proj2 (Z.leb_le _ _) Hle).
  rewrite (remove_filled_at (buys m) i b); [|apply Hsel|by eapply selected_buy_first].
  rewrite (remove_filled_at (sells m) j s); [|apply Hsel|by eapply selected_sell_first].
  eexists. reflexivity.
Qed.

(** *** Execution price *)

Lemma is_limit_not_market o : is_limit o = true → is_market o = false.
Proof.
  unfold is_limit, is_market. intros Hl%String.eqb_eq. by rewrite Hl.
Qed.

Lemma settle_book m ticker i j b s p m' :
  settle m ticker i j b s (Some p) = Matched m' →
  book m' = book m ∨
  book m' = save_executed_trade
              (set_last_trade_price (book m) ticker p)
              {| tr_ticker := ticker; tr_price := p;
                 tr_quantity := Z.min (quantity b) (quantity s);
                 buy_account_id := account_id b;
                 sell_account_id := account_id s |}.
Proof.
  unfold settle. case_match.
  - repeat case_match; try done; intros [= <-]; by right.
  - case_match; [|done]. intros [= <-]. by left.
Qed.

(** C1: for a pair of orders of two accounts, the inner loop body
    settles at the price the order types give: market/market at the last
    trade price of the ticker, passing over the pair when none is
    recorded; market buy/limit sell at the sell price; limit buy/market
    sell at the buy price; limit/limit at the sell price when the buy
    price is at least the sell price, passing over the pair otherwise.
    A settlement that records a trade records it, and the last trade
    price, at that price. *)
Theorem execution_price_by_order_types m ticker i j b s :
  account_id b ≠ account_id s →
  (is_market b = true → is_market s = true →
     pair_body m ticker i j b s
     = match last_trade_price (book m) !! ticker with
       | Some p => settle m ticker i j b s (Some p)
       | None => NoMatch
       end) ∧
  (is_market b = true → is_limit s = true →
     pair_body m ticker i j b s = settle m ticker i j b s (price s)) ∧
  (is_limit b = true → is_market s = true →
     pair_body m ticker i j b s = settle m ticker i j b s (price b)) ∧
  (is_limit b = true → is_limit s = true →
     ∀ pb ps, price b = Some pb → price s = Some ps →
     pair_body m ticker i j b s
     = if (ps <=? pb)%Z then settle m ticker i j b s (Some ps)
       else NoMatch) ∧
  (∀ p m', settle m ticker i j b s (Some p) = Matched m' →
     book m' = book m ∨
     (last_trade_price (book m') !! ticker = Some p ∧
      ∃ t, executed_trades_file (book m')
           = Some (trades_of (book m) ++ [t]) ∧ tr_price t = p)).
Proof.
  intros Hne. apply Z.eqb_neq in Hne.
  unfold pair_body, execution_price. rewrite Hne. split_and!.
  - intros -> ->. cbn [andb].
    by destruct (last_trade_price (book m) !! ticker).
  - intros Hb Hs. rewrite Hb, Hs, (is_limit_not_market s Hs). done.
  - intros Hb Hs. rewrite Hb, Hs, (is_limit_not_market b Hb). done.
  - intros Hb Hs pb ps Hpb Hps.
    rewrite Hb, Hs, (is_limit_not_market b Hb), (is_limit_not_market s Hs),
      Hpb, Hps. cbn [andb].
    by destruct (ps <=? pb)%Z.
  - intros p m' [->| ->]%settle_book; [by left|right]. split.
    + simpl. apply lookup_insert_eq.
    + eexists. split; [reflexivity|done].
Qed.

(** *** Rejected and executed settlements *)


Lemma selected_pair_body m ticker i j b s p :
  selected m ticker i j b s →
  execution_price (book m) ticker b s = Exec p →
  match_iteration m ticker = settle m ticker i j b s p.
Proof.
  intros Hsel Hp. rewrite (selected_iteration m ticker i j b s Hsel).
  destruct Hsel as (_ & _ & Hs & _). unfold skips in Hs.
  apply orb_false_elim in Hs as [Hacc _].
  unfold pair_body. by rewrite Hacc, Hp.
Qed.


(** C5: a trade on the selected pair executes the minimum of the two
    quantities, takes it off both orders, and drops from its deque
    exactly the order, or the orders, left with quantity zero. *)
Theorem trade_quantities m ticker i j b s p :
  selected m ticker i j b s →
  execution_price (book m) ticker b s = Exec (Some p) →
  (Z.min (quantity b) (quantity s) * p
   ≤ balance (get_account (accounts m) (account_id b)))%Z →
  let e := Z.min (quantity b) (quantity s) in
  let b' := set_quantity b (quantity b - e) in
  let s' := set_quantity s (quantity s - e) in
  ∃ m',
    match_iteration m ticker = Matched m' ∧
    executed_trades_file (book m')
    = Some (trades_of (book m) ++
            [{| tr_ticker := ticker; tr_price := p; tr_quantity := e;
                buy_account_id := account_id b;
                sell_account_id := account_id s |}]) ∧
    (quantity b' + quantity s' = quantity b + quantity s - 2 * e)%Z ∧
    buys m' = (if decide (quantity b' = 0%Z) then delete i (buys m)
               else <[i := b']> (buys m)) ∧
    sells m' = (if decide (quantity s' = 0%Z) then delete j (sells m)
                else <[j := s']> (sells m)).
Proof.
  intros Hsel Hp Hle e b' s'.
  destruct (settle_trade m ticker i j b s p Hsel Hle) as (am' & Hst).
  eexists. split.
  { rewrite (selected_pair_body m ticker i j b s _ Hsel Hp). exact Hst. }
  simpl. split_and!.
  - done.
  - lia.
  - fold e. case_decide as Hq.
    + by rewrite (proj2 (Z.eqb_eq _ _) Hq).
    + by rewrite (proj2 (Z.eqb_neq _ _) Hq).
  - fold e. case_decide as Hq.
    + by rewrite (proj2 (Z.eqb_eq _ _) Hq).
    + by rewrite (proj2 (Z.eqb_neq _ _) Hq).
Qed.

(** *** The matching loop *)

Lemma iteration_Matched m ticker m' :
  match_iteration m ticker = Matched m' →
  ∃ i j b s p,
    selected m ticker i j b s ∧ account_id b ≠ account_id s ∧
    execution_price (book m) ticker b s = Exec (Some p) ∧
    settle m ticker i j b s (Some p) = Matched m'.
Proof.
  intros Hit.
  destruct (iteration_selects m ticker) as (i & j & b & s & Hsel);
    [by rewrite Hit|].
  exists i, j, b, s.
  rewrite (selected_iteration _ _ _ _ _ _ Hsel) in Hit.
  unfold pair_body in Hit.
  destruct (account_id b =? account_id s)%Z eqn:Hacc; [done|].
  apply Z.eqb_neq in Hacc.
  destruct (execution_price (book m) ticker b s) as [|[p|]|] eqn:Hp;
    try done.
  by exists p.
Qed.

Lemma remove_filled_length o (l l' : list order) :
  remove_filled o l = Some l' →
  (quantity o = 0%Z ∧ length l = S (length l')) ∨
  (quantity o ≠ 0%Z ∧ l' = l).
Proof.
  unfold remove_filled. destruct (quantity o =? 0)%Z eqn:Hq.
  - intros Hr%deque_remove_length. left. split; [lia|done].
  - intros [= ->]. right. split; [lia|done].
Qed.

Lemma settle_length m ticker i j b s p m' :
  settle m ticker i j b s p = Matched m' →
  length (buys m') + length (sells m') < length (buys m) + length (sells m).
Proof.
  unfold settle. destruct p as [p|]; [|done]. case_match.
  - destruct (remove_filled _ (<[i:=_]> (buys m))) as [buys2|] eqn:Hb;
      [|done].
    destruct (remove_filled _ (<[j:=_]> (sells m))) as [sells2|] eqn:Hs;
      [|done].
    intros [= <-]. simpl.
    apply remove_filled_length in Hb, Hs.
    rewrite !length_insert in Hb, Hs. simpl in Hb, Hs.
    destruct Hb as [[Hqb Hb]|[Hqb ->]], Hs as [[Hqs Hs]|[Hqs ->]];
      rewrite ?length_insert; lia.
  - destruct (deque_remove b (buys m)) as [buys'|] eqn:Hb; [|done].
    intros [= <-]. simpl. apply deque_remove_length in Hb. lia.
Qed.

Lemma iteration_length m ticker m' :
  match_iteration m ticker = Matched m' →
  length (buys m') + length (sells m') < length (buys m) + length (sells m).
Proof.
  intros (i & j & b & s & p & _ & _ & _ & Hst)%iteration_Matched.
  by eapply settle_length.
Qed.

(** The fuel [match_orders] gives the loop is never used up. *)
Lemma match_loop_terminates fuel ticker m :
  length (buys m) + length (sells m) < fuel →
  match_loop fuel ticker m ≠ OutOfFuel.
Proof.
  revert m. induction fuel as [|fuel IH]; intros m Hlt; [lia|].
  simpl. destruct (loop_condition m); [|done].
  destruct (match_iteration m ticker) as [|m'|e] eqn:Hit; [done| |done].
  apply IH. apply iteration_length in Hit. lia.
Qed.

(** Past that bound, the fuel does not show in the result. *)
Lemma match_loop_fuel fuel fuel' ticker m :
  length (buys m) + length (sells m) < fuel →
  length (buys m) + length (sells m) < fuel' →
  match_loop fuel ticker m = match_loop fuel' ticker m.
Proof.
  revert fuel' m. induction fuel as [|fuel IH]; intros fuel' m Hlt Hlt';
    [lia|].
  destruct fuel' as [|fuel']; [lia|]. simpl.
  destruct (loop_condition m); [|done].
  destruct (match_iteration m ticker) as [|m'|e] eqn:Hit; [done| |done].
  apply iteration_length in Hit. apply IH; lia.
Qed.

Lemma match_loop_Done fuel ticker m m' :
  match_loop fuel ticker m = Done m' →
  loop_condition m' = false ∨ match_iteration m' ticker = NoMatch.
Proof.
  revert m. induction fuel as [|fuel IH]; intros m; [done|].
  simpl. destruct (loop_condition m) eqn:Hc.
  - destruct (match_iteration m ticker) as [|m1|e] eqn:Hit.
    + intros [= <-]. by right.
    + apply IH.
    + done.
  - intros [= <-]. by left.
Qed.

Lemma match_orders_returns self ticker am :
  match_orders self ticker am ≠ Diverged.
Proof.
  unfold match_orders.
  set (m0 := initial_state self ticker am).
  destruct (match_loop _ ticker m0) eqn:E; [done..|].
  exfalso. eapply match_loop_terminates; [|exact E]. simpl. lia.
Qed.

(** *** Trade records *)

Lemma extends_refl self : extends self self.
Proof. exists []. by rewrite app_nil_r. Qed.

Lemma extends_trans self1 self2 self3 :
  extends self1 self2 → extends self2 self3 → extends self1 self3.
Proof.
  intros (n1 & E1 & F1) (n2 & E2 & F2). exists (n1 ++ n2). split.
  - by rewrite E2, E1, app_assoc.
  - by apply Forall_app.
Qed.

Lemma iteration_extends m ticker m' :
  match_iteration m ticker = Matched m' → extends (book m) (book m').
Proof.
  intros (i & j & b & s & p & _ & Hne & _ & Hst)%iteration_Matched.
  apply settle_book in Hst as [-> | ->]; [apply extends_refl|].
  eexists [_]. split; [reflexivity|]. by apply Forall_singleton.
Qed.

Lemma match_loop_extends fuel ticker m :
  match match_loop fuel ticker m with
  | Done m' | Failed _ m' => extends (book m) (book m')
  | OutOfFuel => True
  end.
Proof.
  revert m. induction fuel as [|fuel IH]; intros m; [done|].
  simpl. destruct (loop_condition m); [|apply extends_refl].
  destruct (match_iteration m ticker) as [|m1|e] eqn:Hit;
    [apply extends_refl| |apply extends_refl].
  apply iteration_extends in Hit. specialize (IH m1).
  destruct (match_loop fuel ticker m1); [| |done];
    by eapply extends_trans.
Qed.

Lemma match_orders_extends self ticker am :
  match match_orders self ticker am with
  | Returned self' _ => extends self self'
  | Thrown _ m' => extends self (book m')
  | Diverged => False
  end.
Proof.
  pose proof (match_orders_returns self ticker am) as Hret.
  unfold match_orders in *.
  set (m0 := initial_state self ticker am) in *.
  match goal with
  | |- context [match_loop ?f ticker m0] =>
      pose proof (match_loop_extends f ticker m0) as He;
      destruct (match_loop f ticker m0); [| |done]; exact He
  end.
Qed.

Lemma add_order_trades self o am :
  trades_of (add_order self o am).2 = trades_of self.
Proof.
  unfold add_order. repeat case_match; done.
Qed.

(** C3: whatever calls of [add_order] and [match_orders] a driver makes,
    and from whatever book, the run ends (by a return or an exception)
    with the log it started from followed by the new trade records, and
    no new record has the same account on both sides. *)
Theorem no_self_trade (cs : list call) self am :
  ∃ new,
    outcome_trades (run_calls cs self am) = Some (trades_of self ++ new) ∧
    Forall (λ t, buy_account_id t ≠ sell_account_id t) new.
Proof.
  revert self am. induction cs as [|c cs IH]; intros self am.
  - exists []. by rewrite app_nil_r.
  - destruct c as [o|ticker]; simpl.
    + pose proof (add_order_trades self o am) as Ht.
      destruct (add_order self o am) as [[ok msg] self']. simpl in Ht.
      destruct (IH self' am) as (new & Hnew & Hall).
      exists new. by rewrite Hnew, Ht.
    + pose proof (match_orders_extends self ticker am) as He.
      destruct (match_orders self ticker am) as [self' am'|e m'|];
        [| |done].
      * destruct He as (n1 & E1 & F1).
        destruct (IH self' am') as (n2 & E2 & F2).
        exists (n1 ++ n2). split.
        -- by rewrite E2, E1, app_assoc.
        -- by apply Forall_app.
      * destruct He as (n1 & E1 & F1). exists n1. simpl. by rewrite E1.
Qed.

(** *** No crossing limit orders are left *)

Lemma match_orders_Returned self ticker am self' am' :
  match_orders self ticker am = Returned self' am' →
  ∃ m, resting_buys self' ticker = buys m ∧
       resting_sells self' ticker = sells m ∧
       last_trade_price self' = last_trade_price (book m) ∧
       (loop_condition m = false ∨ match_iteration m ticker = NoMatch).
Proof.
  unfold match_orders.
  set (m0 := initial_state self ticker am).
  destruct (match_loop _ ticker m0) as [m| |] eqn:E; [|done..].
  intros [= <- <-]. exists m. unfold resting_buys, resting_sells. simpl.
  rewrite !lookup_insert_eq. split_and!; [done..|].
  by eapply match_loop_Done.
Qed.

(** C2, between two accounts: after [match_orders] has returned, a
    resting buy limit order and a resting sell limit order of the ticker
    that belong to two different accounts do not cross: the buy price is
    below the sell price. *)
Theorem no_crossing_after_match self ticker am self' am' :
  match_orders self ticker am = Returned self' am' →
  ∀ b s pb ps,
    b ∈ resting_buys self' ticker → s ∈ resting_sells self' ticker →
    account_id b ≠ account_id s →
    is_limit b = true → is_limit s = true →
    price b = Some pb → price s = Some ps →
    (pb < ps)%Z.
Proof.
  intros (m & -> & -> & _ & Hend)%match_orders_Returned
         b s pb ps Hb Hs Hne Hlb Hls Hpb Hps.
  destruct Hend as [Hc|Hit].
  - unfold loop_condition in Hc.
    destruct (buys m); [by apply elem_of_nil in Hb|].
    destruct (sells m); [by apply elem_of_nil in Hs|]. done.
  - pose proof (iteration_NoMatch m ticker Hit b s Hb Hs) as Hsk.
    unfold skips in Hsk. apply Z.eqb_neq in Hne. rewrite Hne in Hsk.
    unfold execution_price in Hsk.
    rewrite Hlb, Hls, (is_limit_not_market b Hlb),
      (is_limit_not_market s Hls), Hpb, Hps in Hsk.
    simpl in Hsk. destruct (ps <=? pb)%Z eqn:Hle; [done|]. lia.
Qed.

(** *** Sorting keeps the orders *)

Lemma insert_by_Permutation key x (l : list order) :
  insert_by key x l ≡ₚ x :: l.
Proof.
  induction l as [|y l IH]; simpl; [done|].
  destruct (key_lt (key y) (key x)); [|done].
  rewrite IH. apply Permutation_swap.
Qed.

Lemma sorted_Permutation key (l : list order) : sorted key l ≡ₚ l.
Proof.
  induction l as [|x l IH]; simpl; [done|].
  by rewrite insert_by_Permutation, IH.
Qed.

Lemma sorted_Forall (P : order → Prop) key (l : list order) :
  Forall P l → Forall P (sorted key l).
Proof. intros Hl. by rewrite sorted_Permutation. Qed.

(** *** Termination *)

Lemma total_quantity_delete (l : list order) i o :
  l !! i = Some o →
  total_quantity (delete i l) = (total_quantity l - quantity o)%Z.
Proof.
  revert i. induction l as [|x l IH]; intros [|i] Hi; simpl in *;
    simplify_eq; [lia|].
  rewrite (IH i Hi). lia.
Qed.

Lemma total_quantity_insert (l : list order) i o o' :
  l !! i = Some o →
  total_quantity (<[i := o']> l)
  = (total_quantity l - quantity o + quantity o')%Z.
Proof.
  revert i. induction l as [|x l IH]; intros [|i] Hi; simpl in *;
    simplify_eq; [lia|].
  rewrite (IH i Hi). lia.
Qed.

Lemma priced_set_quantity o q : priced o → priced (set_quantity o q).
Proof. done. Qed.

(** A selected pair of priced orders has an execution price. *)
Lemma selected_priced m ticker i j b s :
  selected m ticker i j b s → priced b → priced s →
  ∃ p, execution_price (book m) ticker b s = Exec (Some p).
Proof.
  intros (_ & _ & Hsk & _) Hb Hs. unfold skips in Hsk.
  apply orb_false_elim in Hsk as [_ Hsk].
  unfold execution_price in *. unfold priced in *.
  destruct (is_market b), (is_market s), (is_limit b), (is_limit s);
    simpl in *;
    repeat match goal with
           | Hp : true = true → is_Some _ |- _ =>
               let E := fresh "E" in
               destruct (Hp eq_refl) as [? E]; clear Hp; rewrite E in *
           | Hp : false = true → _ |- _ => clear Hp
           end;
    try done; eauto;
    try (destruct (last_trade_price (book m) !! ticker); by eauto);
    try (match goal with
         | |- context [(?x <=? ?y)%Z] => destruct (x <=? y)%Z
         end; by eauto).
Qed.

(** C8: [match_orders] returns or raises on every book, never running on
    for ever: the loop ends within as many iterations as there are resting
    orders, whatever fuel beyond that the model gives it.  On a book whose
    resting orders have positive quantities and priced limit orders, the
    loop starts from orders that are so, and an iteration of the loop
    either leaves the loop (a side is empty, or no pair can be matched) or
    goes on with fewer resting orders: a rejected buy order is gone, or a
    trade has taken a positive quantity off both orders, so off the total,
    and removed the order with the smaller quantity; what remains is again
    positive and priced. *)
Theorem match_orders_terminates self ticker am :
  match_orders self ticker am ≠ Diverged ∧
  (∀ fuel fuel' m,
     length (buys m) + length (sells m) < fuel →
     length (buys m) + length (sells m) < fuel' →
     match_loop fuel ticker m ≠ OutOfFuel ∧
     match_loop fuel ticker m = match_loop fuel' ticker m) ∧
  (Forall positive (resting_buys self ticker) →
   Forall positive (resting_sells self ticker) →
   Forall priced (resting_buys self ticker) →
   Forall priced (resting_sells self ticker) →
   let m0 := initial_state self ticker am in
   Forall positive (buys m0) ∧ Forall positive (sells m0) ∧
   Forall priced (buys m0) ∧ Forall priced (sells m0)) ∧
  (∀ m,
     Forall positive (buys m) → Forall positive (sells m) →
     Forall priced (buys m) → Forall priced (sells m) →
     loop_condition m = false ∨ match_iteration m ticker = NoMatch ∨
     ∃ m', match_iteration m ticker = Matched m' ∧
       length (buys m') + length (sells m')
         < length (buys m) + length (sells m) ∧
       Forall positive (buys m') ∧ Forall positive (sells m') ∧
       Forall priced (buys m') ∧ Forall priced (sells m') ∧
       ∃ i j b s, selected m ticker i j b s ∧
         ((buys m' = delete i (buys m) ∧ sells m' = sells m) ∨
          ((total_quantity (buys m') + total_quantity (sells m')
            < total_quantity (buys m) + total_quantity (sells m))%Z ∧
           ((quantity b ≤ quantity s)%Z → buys m' = delete i (buys m)) ∧
           ((quantity s ≤ quantity b)%Z →
            sells m' = delete j (sells m))))).
Proof.
  split_and!.
  - apply match_orders_returns.
  - intros fuel fuel' m Hlt Hlt'. split.
    + by apply match_loop_terminates.
    + by apply match_loop_fuel.
  - intros Hqb Hqs Hpb Hps. simpl. split_and!; by apply sorted_Forall.
  - intros m Hqb Hqs Hpb Hps.
    destruct (match_iteration m ticker) as [|m'|e] eqn:Hit.
    + by right; left.
    + right; right. exists m'. split; [done|].
      split; [by eapply iteration_length|].
      destruct (iteration_selects m ticker) as (i & j & b & s & Hsel);
        [by rewrite Hit|].
      pose proof Hsel as (Hi & Hj & _).
      assert (positive b ∧ priced b) as [Hb Hb'].
      { split; [eapply (Forall_lookup_1 _ _ _ _ Hqb Hi)
               |eapply (Forall_lookup_1 _ _ _ _ Hpb Hi)]. }
      assert (positive s ∧ priced s) as [Hs Hs'].
      { split; [eapply (Forall_lookup_1 _ _ _ _ Hqs Hj)
               |eapply (Forall_lookup_1 _ _ _ _ Hps Hj)]. }
      destruct (selected_priced m ticker i j b s Hsel Hb' Hs') as [p Hp].
      rewrite (selected_pair_body m ticker i j b s _ Hsel Hp) in Hit.
      unfold positive in Hb, Hs.
      destruct (Z_lt_le_dec
                  (balance (get_account (accounts m) (account_id b)))
                  (Z.min (quantity b) (quantity s) * p)) as [Hlt|Hle].
      * rewrite (settle_reject m ticker i j b s p Hsel Hlt) in Hit.
        injection Hit as <-. simpl. split_and!; try done.
        { by apply Forall_delete. }
        { by apply Forall_delete. }
        exists i, j, b, s. split; [done|]. by left.
      * destruct (settle_trade m ticker i j b s p Hsel Hle) as (am' & Hst).
        rewrite Hst in Hit. injection Hit as <-. simpl.
        set (e := Z.min (quantity b) (quantity s)) in *.
        assert (0 < e)%Z as He by (unfold e; lia).
        split_and!.
        { destruct (quantity b - e =? 0)%Z eqn:Hq;
            [by apply Forall_delete|].
          apply Forall_insert; [done|]. unfold positive. simpl.
          unfold e in *. lia. }
        { destruct (quantity s - e =? 0)%Z eqn:Hq;
            [by apply Forall_delete|].
          apply Forall_insert; [done|]. unfold positive. simpl.
          unfold e in *. lia. }
        { destruct (quantity b - e =? 0)%Z;
            [by apply Forall_delete|by apply Forall_insert]. }
        { destruct (quantity s - e =? 0)%Z;
            [by apply Forall_delete|by apply Forall_insert]. }
        exists i, j, b, s. split; [done|]. right. split_and!.
        { assert (total_quantity
                    (if (quantity b - e =? 0)%Z then delete i (buys m)
                     else <[i:=set_quantity b (quantity b - e)]> (buys m))
                  = (total_quantity (buys m) - e)%Z) as ->.
          { destruct (quantity b - e =? 0)%Z eqn:Hq.
            - rewrite (total_quantity_delete _ _ _ Hi). lia.
            - rewrite (total_quantity_insert _ _ _ _ Hi). simpl. lia. }
          assert (total_quantity
                    (if (quantity s - e =? 0)%Z then delete j (sells m)
                     else <[j:=set_quantity s (quantity s - e)]> (sells m))
                  = (total_quantity (sells m) - e)%Z) as ->.
          { destruct (quantity s - e =? 0)%Z eqn:Hq.
            - rewrite (total_quantity_delete _ _ _ Hj). lia.
            - rewrite (total_quantity_insert _ _ _ _ Hj). simpl. lia. }
          lia. }
        { intros Hbs. assert (quantity b - e = 0)%Z as Hq
            by (unfold e; lia).
          by rewrite (proj2 (Z.eqb_eq _ _) Hq). }
        { intros Hbs. assert (quantity s - e = 0)%Z as Hq
            by (unfold e; lia).
          by rewrite (proj2 (Z.eqb_eq _ _) Hq). }
    + exfalso.
      destruct (iteration_selects m ticker) as (i & j & b & s & Hsel);
        [by rewrite Hit|].
      pose proof Hsel as (Hi & Hj & _).
      pose proof (Forall_lookup_1 _ _ _ _ Hpb Hi) as Hb'.
      pose proof (Forall_lookup_1 _ _ _ _ Hps Hj) as Hs'.
      destruct (selected_priced m ticker i j b s Hsel Hb' Hs') as [p Hp].
      rewrite (selected_pair_body m ticker i j b s _ Hsel Hp) in Hit.
      destruct (Z_lt_le_dec
                  (balance (get_account (accounts m) (account_id b)))
                  (Z.min (quantity b) (quantity s) * p)) as [Hlt|Hle].
      * by rewrite (settle_reject m ticker i j b s p Hsel Hlt) in Hit.
      * destruct (settle_trade m ticker i j b s p Hsel Hle) as (am' & Hst).
        by rewrite Hst in Hit.
Qed.

(** *** Order admission *)

Lemma is_market_true o : is_market o = true ↔ order_type o = "market".
Proof. apply String.eqb_eq. Qed.

Lemma is_limit_true o : is_limit o = true ↔ order_type o = "limit".
Proof. apply String.eqb_eq. Qed.

Lemma is_market_false o : is_market o = false ↔ order_type o ≠ "market".
Proof. apply String.eqb_neq. Qed.

Lemma is_limit_false o : is_limit o = false ↔ order_type o ≠ "limit".
Proof. apply String.eqb_neq. Qed.

Lemma refused_refusable o acct :
  refused o acct = true ↔ refusable o acct.
Proof.
  unfold refused, refusable.
  rewrite !orb_true_iff, !andb_true_iff, negb_true_iff, orb_false_iff.
  rewrite Z.leb_le, Z.ltb_lt, is_market_false, is_limit_false,
    is_limit_true, String.eqb_eq.
  assert (match price o with
          | Some p => (p <=? 0)%Z
          | None => true
          end = true
          ↔ price o = None ∨ ∃ p, price o = Some p ∧ (p ≤ 0)%Z) as ->.
  { destruct (price o) as [p|].
    - rewrite Z.leb_le. split; [by eauto|].
      by intros [?|(q & [= <-] & ?)].
    - split; [by left|done]. }
  tauto.
Qed.

Lemma add_order_refused self o am :
  refused o (get_account am (account_id o)) = true →
  (add_order self o am).1.1 = false ∧ (add_order self o am).2 = self.
Proof.
  unfold refused, add_order.
  destruct (quantity o <=? 0)%Z; [done|].
  destruct (negb (is_market o || is_limit o)); [done|].
  destruct (is_limit o && _); [done|].
  destruct (String.eqb (action o) "sell" && _); done.
Qed.

Lemma add_order_accepted self o am :
  refused o (get_account am (account_id o)) = false →
  add_order self o am
  = (true, MsgAdded,
     save_unmatched_orders
       (if String.eqb (action o) "buy" then
          set_orders self
            (<[ticker o := resting_buys self (ticker o) ++ [o]]>
               (buy_orders self))
            (sell_orders self)
        else if String.eqb (action o) "sell" then
          set_orders self
            (buy_orders self)
            (<[ticker o := resting_sells self (ticker o) ++ [o]]>
               (sell_orders self))
        else self)).
Proof.
  unfold refused, add_order.
  destruct (quantity o <=? 0)%Z; [done|].
  destruct (negb (is_market o || is_limit o)); [done|].
  destruct (is_limit o && _); [done|].
  destruct (String.eqb (action o) "sell" && _); done.
Qed.

(** C6: [add_order] fails, and leaves the book object as it was, exactly
    when the quantity is not positive, or the order type is neither
    market nor limit, or a limit order has no price or a price that is
    not positive, or a sell order asks for more than the account's
    position in the ticker; otherwise it succeeds, leaves the last trade
    prices alone, and a buy (sell) order is the new last item of the
    buy (sell) orders of its ticker, nothing else changing on either
    side. *)
Theorem add_order_validation self o am :
  let r := add_order self o am in
  (r.1.1 = false ↔ refusable o (get_account am (account_id o))) ∧
  (r.1.1 = false → r.2 = self) ∧
  (r.1.1 = true →
   r.1.2 = MsgAdded ∧
   last_trade_price r.2 = last_trade_price self ∧
   (action o = "buy" →
    buy_orders r.2
    = <[ticker o := resting_buys self (ticker o) ++ [o]]> (buy_orders self)
    ∧ sell_orders r.2 = sell_orders self) ∧
   (action o = "sell" →
    sell_orders r.2
    = <[ticker o := resting_sells self (ticker o) ++ [o]]>
        (sell_orders self)
    ∧ buy_orders r.2 = buy_orders self)).
Proof.
  intros r. subst r.
  destruct (refused o (get_account am (account_id o))) eqn:Hr.
  - destruct (add_order_refused self o am Hr) as [Hok Hself].
    rewrite Hok, Hself. split_and!; [|done..].
    split; [|done]. intros _. by apply refused_refusable.
  - rewrite (add_order_accepted self o am Hr). simpl. split_and!.
    + split; [done|]. intros Hrf%refused_refusable. congruence.
    + done.
    + intros _. split_and!.
      * done.
      * by repeat case_match.
      * intros ->. done.
      * intros ->. done.
Qed.

(** C10: an order that passes the quantity, type and price tests but
    whose action is neither buy nor sell is reported as added, with the
    success result, and joins neither side: the buy and the sell orders
    of every ticker are what they were. *)
Theorem add_order_unknown_action self o am :
  (0 < quantity o)%Z →
  (order_type o = "market" ∨
   (order_type o = "limit" ∧ ∃ p, price o = Some p ∧ (0 < p)%Z)) →
  action o ≠ "buy" → action o ≠ "sell" →
  add_order self o am = (true, MsgAdded, save_unmatched_orders self) ∧
  buy_orders (add_order self o am).2 = buy_orders self ∧
  sell_orders (add_order self o am).2 = sell_orders self.
Proof.
  intros Hq Hty Hb%String.eqb_neq Hs%String.eqb_neq.
  assert (refused o (get_account am (account_id o)) = false) as Hr.
  { destruct (refused o _) eqn:Hr; [|done].
    apply refused_refusable in Hr.
    destruct Hr as [?|[[??]|[[Hl Hp]|[Ha _]]]].
    - lia.
    - destruct Hty as [?|[? _]]; congruence.
    - destruct Hty as [?|[_ (p & Hp' & ?)]]; [congruence|].
      destruct Hp as [?|(q & ? & ?)]; [congruence|].
      assert (p = q) by congruence. lia.
    - apply String.eqb_neq in Hs. congruence. }
  rewrite (add_order_accepted self o am Hr), Hb, Hs. done.
Qed.
End MatchingFacts.

(** ** The price oracle *)

Lemma py_min_from_Some c (zs : list Z) :
  py_min_from (Some c) (Some <$> zs) = Ok (Some (foldl Z.min c zs)).
Proof.
  revert c. induction zs as [|z zs IH]; intros c; [done|].
  simpl. destruct (z <? c)%Z eqn:Hlt; rewrite IH; do 3 f_equal; lia.
Qed.

Lemma py_max_from_Some c (zs : list Z) :
  py_max_from (Some c) (Some <$> zs) = Ok (Some (foldl Z.max c zs)).
Proof.
  revert c. induction zs as [|z zs IH]; intros c; [done|].
  simpl. destruct (c <? z)%Z eqn:Hlt; rewrite IH; do 3 f_equal; lia.
Qed.

Lemma foldl_min_spec c (zs : list Z) :
  foldl Z.min c zs ∈ c :: zs ∧ ∀ q, q ∈ c :: zs → (foldl Z.min c zs ≤ q)%Z.
Proof.
  revert c. induction zs as [|z zs IH]; intros c; simpl.
  - split; [by left|]. intros q ->%list_elem_of_singleton. lia.
  - destruct (IH (Z.min c z)) as [Hin Hle]. split.
    + apply elem_of_cons in Hin as [->|Hin].
      * destruct (Z.min_spec c z) as [[_ ->]|[_ ->]];
          [by left|by right; left].
      * by right; right.
    + intros q Hq. assert (Z.min c z ≤ q ∨ q ∈ zs)%Z as [Hc|Hc].
      { apply elem_of_cons in Hq as [->|Hq]; [left; lia|].
        apply elem_of_cons in Hq as [->|Hq]; [left; lia|by right]. }
      * pose proof (Hle (Z.min c z) ltac:(by left)). lia.
      * apply Hle. by right.
Qed.

Lemma foldl_max_spec c (zs : list Z) :
  foldl Z.max c zs ∈ c :: zs ∧ ∀ q, q ∈ c :: zs → (q ≤ foldl Z.max c zs)%Z.
Proof.
  revert c. induction zs as [|z zs IH]; intros c; simpl.
  - split; [by left|]. intros q ->%list_elem_of_singleton. lia.
  - destruct (IH (Z.max c z)) as [Hin Hle]. split.
    + apply elem_of_cons in Hin as [->|Hin].
      * destruct (Z.max_spec c z) as [[_ ->]|[_ ->]];
          [by right; left|by left].
      * by right; right.
    + intros q Hq. assert (q ≤ Z.max c z ∨ q ∈ zs)%Z as [Hc|Hc].
      { apply elem_of_cons in Hq as [->|Hq]; [left; lia|].
        apply elem_of_cons in Hq as [->|Hq]; [left; lia|by right]. }
      * pose proof (Hle (Z.max c z) ltac:(by left)). lia.
      * apply Hle. by right.
Qed.

(** Orders that all carry a price: their prices as numbers. *)
Lemma prices_of_priced (lo : list order) :
  Forall (λ o, is_Some (price o)) lo →
  ∃ zs, map price lo = Some <$> zs ∧
        ∀ q, q ∈ zs ↔ ∃ o, o ∈ lo ∧ price o = Some q.
Proof.
  induction lo as [|o lo IH]; intros Hall.
  - exists []. split; [done|]. intros q. split.
    + by intros ?%elem_of_nil.
    + by intros (o & ?%elem_of_nil & _).
  - destruct (Forall_cons_1 _ _ _ Hall) as [[z Hz] Hall'].
    destruct (IH Hall') as (zs & Hmap & Hzs).
    exists (z :: zs). split; [simpl; by rewrite Hz, Hmap|].
    intros q. rewrite elem_of_cons, Hzs. split.
    + intros [->|(o' & Ho' & Hq)].
      * exists o. split; [by left|done].
      * exists o'. split; [by right|done].
    + intros (o' & [->|Ho']%elem_of_cons & Hq).
      * left. congruence.
      * right. by exists o'.
Qed.

(** C7: a buy lookup answers the least price of the resting sell limit
    orders of the ticker and a sell lookup the greatest price of its
    resting buy limit orders, when there is such an order; when there is
    none, either lookup answers the last trade price of the ticker and,
    when none is recorded, the initial price that the stock information
    gives. *)
Theorem get_best_price_spec self ticker :
  (∀ lo, lo = limit_orders (resting_sells self ticker) → lo ≠ [] →
     Forall (λ o, is_Some (price o)) lo →
     ∃ o p, get_best_price self "buy" ticker = Ok (Some p) ∧
            o ∈ lo ∧ price o = Some p ∧
            ∀ o' q, o' ∈ lo → price o' = Some q → (p ≤ q)%Z) ∧
  (∀ lo, lo = limit_orders (resting_buys self ticker) → lo ≠ [] →
     Forall (λ o, is_Some (price o)) lo →
     ∃ o p, get_best_price self "sell" ticker = Ok (Some p) ∧
            o ∈ lo ∧ price o = Some p ∧
            ∀ o' q, o' ∈ lo → price o' = Some q → (q ≤ p)%Z) ∧
  (limit_orders (resting_sells self ticker) = [] →
     get_best_price self "buy" ticker
     = Ok (Some (default (stock_info self ticker)
                         (last_trade_price self !! ticker)))) ∧
  (limit_orders (resting_buys self ticker) = [] →
     get_best_price self "sell" ticker
     = Ok (Some (default (stock_info self ticker)
                         (last_trade_price self !! ticker)))).
Proof.
  unfold get_best_price, resting_sells, resting_buys. simpl. split_and!.
  - intros lo -> Hne Hall.
    destruct (sell_orders self !! ticker) as [orders|]; simpl in *; [|done].
    destruct (prices_of_priced _ Hall) as (zs & Hmap & Hzs).
    destruct (limit_orders orders) as [|o0 lo] eqn:Hlo; [done|].
    destruct zs as [|c zs]; [done|]. simpl in *.
    injection Hmap as -> ->. rewrite py_min_from_Some.
    destruct (foldl_min_spec c zs) as [Hin Hle].
    apply Hzs in Hin as (o & Ho & Hp). exists o, (foldl Z.min c zs).
    split_and!; [done..|]. intros o' q Ho' Hq. apply Hle, Hzs. by exists o'.
  - intros lo -> Hne Hall.
    destruct (buy_orders self !! ticker) as [orders|]; simpl in *; [|done].
    destruct (prices_of_priced _ Hall) as (zs & Hmap & Hzs).
    destruct (limit_orders orders) as [|o0 lo] eqn:Hlo; [done|].
    destruct zs as [|c zs]; [done|]. simpl in *.
    injection Hmap as -> ->. rewrite py_max_from_Some.
    destruct (foldl_max_spec c zs) as [Hin Hle].
    apply Hzs in Hin as (o & Ho & Hp). exists o, (foldl Z.max c zs).
    split_and!; [done..|]. intros o' q Ho' Hq. apply Hle, Hzs. by exists o'.
  - destruct (sell_orders self !! ticker) as [orders|]; simpl; [|done].
    by intros ->.
  - destruct (buy_orders self !! ticker) as [orders|]; simpl; [|done].
    by intros ->.
Qed.

(** ** Persistence of the unmatched orders *)

Lemma digit_val_digit n : digit_val (digit n) = Some (n mod 10)%N.
Proof.
  unfold digit, digit_val.
  assert (n mod 10 < 10)%N as Hlt by (by apply N.mod_lt).
  set (r := (n mod 10)%N) in *. clearbody r.
  rewrite N_ascii_embedding by lia.
  assert ((48 <=? 48 + r) && (48 + r <=? 57) = true)%N as ->.
  { apply andb_true_iff. split; apply N.leb_le; lia. }
  f_equal. lia.
Qed.

Lemma number_snoc l c :
  number (l ++ [c])
  = (a ← number l; d ← digit_val c; Some (10 * a + d)%N).
Proof. unfold number. by rewrite fold_left_app. Qed.

Lemma number_pad w n : number (pad w n) = Some (n mod 10 ^ N.of_nat w)%N.
Proof.
  revert n. induction w as [|w IH]; intros n.
  - simpl. by rewrite N.mod_1_r.
  - cbn [pad]. rewrite number_snoc, IH, digit_val_digit. simpl. f_equal.
    rewrite Nat2N.inj_succ, N.pow_succ_r'.
    rewrite (N.Div0.mod_mul_r n 10 (10 ^ N.of_nat w)). lia.
Qed.

Lemma number_pad_small w n :
  (n < 10 ^ N.of_nat w)%N → number (pad w n) = Some n.
Proof. intros Hlt. by rewrite number_pad, N.mod_small. Qed.

Lemma parse_isoformat d :
  valid_datetime d = true → parse_datetime (isoformat_chars d) = Some d.
Proof.
  intros Hvalid. pose proof Hvalid as Hv. revert Hv.
  unfold valid_datetime at 1. rewrite !andb_true_iff.
  rewrite !N.leb_le, !N.ltb_lt.
  intros (((((((((Hy1 & Hy2) & Hm1) & Hm2) & Hd1) & Hd2) & Hh) & Hmi) & Hs) & Hus).
  assert (days_in_month (year d) (month d) ≤ 31)%N as Hdm.
  { unfold days_in_month. repeat case_match; lia. }
  pose proof (number_pad_small 4 (year d) ltac:(simpl; lia)) as Ey.
  pose proof (number_pad_small 2 (month d) ltac:(simpl; lia)) as Emo.
  pose proof (number_pad_small 2 (day d) ltac:(simpl; lia)) as Ed.
  pose proof (number_pad_small 2 (hour d) ltac:(simpl; lia)) as Eh.
  pose proof (number_pad_small 2 (minute d) ltac:(simpl; lia)) as Emi.
  pose proof (number_pad_small 2 (second d) ltac:(simpl; lia)) as Es.
  pose proof (number_pad_small 6 (microsecond d) ltac:(simpl; lia)) as Eus.
  cbn [pad app] in Ey, Emo, Ed, Eh, Emi, Es, Eus.
  unfold isoformat_chars. cbn [pad app].
  destruct d as [y mo dd h mi s us]; cbn [year month day hour minute second
    microsecond] in *.
  destruct (us =? 0)%N eqn:Hz.
  - apply N.eqb_eq in Hz. subst us.
    unfold parse_datetime, parse_time, parse_fraction.
    change (is_char "-" "-") with true. change (is_char ":" ":") with true.
    cbn [andb]. rewrite Ey, Emo, Ed, Eh, Emi, Es. cbn [mbind option_bind].
    by rewrite Hvalid.
  - unfold parse_datetime, parse_time, parse_fraction.
    change (is_char "-" "-") with true. change (is_char ":" ":") with true.
    change (is_char "." ".") with true.
    cbn [andb]. rewrite Ey, Emo, Ed, Eh, Emi, Es, Eus.
    cbn [mbind option_bind]. by rewrite Hvalid.
Qed.

Section Persistence.
Context `{DatetimeLibrary}.

Lemma fromisoformat_isoformat d :
  valid_datetime d = true → fromisoformat (isoformat d) = Ok d.
Proof.
  intros Hvalid. unfold fromisoformat, isoformat.
  by rewrite list_ascii_of_string_of_list_ascii, parse_isoformat.
Qed.

Lemma deserialize_serialize o :
  valid_datetime (timestamp o) = true →
  deserialize_order (serialize_order o) = Some o.
Proof.
  intros Hvalid. unfold deserialize_order, serialize_order. simpl.
  rewrite (fromisoformat_isoformat _ Hvalid). by destruct o.
Qed.

Lemma mapM_deserialize_serialize (l : list order) :
  Forall (λ o, valid_datetime (timestamp o) = true) l →
  mapM deserialize_order (map serialize_order l) = Some l.
Proof.
  induction 1 as [|o l Ho Hl IH]; [done|].
  simpl. rewrite (deserialize_serialize o Ho). simpl. by rewrite IH.
Qed.

Lemma load_side_serialized (m : gmap string (list order)) :
  map_Forall (λ _ l, Forall (λ o, valid_datetime (timestamp o) = true) l) m →
  load_side (map serialize_order <$> m) = Ok m.
Proof.
  intros Hm. unfold load_side.
  assert (mapM deserialize_order <$> (map serialize_order <$> m)
          = Some <$> m) as ->.
  { apply map_eq. intros k. rewrite !lookup_fmap.
    destruct (m !! k) as [l|] eqn:Hk; [|done]. simpl.
    by rewrite (mapM_deserialize_serialize l (Hm k l Hk)). }
  rewrite decide_True.
  - f_equal. apply map_eq. intros k. rewrite lookup_omap, lookup_fmap.
    by destruct (m !! k).
  - intros k v. rewrite lookup_fmap.
    destruct (m !! k); simpl; [|done]. intros [= <-]. by eexists.
Qed.

(** C9: the file that [save_unmatched_orders] writes for a book restores
    the orders of that book.  Whatever book object reads it with
    [load_unmatched_orders], be it a new one, one that holds other orders,
    or the book that wrote it, the load returns, and that object then has
    on either side, for every ticker, the orders that were written, field
    by field (the timestamp through its ISO-8601 string) and in the order
    in which they rested; its other attributes are as they were. *)
Theorem save_load_round_trip self other :
  well_timed self →
  unmatched_orders_file other
  = unmatched_orders_file (save_unmatched_orders self) →
  ∃ other',
    load_unmatched_orders other = Ok other' ∧
    buy_orders other' = buy_orders self ∧
    sell_orders other' = sell_orders self ∧
    (∀ ticker, resting_buys other' ticker = resting_buys self ticker ∧
               resting_sells other' ticker = resting_sells self ticker) ∧
    stock_info other' = stock_info other ∧
    last_trade_price other' = last_trade_price other ∧
    unmatched_orders_file other' = unmatched_orders_file other ∧
    executed_trades_file other' = executed_trades_file other.
Proof.
  intros [Hb Hs] Hfile. unfold load_unmatched_orders. rewrite Hfile. simpl.
  rewrite (load_side_serialized _ Hb), (load_side_serialized _ Hs).
  eexists. split; [reflexivity|]. simpl. by rewrite Hfile.
Qed.

End Persistence.

(** ** The scenarios of the spec, run on the model *)

Lemma selected_first (bs ss : list order) am b s :
  bs !! 0 = Some b → ss !! 0 = Some s →
  skips (book_of bs ss) "XYZ" b s = false →
  selected (state_of bs ss am) "XYZ" 0 0 b s.
Proof.
  intros Hb Hs Hsk. split_and!; [done..| |]; intros; lia.
Qed.

(** A market buy against a limit sell of another account settles at the
    sell price. *)
Lemma execution_price_by_order_types_witness :
  account_id buy_market ≠ account_id sell_100 ∧
  pair_body (state_of [buy_market] [sell_100] rich_accounts) "XYZ" 0 0
            buy_market sell_100
  = settle (state_of [buy_market] [sell_100] rich_accounts) "XYZ" 0 0
           buy_market sell_100 (Some 100%Z).
Proof.
  assert (account_id buy_market ≠ account_id sell_100) as Hne
    by (vm_compute; discriminate).
  split; [exact Hne|].
  destruct (execution_price_by_order_types
              (state_of [buy_market] [sell_100] rich_accounts) "XYZ" 0 0
              buy_market sell_100 Hne) as (_ & Hml & _).
  apply Hml; reflexivity.
Defined.


(** Scenario 2: 5 shares bought at 101 against 10 offered at 100 trade 5
    shares at 100; the buy order is filled and the sell order keeps 5. *)
Lemma trade_quantities_witness :
  selected (state_of [buy_101] [sell_100] rich_accounts) "XYZ" 0 0
           buy_101 sell_100 ∧
  ∃ m',
    match_iteration (state_of [buy_101] [sell_100] rich_accounts) "XYZ"
    = Matched m' ∧
    executed_trades_file (book m')
    = Some [{| tr_ticker := "XYZ"; tr_price := 100; tr_quantity := 5;
               buy_account_id := 1; sell_account_id := 2 |}] ∧
    buys m' = [] ∧ sells m' = [set_quantity sell_100 5].
Proof.
  assert (selected (state_of [buy_101] [sell_100] rich_accounts) "XYZ" 0 0
                   buy_101 sell_100) as Hsel
    by (apply selected_first; reflexivity).
  split; [exact Hsel|].
  destruct (trade_quantities
              (state_of [buy_101] [sell_100] rich_accounts) "XYZ" 0 0
              buy_101 sell_100 100 Hsel eq_refl)
    as (m' & Hit & Htr & _ & Hb & Hs).
  { vm_compute. discriminate. }
  exists m'. split_and!; [exact Hit|exact Htr|exact Hb|exact Hs].
Defined.

(** Scenario 2, as a whole call: what is left does not cross. *)
Lemma no_crossing_after_match_witness :
  ∃ self' am',
    match_orders (book_of [buy_101] [sell_100]) "XYZ" rich_accounts
    = Returned self' am' ∧
    resting_sells self' "XYZ" = [set_quantity sell_100 5] ∧
    ∀ b s pb ps,
      b ∈ resting_buys self' "XYZ" → s ∈ resting_sells self' "XYZ" →
      account_id b ≠ account_id s →
      is_limit b = true → is_limit s = true →
      price b = Some pb → price s = Some ps →
      (pb < ps)%Z.
Proof.
  eexists _, _. split; [vm_compute; reflexivity|].
  split; [reflexivity|].
  eapply (no_crossing_after_match
            (book_of [buy_101] [sell_100]) "XYZ" rich_accounts).
  vm_compute. reflexivity.
Defined.

(** Scenario 5: the crossing buy and sell orders of one account, funded and
    covered, are both resting after [match_orders]. *)
Lemma crossing_orders_of_one_account_remain :
  ¬ (sufficient_funds (book_of [own_buy_100] [own_sell_100]) "XYZ"
                      rich_accounts →
     ∀ self' am',
       match_orders (book_of [own_buy_100] [own_sell_100]) "XYZ"
                    rich_accounts = Returned self' am' →
       ∀ b s pb ps,
         b ∈ resting_buys self' "XYZ" → s ∈ resting_sells self' "XYZ" →
         is_limit b = true → is_limit s = true →
         (0 < quantity b)%Z → (0 < quantity s)%Z →
         price b = Some pb → price s = Some ps →
         (pb < ps)%Z).
Proof.
  intros Hall.
  assert (sufficient_funds (book_of [own_buy_100] [own_sell_100]) "XYZ"
                           rich_accounts) as Hfunds.
  { split.
    - intros b s p Hb Hs.
      change (resting_buys _ _) with [own_buy_100] in Hb.
      change (resting_sells _ _) with [own_sell_100] in Hs.
      apply list_elem_of_singleton in Hb, Hs. subst b s.
      vm_compute. intros [= <-]. discriminate.
    - intros s Hs.
      change (resting_sells _ _) with [own_sell_100] in Hs.
      apply list_elem_of_singleton in Hs. subst s.
      vm_compute. discriminate. }
  specialize (Hall Hfunds _ _ ltac:(vm_compute; reflexivity)
                     own_buy_100 own_sell_100 100%Z 100%Z).
  assert (100 < 100)%Z; [|lia].
  apply Hall; try reflexivity; vm_compute; by left.
Qed.

(** A book of two orders is written; another book object, which holds a
    buy order at 50, reads the file and then holds the two orders. *)
Lemma save_load_round_trip_witness :
  well_timed (book_of [buy_101] [sell_100]) ∧
  resting_buys reopened_book "XYZ" = [buy_50] ∧
  ∃ other',
    load_unmatched_orders reopened_book = Ok other' ∧
    resting_buys other' "XYZ" = [buy_101] ∧
    resting_sells other' "XYZ" = [sell_100].
Proof.
  assert (well_timed (book_of [buy_101] [sell_100])) as Hwt.
  { split; apply map_Forall_singleton; repeat constructor. }
  split; [exact Hwt|]. split; [reflexivity|].
  destruct (save_load_round_trip (book_of [buy_101] [sell_100])
              reopened_book Hwt eq_refl)
    as (other' & Hload & _ & _ & Hrest & _).
  exists other'. split; [exact Hload|].
  destruct (Hrest "XYZ") as [Hb Hs]. split; [exact Hb|exact Hs].
Defined.

(** An order to "hold" is answered with success and rests nowhere. *)
Lemma add_order_unknown_action_witness :
  (0 < quantity hold_order)%Z ∧
  add_order empty_book hold_order rich_accounts
  = (true, MsgAdded, save_unmatched_orders empty_book).
Proof.
  assert (0 < quantity hold_order)%Z as Hq by reflexivity.
  split; [exact Hq|].
  apply (add_order_unknown_action empty_book hold_order rich_accounts Hq).
  - by left.
  - vm_compute. discriminate.
  - vm_compute. discriminate.
Defined.

(** A sell order for 200 shares from an account that holds 100 is refused
    and the book is left as it was. *)
Lemma add_order_validation_witness :
  refusable oversell (rich_accounts (account_id oversell)) ∧
  (add_order empty_book oversell rich_accounts).1.1 = false ∧
  (add_order empty_book oversell rich_accounts).2 = empty_book.
Proof.
  assert (refusable oversell (rich_accounts (account_id oversell))) as Hr.
  { right; right; right. split; [reflexivity|]. vm_compute. reflexivity. }
  split; [exact Hr|].
  destruct (add_order_validation empty_book oversell rich_accounts)
    as (Hiff & Hsame & _).
  pose proof (proj2 Hiff Hr) as Hfalse.
  split; [exact Hfalse|exact (Hsame Hfalse)].
Defined.

(** With sell limit orders at 100 and at 50 resting, the best price to buy
    at is 50. *)
Lemma get_best_price_spec_witness :
  limit_orders (resting_sells (book_of [buy_101] [sell_100; sell_50]) "XYZ")
  = [sell_100; sell_50] ∧
  ∃ o, o ∈ [sell_100; sell_50] ∧
       get_best_price (book_of [buy_101] [sell_100; sell_50]) "buy" "XYZ"
       = Ok (price o) ∧
       price o = Some 50%Z.
Proof.
  split; [reflexivity|].
  destruct (get_best_price_spec (book_of [buy_101] [sell_100; sell_50]) "XYZ")
    as (Hbuy & _).
  destruct (Hbuy [sell_100; sell_50] eq_refl)
    as (o & p & Hget & Ho & Hp & Hmin).
  { discriminate. }
  { repeat constructor; by eexists. }
  exists o. rewrite Hp, Hget. split_and!; [exact Ho|reflexivity|].
  assert (p ≤ 50)%Z as Hle.
  { apply (Hmin sell_50); [by right; left|reflexivity]. }
  apply list_elem_of_In in Ho. simpl in Ho.
  destruct Ho as [<-|[<-|[]]]; simpl in Hp; injection Hp as <-;
    [exfalso; lia|reflexivity].
Defined.

(** Scenario 2 as an iteration: positive, priced orders; the iteration
    goes on with fewer orders. *)
Lemma match_orders_terminates_witness :
  Forall positive [buy_101] ∧ Forall positive [sell_100] ∧
  Forall priced [buy_101] ∧ Forall priced [sell_100] ∧
  ∃ m',
    match_iteration (state_of [buy_101] [sell_100] rich_accounts) "XYZ"
    = Matched m' ∧
    length (buys m') + length (sells m') < 2.
Proof.
  assert (Forall positive [buy_101]) as Hqb by (by repeat constructor).
  assert (Forall positive [sell_100]) as Hqs by (by repeat constructor).
  assert (Forall priced [buy_101]) as Hpb
    by (repeat constructor; intros _; by eexists).
  assert (Forall priced [sell_100]) as Hps
    by (repeat constructor; intros _; by eexists).
  split_and!; [exact Hqb|exact Hqs|exact Hpb|exact Hps|].
  destruct (match_orders_terminates
              (book_of [buy_101] [sell_100]) "XYZ" rich_accounts)
    as (_ & _ & _ & Hstep).
  destruct (Hstep (state_of [buy_101] [sell_100] rich_accounts)
                  Hqb Hqs Hpb Hps)
    as [Hc|[Hn|(m' & Hit & Hlen & _)]].
  - exfalso. vm_compute in Hc. discriminate.
  - exfalso. vm_compute in Hn. discriminate.
  - exists m'. split; [exact Hit|exact Hlen].
Defined.

(** Whatever the driver of Scenario 5 does, its log stays empty. *)
Example one_account_never_trades :
  outcome_trades
    (run_calls [AddOrder own_buy_100; AddOrder own_sell_100;
                MatchOrders "XYZ"] empty_book rich_accounts)
  = Some [].
Proof. vm_compute. reflexivity. Qed.

(** Scenario 1: 10 shares at 100 between two accounts; both orders go. *)
Example full_fill_empties_both_sides :
  ∃ self' am',
    match_orders (book_of [own_buy_100] [sell_100]) "XYZ" rich_accounts
    = Returned self' am' ∧
    resting_buys self' "XYZ" = [] ∧ resting_sells self' "XYZ" = [] ∧
    trades_of self'
    = [{| tr_ticker := "XYZ"; tr_price := 100; tr_quantity := 10;
          buy_account_id := 1; sell_account_id := 2 |}] ∧
    balance (am' 1%Z) = 99000%Z ∧ balance (am' 2%Z) = 101000%Z.
Proof. eexists _, _. split; [vm_compute; reflexivity|]. by vm_compute. Qed.

(** Scenario 3: two market orders and no last trade price; both rest. *)
Example market_orders_need_a_reference :
  ∃ self' am',
    match_orders
      (book_of [buy_market] [sample_order 2 "sell" "market" 5 None 2])
      "XYZ" rich_accounts
    = Returned self' am' ∧
    resting_buys self' "XYZ" = [buy_market] ∧
    length (resting_sells self' "XYZ") = 1 ∧
    trades_of self' = [].
Proof. eexists _, _. split; [vm_compute; reflexivity|]. by vm_compute. Qed.

(** * Further properties *)

(** ** Priority order of the resting orders *)

Lemma lex_Eq_r c : lex c Eq = c.
Proof. by destruct c. Qed.

Lemma datetime_compare_fields a b :
  datetime_compare a b = lex_compare (fields a) (fields b).
Proof. unfold datetime_compare, fields. simpl. by rewrite lex_Eq_r. Qed.

Lemma fields_inj a b : fields a = fields b → a = b.
Proof. destruct a, b. unfold fields. simpl. by intros [= -> -> -> -> -> -> ->]. Qed.

Lemma lex_compare_refl a : lex_compare a a = Eq.
Proof. induction a as [|x a IH]; simpl; [done|]. by rewrite N.compare_refl. Qed.

Lemma lex_compare_Eq a b : lex_compare a b = Eq → a = b.
Proof.
  revert b. induction a as [|x a IH]; intros [|y b]; simpl; try done.
  destruct (N.compare_spec x y) as [->| |]; simpl; try done.
  intros Hab. by rewrite (IH b Hab).
Qed.

Lemma lex_compare_antisym a b :
  lex_compare b a = CompOpp (lex_compare a b).
Proof.
  revert b. induction a as [|x a IH]; intros [|y b]; simpl; try done.
  rewrite (N.compare_antisym x y).
  destruct (N.compare x y); simpl; [apply IH|done..].
Qed.

Lemma lex_compare_trans a b c :
  lex_compare a b = Lt → lex_compare b c = Lt → lex_compare a c = Lt.
Proof.
  revert b c. induction a as [|x a IH]; intros [|y b] [|z c]; simpl;
    try done.
  destruct (N.compare_spec x y) as [->|Hxy|Hxy]; simpl; [|
    |done].
  - destruct (N.compare_spec y z) as [->|Hyz|Hyz]; simpl; [|done..].
    apply IH.
  - intros _. destruct (N.compare_spec y z) as [->|Hyz|Hyz]; simpl;
      [| |done].
    + intros _. by rewrite (proj2 (N.compare_lt_iff x z) Hxy).
    + intros _. by rewrite (proj2 (N.compare_lt_iff x z) ltac:(lia)).
Qed.

Lemma datetime_lt_irrefl a : datetime_lt a a = false.
Proof.
  unfold datetime_lt. by rewrite datetime_compare_fields, lex_compare_refl.
Qed.

Lemma datetime_lt_asym a b : datetime_lt a b = true → datetime_lt b a = false.
Proof.
  unfold datetime_lt. rewrite !datetime_compare_fields.
  rewrite (lex_compare_antisym (fields a) (fields b)).
  by destruct (lex_compare (fields a) (fields b)).
Qed.

(** Timestamps are totally ordered: not after each other means equal. *)
Lemma datetime_lt_total a b :
  datetime_lt a b = false → datetime_lt b a = false → a = b.
Proof.
  unfold datetime_lt. rewrite !datetime_compare_fields.
  rewrite (lex_compare_antisym (fields a) (fields b)).
  destruct (lex_compare (fields a) (fields b)) eqn:E; simpl; try done.
  intros _ _. by apply fields_inj, lex_compare_Eq.
Qed.

Lemma datetime_lt_trans a b c :
  datetime_lt a b = true → datetime_lt b c = true → datetime_lt a c = true.
Proof.
  unfold datetime_lt. rewrite !datetime_compare_fields.
  destruct (lex_compare (fields a) (fields b)) eqn:E1; try done.
  destruct (lex_compare (fields b) (fields c)) eqn:E2; try done.
  by rewrite (lex_compare_trans _ _ _ E1 E2).
Qed.

Lemma datetime_le_trans a b c :
  datetime_lt b a = false → datetime_lt c b = false →
  datetime_lt c a = false.
Proof.
  intros Hab Hbc. destruct (datetime_lt c a) eqn:Hca; [|done].
  destruct (datetime_lt a b) eqn:Hab'.
  - by rewrite (datetime_lt_trans c a b Hca Hab') in Hbc.
  - rewrite (datetime_lt_total a b Hab' Hab) in Hca. congruence.
Qed.

Lemma key_lt_asym a b : key_lt a b = true → key_lt b a = false.
Proof.
  destruct a as [[a1 a2] a3], b as [[b1 b2] b3]. unfold key_lt, bool_lt.
  destruct a1, b1; simpl; try done;
    destruct a2 as [x|], b2 as [y|]; simpl; try done;
    try (destruct (Z.eqb_spec x y), (Z.eqb_spec y x); simpl; try lia;
         try apply datetime_lt_asym;
         destruct (Z.ltb_spec x y), (Z.ltb_spec y x); try done; lia);
    apply datetime_lt_asym.
Qed.

Lemma key_le_trans a b c : key_le a b → key_le b c → key_le a c.
Proof.
  destruct a as [[a1 a2] a3], b as [[b1 b2] b3], c as [[c1 c2] c3].
  unfold key_le, key_lt, bool_lt.
  destruct a1, b1, c1; simpl; try done;
    destruct a2 as [x|], b2 as [y|], c2 as [z|]; simpl; try done;
    repeat match goal with
           | |- context [(?u =? ?v)%Z] => destruct (Z.eqb_spec u v)
           | |- context [(?u <? ?v)%Z] => destruct (Z.ltb_spec u v)
           end; simpl; try done; try lia;
    apply datetime_le_trans.
Qed.

Lemma key_le_refl a : key_le a a.
Proof.
  destruct a as [[a1 a2] a3]. unfold key_le, key_lt.
  destruct a1; simpl; destruct a2 as [x|]; simpl;
    rewrite ?Z.eqb_refl; simpl; apply datetime_lt_irrefl.
Qed.

Lemma insert_by_ordered key x (l : list order) :
  ordered key l → ordered key (insert_by key x l).
Proof.
  unfold ordered. induction l as [|y l IH]; simpl.
  - intros _. repeat constructor.
  - intros Hl. apply StronglySorted_inv in Hl as [Hl Hy].
    destruct (key_lt (key y) (key x)) eqn:Hlt; csimpl.
    + constructor; [by apply IH|].
      rewrite Forall_fmap.
      rewrite (insert_by_Permutation key x l), Forall_cons. split.
      * by apply key_lt_asym.
      * by rewrite Forall_fmap in Hy.
    + constructor; [by constructor|].
      constructor; [done|].
      eapply Forall_impl; [exact Hy|].
      intros k Hk. by eapply key_le_trans.
Qed.

Lemma sorted_ordered key (l : list order) : ordered key (sorted key l).
Proof.
  induction l as [|x l IH]; simpl; [constructor|].
  by apply insert_by_ordered.
Qed.

(** Sorting a list that is in order leaves it as it is. *)
Lemma sorted_fixed key (l : list order) : ordered key l → sorted key l = l.
Proof.
  unfold ordered. induction l as [|x l IH]; simpl; [done|].
  intros Hl. apply StronglySorted_inv in Hl as [Hl Hx].
  rewrite (IH Hl). destruct l as [|y l]; simpl; [done|].
  apply Forall_cons in Hx as [Hxy _]. unfold key_le in Hxy. by rewrite Hxy.
Qed.

Lemma key_sorted_lookup (ks : list sort_key) i j a b :
  StronglySorted key_le ks → i < j → ks !! i = Some a → ks !! j = Some b →
  key_le a b.
Proof.
  intros Hks. revert i j. induction Hks as [|k ks Hks IH Hk];
    intros i j Hij Ha Hb; [done|].
  destruct j as [|j]; [lia|]. destruct i as [|i]; simpl in *.
  - simplify_eq. eapply Forall_lookup_1; [exact Hk|exact Hb].
  - apply (IH i j); [lia|done..].
Qed.

Lemma ordered_lookup key (l : list order) i j a b :
  ordered key l → i < j → l !! i = Some a → l !! j = Some b →
  key_lt (key b) (key a) = false.
Proof.
  unfold ordered. intros Hl Hij Ha Hb.
  apply (key_sorted_lookup (key <$> l) i j); [done..| |];
    rewrite list_lookup_fmap; by rewrite ?Ha, ?Hb.
Qed.

Lemma ordered_buy_priority (l : list order) i j a b :
  ordered buy_key l → i < j → l !! i = Some a → l !! j = Some b →
  (is_market b = true → is_market a = true) ∧
  (is_market a = is_market b →
   truthy (price b) = true → truthy (price a) = true) ∧
  (is_market a = is_market b →
   ∀ pa pb, price a = Some pa → price b = Some pb →
            pa ≠ 0%Z → pb ≠ 0%Z →
            (pb ≤ pa)%Z ∧
            (pa = pb → datetime_lt (timestamp b) (timestamp a) = false)).
Proof.
  intros Hl Hij Ha Hb.
  pose proof (ordered_lookup buy_key l i j a b Hl Hij Ha Hb) as Hle.
  unfold key_lt, buy_key, bool_lt in Hle. split_and!.
  - intros Hmb. rewrite Hmb in Hle. by destruct (is_market a).
  - intros Hm Hpb. rewrite Hm in Hle.
    rewrite eqb_reflx in Hle. simpl in Hle.
    destruct (price b) as [pb|]; [|done]. rewrite Hpb in Hle.
    destruct (price a) as [pa|]; [|done]. by destruct (truthy (Some pa)).
  - intros Hm pa pb Hpa Hpb Hna Hnb. rewrite Hm in Hle.
    rewrite eqb_reflx, Hpa, Hpb in Hle. simpl in Hle.
    rewrite (proj2 (Z.eqb_neq _ _) Hna), (proj2 (Z.eqb_neq _ _) Hnb) in Hle.
    simpl in Hle. destruct (Z.eqb_spec (- pb) (- pa)) as [Heq|Hne];
      simpl in Hle.
    + split; [lia|]. done.
    + apply Z.ltb_ge in Hle. split; [lia|]. intros ->. done.
Qed.

Lemma ordered_sell_priority (l : list order) i j a b :
  ordered sell_key l → i < j → l !! i = Some a → l !! j = Some b →
  (is_market b = true → is_market a = true) ∧
  (is_market a = is_market b →
   (default 0 (price a) ≤ default 0 (price b))%Z ∧
   (default 0%Z (price a) = default 0%Z (price b) →
    datetime_lt (timestamp b) (timestamp a) = false)).
Proof.
  intros Hl Hij Ha Hb.
  pose proof (ordered_lookup sell_key l i j a b Hl Hij Ha Hb) as Hle.
  unfold key_lt, sell_key, bool_lt in Hle. split.
  - intros Hmb. rewrite Hmb in Hle. by destruct (is_market a).
  - intros Hm. rewrite Hm in Hle. rewrite eqb_reflx in Hle. simpl in Hle.
    assert (∀ o, match price o with
                 | Some p => if truthy (price o) then Fin p else Fin 0
                 | None => Fin 0
                 end = Fin (default 0%Z (price o))) as Hkey.
    { intros o. destruct (price o) as [p|]; simpl; [|done].
      destruct (Z.eqb_spec p 0) as [->|]; done. }
    rewrite !Hkey in Hle. simpl in Hle.
    destruct (Z.eqb_spec (default 0%Z (price b)) (default 0%Z (price a)))
      as [Heq|Hne]; simpl in Hle.
    + split; [lia|done].
    + apply Z.ltb_ge in Hle. split; [lia|]. intros Heq. congruence.
Qed.

(** X1: the buy orders that [match_orders] scans are the resting ones in
    priority order: no other order stands before a market order; within
    market orders and within limit orders, an order without a usable price
    (none, or zero) never stands before one with a price, a higher price
    comes first, and at equal price the earlier timestamp comes first. *)
Theorem buy_orders_priority (l : list order) i j a b :
  i < j →
  sorted buy_key l !! i = Some a → sorted buy_key l !! j = Some b →
  sorted buy_key l ≡ₚ l ∧
  (is_market b = true → is_market a = true) ∧
  (is_market a = is_market b →
   truthy (price b) = true → truthy (price a) = true) ∧
  (is_market a = is_market b →
   ∀ pa pb, price a = Some pa → price b = Some pb →
            pa ≠ 0%Z → pb ≠ 0%Z →
            (pb ≤ pa)%Z ∧
            (pa = pb → datetime_lt (timestamp b) (timestamp a) = false)).
Proof.
  intros Hij Ha Hb. split; [apply sorted_Permutation|].
  by apply (ordered_buy_priority (sorted buy_key l) i j a b
              (sorted_ordered buy_key l)).
Qed.

(** X2: the sell orders that [match_orders] scans are the resting ones in
    priority order: no other order stands before a market order; within
    market orders and within limit orders a lower price comes first (an
    absent price counting as zero), and at equal price the earlier
    timestamp comes first. *)
Theorem sell_orders_priority (l : list order) i j a b :
  i < j →
  sorted sell_key l !! i = Some a → sorted sell_key l !! j = Some b →
  sorted sell_key l ≡ₚ l ∧
  (is_market b = true → is_market a = true) ∧
  (is_market a = is_market b →
   (default 0 (price a) ≤ default 0 (price b))%Z ∧
   (default 0%Z (price a) = default 0%Z (price b) →
    datetime_lt (timestamp b) (timestamp a) = false)).
Proof.
  intros Hij Ha Hb. split; [apply sorted_Permutation|].
  by apply (ordered_sell_priority (sorted sell_key l) i j a b
              (sorted_ordered sell_key l)).
Qed.

(** Four buy orders in submission order, and how they are scanned. *)
Lemma buy_orders_priority_witness :
  sorted buy_key [buy_unpriced; buy_50; late_market_buy; buy_101]
  = [late_market_buy; buy_101; buy_50; buy_unpriced] ∧
  (101 ≤ 101)%Z ∧ (50 ≤ 101)%Z.
Proof.
  split; [reflexivity|].
  pose proof (buy_orders_priority
                [buy_unpriced; buy_50; late_market_buy; buy_101]
                1 2 buy_101 buy_50 ltac:(lia) eq_refl eq_refl)
    as (_ & _ & _ & Hp).
  split; [lia|].
  exact (proj1 (Hp eq_refl 101%Z 50%Z eq_refl eq_refl
                   ltac:(discriminate) ltac:(discriminate))).
Defined.

Lemma sell_orders_priority_witness :
  sorted sell_key [sell_100; sell_50; sell_market]
  = [sell_market; sell_50; sell_100] ∧
  (50 ≤ 100)%Z.
Proof.
  split; [reflexivity|].
  pose proof (sell_orders_priority [sell_100; sell_50; sell_market]
                1 2 sell_50 sell_100 ltac:(lia) eq_refl eq_refl)
    as (_ & _ & Hp).
  exact (proj1 (Hp eq_refl)).
Defined.

(** ** The matching loop, step by step *)

Section LoopFacts.
Context {AM : Type} `{AccountManager AM}.
Implicit Types (m : mstate AM) (b s : order) (ticker : string).

Lemma settle_trade_full m ticker i j b s p :
  selected m ticker i j b s →
  (Z.min (quantity b) (quantity s) * p
   ≤ balance (get_account (accounts m) (account_id b)))%Z →
  settle m ticker i j b s (Some p) = Matched (after_trade m ticker i j b s p).
Proof.
  intros Hsel Hle. unfold settle.
  rewrite (proj2 (Z.leb_le _ _) Hle).
  rewrite (remove_filled_at (buys m) i b);
    [|apply Hsel|by eapply selected_buy_first].
  rewrite (remove_filled_at (sells m) j s);
    [|apply Hsel|by eapply selected_sell_first].
  reflexivity.
Qed.

(** An iteration that goes on has rejected the selected buy order or has
    traded the selected pair. *)
Lemma iteration_cases m ticker m' :
  match_iteration m ticker = Matched m' →
  ∃ i j b s p,
    selected m ticker i j b s ∧ account_id b ≠ account_id s ∧
    execution_price (book m) ticker b s = Exec (Some p) ∧
    (((balance (get_account (accounts m) (account_id b))
       < Z.min (quantity b) (quantity s) * p)%Z ∧
      m' = after_rejection m i) ∨
     ((Z.min (quantity b) (quantity s) * p
       ≤ balance (get_account (accounts m) (account_id b)))%Z ∧
      m' = after_trade m ticker i j b s p)).
Proof.
  intros (i & j & b & s & p & Hsel & Hne & Hp & Hst)%iteration_Matched.
  exists i, j, b, s, p. split_and!; [done..|].
  destruct (Z_lt_le_dec
              (balance (get_account (accounts m) (account_id b)))
              (Z.min (quantity b) (quantity s) * p)) as [Hlt|Hle].
  - left. split; [done|].
    rewrite (settle_reject m ticker i j b s p Hsel Hlt) in Hst.
    by injection Hst as <-.
  - right. split; [done|].
    rewrite (settle_trade_full m ticker i j b s p Hsel Hle) in Hst.
    by injection Hst as <-.
Qed.

(** A relation that holds across every iteration holds across the loop. *)
Lemma match_loop_rel (R : mstate AM → mstate AM → Prop) ticker :
  (∀ m, R m m) →
  (∀ m1 m2 m3, R m1 m2 → R m2 m3 → R m1 m3) →
  (∀ m m', match_iteration m ticker = Matched m' → R m m') →
  ∀ fuel m,
    match match_loop fuel ticker m with
    | Done m' | Failed _ m' => R m m'
    | OutOfFuel => True
    end.
Proof.
  intros Hrefl Htrans Hstep fuel.
  induction fuel as [|fuel IH]; intros m; [done|].
  simpl. destruct (loop_condition m); [|apply Hrefl].
  destruct (match_iteration m ticker) as [|m1|e] eqn:Hit;
    [apply Hrefl| |apply Hrefl].
  apply Hstep in Hit. specialize (IH m1).
  destruct (match_loop fuel ticker m1); [| |done]; by eapply Htrans.
Qed.

(** What a call that returns has done, in terms of its loop. *)
Lemma match_orders_Returned_loop (R : mstate AM → mstate AM → Prop)
    self ticker am self' am' :
  (∀ m, R m m) →
  (∀ m1 m2 m3, R m1 m2 → R m2 m3 → R m1 m3) →
  (∀ m m', match_iteration m ticker = Matched m' → R m m') →
  match_orders self ticker am = Returned self' am' →
  ∃ m, R (initial_state self ticker am) m ∧
       (loop_condition m = false ∨ match_iteration m ticker = NoMatch) ∧
       am' = accounts m ∧
       self' = save_unmatched_orders
                 (set_orders (book m)
                    (<[ticker := buys m]> (buy_orders (book m)))
                    (<[ticker := sells m]> (sell_orders (book m)))).
Proof.
  intros Hrefl Htrans Hstep. unfold match_orders.
  set (m0 := initial_state self ticker am).
  match goal with
  | |- context [match_loop ?f ticker m0] =>
      pose proof (match_loop_rel R ticker Hrefl Htrans Hstep f m0) as HR;
      destruct (match_loop f ticker m0) as [m| |] eqn:E; [|done..]
  end.
  intros [= <- <-]. exists m. split_and!; [done| |done..].
  by eapply match_loop_Done.
Qed.

End LoopFacts.

Section CallFacts.
Context {AM : Type} `{AccountManager AM}.
Implicit Types (m : mstate AM) (b s : order) (ticker : string).

Lemma total_quantity_Permutation (l l' : list order) :
  l ≡ₚ l' → total_quantity l = total_quantity l'.
Proof. induction 1; simpl; lia. Qed.

Lemma total_quantity_updated (l : list order) i o q :
  l !! i = Some o →
  total_quantity (if (q =? 0)%Z then delete i l
                  else <[i := set_quantity o q]> l)
  = (total_quantity l - quantity o + q)%Z.
Proof.
  intros Hi. destruct (Z.eqb_spec q 0) as [->|Hq].
  - rewrite (total_quantity_delete _ _ _ Hi). lia.
  - rewrite (total_quantity_insert _ _ _ _ Hi). simpl. lia.
Qed.

Lemma length_updated (l : list order) i o o' (q : Z) :
  l !! i = Some o →
  length (if (q =? 0)%Z then delete i l else <[i := o']> l)
  = if (q =? 0)%Z then pred (length l) else length l.
Proof.
  intros Hi. destruct (q =? 0)%Z.
  - rewrite length_delete; [|by rewrite Hi]. lia.
  - apply length_insert.
Qed.

Lemma logged_refl ticker m : logged ticker m m [].
Proof.
  unfold logged. simpl. rewrite app_nil_r. split_and!; try done; lia.
Qed.

Lemma logged_trans ticker m1 m2 m3 n1 n2 :
  logged ticker m1 m2 n1 → logged ticker m2 m3 n2 →
  logged ticker m1 m3 (n1 ++ n2).
Proof.
  intros (E1 & T1 & L1 & Q1 & C1) (E2 & T2 & L2 & Q2 & C2).
  unfold logged. split_and!.
  - by rewrite E2, E1, app_assoc.
  - by apply Forall_app.
  - destruct n2 as [|t n2 _] using rev_ind.
    + rewrite app_nil_r. simpl in L2. destruct L2 as [-> ->]. done.
    + rewrite app_assoc, last_snoc. by rewrite last_snoc in L2.
  - assert (∀ a c, sum_quantities (a ++ c)
                   = (sum_quantities a + sum_quantities c)%Z) as Happ.
    { intros a c. induction a as [|x a IH]; simpl; [done|].
      rewrite IH. lia. }
    rewrite Happ. lia.
  - rewrite length_app. lia.
Qed.

Lemma iteration_logged ticker m m' :
  match_iteration m ticker = Matched m' → ∃ new, logged ticker m m' new.
Proof.
  intros (i & j & b & s & p & Hsel & Hne & Hp & Hcase)%iteration_cases.
  pose proof Hsel as (Hi & Hj & _).
  destruct Hcase as [[Hlt ->]|[Hle ->]].
  - exists []. unfold logged. simpl. rewrite app_nil_r.
    split_and!; try done; [lia|].
    rewrite length_delete; [|by rewrite Hi].
    apply lookup_lt_Some in Hi. lia.
  - exists [trade_of ticker b s p]. unfold logged. simpl.
    split_and!.
    + done.
    + by repeat constructor.
    + apply lookup_insert_eq.
    + rewrite (total_quantity_updated _ _ _ _ Hj). lia.
    + rewrite (length_updated _ _ _ _ _ Hi), (length_updated _ _ _ _ _ Hj).
      apply lookup_lt_Some in Hi, Hj.
      assert (quantity b - Z.min (quantity b) (quantity s) = 0
              ∨ quantity s - Z.min (quantity b) (quantity s) = 0)%Z
        as [Hz|Hz] by lia; rewrite Hz; simpl;
        repeat case_match; lia.
Qed.

Lemma match_orders_logged self ticker am self' am' :
  match_orders self ticker am = Returned self' am' →
  ∃ m new,
    logged ticker (initial_state self ticker am) m new ∧
    (loop_condition m = false ∨ match_iteration m ticker = NoMatch) ∧
    am' = accounts m ∧
    self' = save_unmatched_orders
              (set_orders (book m)
                 (<[ticker := buys m]> (buy_orders (book m)))
                 (<[ticker := sells m]> (sell_orders (book m)))).
Proof.
  intros Hret.
  destruct (match_orders_Returned_loop
              (λ m m', ∃ new, logged ticker m m' new)
              self ticker am self' am') as (m & [new Hnew] & Hrest);
    [| | |done|by exists m, new].
  - intros m. exists []. apply logged_refl.
  - intros m1 m2 m3 [n1 H1] [n2 H2]. exists (n1 ++ n2).
    by eapply logged_trans.
  - intros m m'. apply iteration_logged.
Qed.

(** X3: the trades of a call of [match_orders] that returns are logged
    after the records the log held, all for the ticker of the call; the
    last trade price of the ticker is then the price of the last of them,
    and a call without a trade leaves the last trade prices and the
    accounts as they were. *)
Theorem match_orders_log self ticker am self' am' :
  match_orders self ticker am = Returned self' am' →
  ∃ new,
    trades_of self' = trades_of self ++ new ∧
    Forall (λ t, tr_ticker t = ticker) new ∧
    match last new with
    | Some t => last_trade_price self' !! ticker = Some (tr_price t)
    | None => last_trade_price self' = last_trade_price self ∧ am' = am
    end.
Proof.
  intros (m & new & (E & T & L & _) & _ & -> & ->)%match_orders_logged.
  exists new. split_and!; [done..|].
  destruct (last new); simpl in *; [done|]. by destruct L as [-> ->].
Qed.

(** X4: the quantities of the trades that a returning call of
    [match_orders] has logged add up to what its sell orders have lost:
    the total resting sell quantity of the ticker before the call less the
    total after it. *)
Theorem match_orders_filled_quantity self ticker am self' am' :
  match_orders self ticker am = Returned self' am' →
  ∃ new,
    trades_of self' = trades_of self ++ new ∧
    sum_quantities new
    = (total_quantity (resting_sells self ticker)
       - total_quantity (resting_sells self' ticker))%Z.
Proof.
  intros (m & new & (E & _ & _ & Q & _) & _ & -> & ->)%match_orders_logged.
  exists new. split; [done|].
  unfold resting_sells at 2. simpl. rewrite lookup_insert_eq. simpl.
  rewrite Q. simpl.
  by rewrite (total_quantity_Permutation _ _ (sorted_Permutation sell_key _)).
Qed.

(** X5: a returning call of [match_orders] logs at most as many trades as
    it takes orders off the two sides of the ticker. *)
Theorem match_orders_trade_count self ticker am self' am' :
  match_orders self ticker am = Returned self' am' →
  ∃ new,
    trades_of self' = trades_of self ++ new ∧
    length new + length (resting_buys self' ticker)
      + length (resting_sells self' ticker)
    ≤ length (resting_buys self ticker)
      + length (resting_sells self ticker).
Proof.
  intros (m & new & (E & _ & _ & _ & C) & _ & -> & ->)%match_orders_logged.
  exists new. split; [done|].
  unfold resting_buys at 1, resting_sells at 1. simpl.
  rewrite !lookup_insert_eq. simpl. simpl in C.
  by rewrite !(Permutation_length (sorted_Permutation _ _)) in C.
Qed.

End CallFacts.

Section OrderFacts.
Context {AM : Type} `{AccountManager AM}.
Implicit Types (m : mstate AM) (b s : order) (ticker : string).

Lemma framed_refl ticker m : framed ticker m m.
Proof. by unfold framed. Qed.

Lemma framed_trans ticker m1 m2 m3 :
  framed ticker m1 m2 → framed ticker m2 m3 → framed ticker m1 m3.
Proof.
  intros (A1 & B1 & C1 & D1 & E1 & F1) (A2 & B2 & C2 & D2 & E2 & F2).
  unfold framed. split_and!; try congruence.
  - intros t Ht. by rewrite E2, E1.
  - intros t Ht. by apply F2, F1.
Qed.

Lemma iteration_framed ticker m m' :
  match_iteration m ticker = Matched m' → framed ticker m m'.
Proof.
  intros (i & j & b & s & p & _ & _ & _ & Hcase)%iteration_cases.
  destruct Hcase as [[_ ->]|[_ ->]]; [by unfold framed|].
  unfold framed. simpl. split_and!; try done.
  - intros t Ht. by rewrite lookup_insert_ne.
  - intros t Ht. destruct (decide (ticker = t)) as [->|Hne].
    + rewrite lookup_insert_eq. by eexists.
    + by rewrite lookup_insert_ne.
Qed.

(** X6: a returning call of [match_orders] touches its ticker only: the
    buy orders, the sell orders and the last trade price of every other
    ticker are what they were; it never forgets a last trade price; and
    the ticker of the call has an entry on both sides afterwards, also
    when it had none. *)
Theorem match_orders_other_tickers self ticker am self' am' :
  match_orders self ticker am = Returned self' am' →
  (∀ t, t ≠ ticker →
     buy_orders self' !! t = buy_orders self !! t ∧
     sell_orders self' !! t = sell_orders self !! t ∧
     last_trade_price self' !! t = last_trade_price self !! t) ∧
  (∀ t, is_Some (last_trade_price self !! t) →
        is_Some (last_trade_price self' !! t)) ∧
  is_Some (buy_orders self' !! ticker) ∧
  is_Some (sell_orders self' !! ticker).
Proof.
  intros Hret.
  destruct (match_orders_Returned_loop (framed ticker)
              self ticker am self' am')
    as (m & (_ & Hb & Hs & _ & Hl & Hd) & _ & -> & ->);
    [apply framed_refl|apply framed_trans|apply iteration_framed|done|].
  simpl in *. split_and!.
  - intros t Ht. rewrite !lookup_insert_ne by done.
    rewrite Hb, Hs. split_and!; [done..|]. by apply Hl.
  - done.
  - rewrite lookup_insert_eq. by eexists.
  - rewrite lookup_insert_eq. by eexists.
Qed.

Lemma StronglySorted_sublist (ks ks' : list sort_key) :
  ks' `sublist_of` ks → StronglySorted key_le ks → StronglySorted key_le ks'.
Proof.
  induction 1 as [|k l1 l2 Hsub IH|k l1 l2 Hsub IH]; intros Hs; [done| |].
  - apply StronglySorted_inv in Hs as [Hs Hk]. constructor; [by apply IH|].
    apply Forall_forall. intros x Hx.
    eapply Forall_forall; [exact Hk|]. by eapply elem_of_sublist.
  - apply StronglySorted_inv in Hs as [Hs _]. by apply IH.
Qed.

Lemma buy_key_forget o : buy_key (forget_quantity o) = buy_key o.
Proof. done. Qed.

Lemma sell_key_forget o : sell_key (forget_quantity o) = sell_key o.
Proof. done. Qed.

Lemma ordered_thinned key (l l' : list order) :
  (∀ o, key (forget_quantity o) = key o) →
  (forget_quantity <$> l') `sublist_of` (forget_quantity <$> l) →
  ordered key l → ordered key l'.
Proof.
  intros Hkey Hsub. unfold ordered.
  assert (∀ k : list order, key <$> k = key <$> (forget_quantity <$> k))
    as Hk.
  { intros k. rewrite <- list_fmap_compose. apply list_fmap_ext.
    intros ? o _. simpl. by rewrite Hkey. }
  rewrite (Hk l), (Hk l'). apply StronglySorted_sublist.
  by apply fmap_sublist.
Qed.

Lemma forget_updated (l : list order) i o (q : Z) (c : bool) :
  l !! i = Some o →
  (forget_quantity <$> (if c then delete i l
                        else <[i := set_quantity o q]> l))
    `sublist_of` (forget_quantity <$> l).
Proof.
  intros Hi. destruct c.
  - rewrite list_fmap_delete. apply sublist_delete.
  - rewrite list_fmap_insert.
    change (forget_quantity (set_quantity o q)) with (forget_quantity o).
    rewrite list_insert_id; [done|]. by rewrite list_lookup_fmap, Hi.
Qed.

Lemma thinned_refl m : thinned m m.
Proof. by unfold thinned. Qed.

Lemma thinned_trans m1 m2 m3 : thinned m1 m2 → thinned m2 m3 → thinned m1 m3.
Proof.
  intros [B1 S1] [B2 S2]. split; by etrans.
Qed.

Lemma iteration_thinned ticker m m' :
  match_iteration m ticker = Matched m' → thinned m m'.
Proof.
  intros (i & j & b & s & p & Hsel & _ & _ & Hcase)%iteration_cases.
  pose proof Hsel as (Hi & Hj & _).
  destruct Hcase as [[_ ->]|[_ ->]]; unfold thinned; simpl.
  - split; [|done]. rewrite list_fmap_delete. apply sublist_delete.
  - split; by apply forget_updated.
Qed.

Lemma match_orders_thinned self ticker am self' am' :
  match_orders self ticker am = Returned self' am' →
  ∃ m, thinned (initial_state self ticker am) m ∧
       (loop_condition m = false ∨ match_iteration m ticker = NoMatch) ∧
       am' = accounts m ∧
       self' = save_unmatched_orders
                 (set_orders (book m)
                    (<[ticker := buys m]> (buy_orders (book m)))
                    (<[ticker := sells m]> (sell_orders (book m)))).
Proof.
  apply match_orders_Returned_loop;
    [apply thinned_refl|apply thinned_trans|apply iteration_thinned].
Qed.

(** X7: [match_orders] adds no order and reorders none beyond its sort:
    after a call that returns, the resting buy (sell) orders of the ticker
    are, but for their quantities, orders that rested before, in the
    priority order of the sort, which is also the order they are stored
    in. *)
Theorem match_orders_keeps_priority self ticker am self' am' :
  match_orders self ticker am = Returned self' am' →
  ordered buy_key (resting_buys self' ticker) ∧
  ordered sell_key (resting_sells self' ticker) ∧
  (forget_quantity <$> resting_buys self' ticker)
    `sublist_of`
    (forget_quantity <$> sorted buy_key (resting_buys self ticker)) ∧
  (forget_quantity <$> resting_sells self' ticker)
    `sublist_of`
    (forget_quantity <$> sorted sell_key (resting_sells self ticker)).
Proof.
  intros (m & [Hb Hs] & _ & -> & ->)%match_orders_thinned.
  unfold resting_buys at 1 2, resting_sells at 1 2. simpl in *.
  rewrite !lookup_insert_eq. simpl. split_and!; [| |done..].
  - eapply ordered_thinned; [apply buy_key_forget|exact Hb|].
    apply sorted_ordered.
  - eapply ordered_thinned; [apply sell_key_forget|exact Hs|].
    apply sorted_ordered.
Qed.

End OrderFacts.

Section Idempotence.
Context {AM : Type} `{AccountManager AM}.
Implicit Types (m : mstate AM) (b s : order) (ticker : string).

Lemma skips_last_trade_price self1 self2 ticker b s :
  last_trade_price self1 = last_trade_price self2 →
  skips self1 ticker b s = skips self2 ticker b s.
Proof. intros Hl. unfold skips, execution_price. by rewrite Hl. Qed.

Lemma match_loop_step fuel ticker m :
  match_loop (S fuel) ticker m
  = if loop_condition m then
      match match_iteration m ticker with
      | NoMatch => Done m
      | Matched m' => match_loop fuel ticker m'
      | Raised e => Failed e m
      end
    else Done m.
Proof. done. Qed.

(** A state in which the loop stops at once, seen from another book object
    with the same last trade prices. *)
Lemma match_loop_stops fuel ticker m m2 :
  loop_condition m = false ∨ match_iteration m ticker = NoMatch →
  buys m2 = buys m → sells m2 = sells m →
  last_trade_price (book m2) = last_trade_price (book m) →
  match_loop (S fuel) ticker m2 = Done m2.
Proof.
  intros Hend Hb Hs Hl. rewrite match_loop_step.
  assert (loop_condition m2 = loop_condition m) as Hc.
  { unfold loop_condition. by rewrite Hb, Hs. }
  rewrite Hc. destruct (loop_condition m) eqn:Hcm; [|done].
  destruct Hend as [?|Hit]; [done|].
  assert (match_iteration m2 ticker = NoMatch) as ->; [|done].
  unfold match_iteration in *. apply for_buys_NoMatch.
  rewrite for_buys_NoMatch in Hit. rewrite Hb, Hs.
  intros b s Hbin Hsin.
  rewrite (skips_last_trade_price (book m2) (book m)); auto.
Qed.

(** X8: calling [match_orders] again right after it has returned changes
    nothing: the second call returns the same book object and the same
    accounts, with no new trade. *)
Theorem match_orders_idempotent self ticker am self' am' :
  match_orders self ticker am = Returned self' am' →
  match_orders self' ticker am' = Returned self' am'.
Proof.
  intros Hret.
  destruct (match_orders_thinned self ticker am self' am' Hret)
    as (m & [Hb Hs] & Hend & -> & ->).
  assert (ordered buy_key (buys m)) as Hob.
  { eapply ordered_thinned; [apply buy_key_forget|exact Hb|].
    apply sorted_ordered. }
  assert (ordered sell_key (sells m)) as Hos.
  { eapply ordered_thinned; [apply sell_key_forget|exact Hs|].
    apply sorted_ordered. }
  unfold match_orders.
  set (self' := save_unmatched_orders _).
  assert (initial_state self' ticker (accounts m)
          = {| buys := buys m; sells := sells m; book := self';
               accounts := accounts m |}) as ->.
  { unfold initial_state, self'. simpl. rewrite !lookup_insert_eq. simpl.
    by rewrite (sorted_fixed _ _ Hob), (sorted_fixed _ _ Hos). }
  rewrite (match_loop_stops _ ticker m); [|done..].
  simpl. f_equal. unfold self', save_unmatched_orders, set_orders. simpl.
  by rewrite !insert_insert_eq.
Qed.

End Idempotence.

Section Safety.
Context {AM : Type} `{AccountManager AM}.
Implicit Types (m : mstate AM) (b s : order) (ticker : string).

(** An invariant of the iterations is an invariant of the loop. *)
Lemma match_loop_inv (I : mstate AM → Prop) ticker :
  (∀ m m', I m → match_iteration m ticker = Matched m' → I m') →
  ∀ fuel m, I m →
    match match_loop fuel ticker m with
    | Done m' | Failed _ m' => I m'
    | OutOfFuel => True
    end.
Proof.
  intros Hstep fuel. induction fuel as [|fuel IH]; intros m Hm; [done|].
  rewrite match_loop_step. destruct (loop_condition m); [|done].
  destruct (match_iteration m ticker) as [|m1|e] eqn:Hit; [done| |done].
  apply IH. by eapply Hstep.
Qed.

Lemma admissible_priced o : admissible o → priced o.
Proof.
  unfold priced. intros [_ [Hm|[_ (p & Hp & _)]]] Hl.
  - rewrite (is_limit_not_market o Hl) in Hm. done.
  - rewrite Hp. by eexists.
Qed.

Lemma admissible_set_quantity o q :
  admissible o → (0 < q)%Z → admissible (set_quantity o q).
Proof. intros [_ Hty] Hq. by split. Qed.

Lemma admissible_updated (l : list order) i o q :
  Forall admissible l → l !! i = Some o → (0 ≤ q)%Z →
  Forall admissible (if (q =? 0)%Z then delete i l
                     else <[i := set_quantity o q]> l).
Proof.
  intros Hl Hi Hq. destruct (Z.eqb_spec q 0); [by apply Forall_delete|].
  apply Forall_insert; [done|]. apply admissible_set_quantity; [|lia].
  by eapply Forall_lookup_1.
Qed.

(** With priced orders on both sides, an iteration raises nothing. *)
Lemma iteration_no_exception ticker m e :
  Forall priced (buys m) → Forall priced (sells m) →
  match_iteration m ticker ≠ Raised e.
Proof.
  intros Hpb Hps Hit.
  destruct (iteration_selects m ticker) as (i & j & b & s & Hsel);
    [by rewrite Hit|].
  pose proof Hsel as (Hi & Hj & _).
  pose proof (Forall_lookup_1 _ _ _ _ Hpb Hi) as Hb'.
  pose proof (Forall_lookup_1 _ _ _ _ Hps Hj) as Hs'.
  destruct (selected_priced m ticker i j b s Hsel Hb' Hs') as [p Hp].
  rewrite (selected_pair_body m ticker i j b s _ Hsel Hp) in Hit.
  destruct (Z_lt_le_dec
              (balance (get_account (accounts m) (account_id b)))
              (Z.min (quantity b) (quantity s) * p)) as [Hlt|Hle].
  - by rewrite (settle_reject m ticker i j b s p Hsel Hlt) in Hit.
  - by rewrite (settle_trade_full m ticker i j b s p Hsel Hle) in Hit.
Qed.

Lemma iteration_admissible ticker m m' :
  Forall admissible (buys m) ∧ Forall admissible (sells m) →
  match_iteration m ticker = Matched m' →
  Forall admissible (buys m') ∧ Forall admissible (sells m').
Proof.
  intros [Hb Hs] (i & j & b & s & p & Hsel & _ & _ & Hcase)%iteration_cases.
  pose proof Hsel as (Hi & Hj & _).
  destruct Hcase as [[_ ->]|[_ ->]]; simpl.
  - split; [by apply Forall_delete|done].
  - split; apply admissible_updated; try done; lia.
Qed.

Lemma match_loop_admissible fuel ticker m :
  Forall admissible (buys m) ∧ Forall admissible (sells m) →
  length (buys m) + length (sells m) < fuel →
  ∃ m', match_loop fuel ticker m = Done m' ∧
        Forall admissible (buys m') ∧ Forall admissible (sells m') ∧
        framed ticker m m'.
Proof.
  revert m. induction fuel as [|fuel IH]; intros m Hm Hlt; [lia|].
  rewrite match_loop_step. destruct (loop_condition m).
  - destruct (match_iteration m ticker) as [|m1|e] eqn:Hit.
    + exists m. split_and!; [done|apply Hm|apply Hm|apply framed_refl].
    + destruct (IH m1) as (m' & Hl & Hb & Hs & Hf).
      * by eapply iteration_admissible.
      * apply iteration_length in Hit. lia.
      * exists m'. split_and!; [done..|].
        eapply framed_trans; [by eapply iteration_framed|done].
    + exfalso. eapply (iteration_no_exception ticker m e); [| |done].
      * eapply Forall_impl; [apply Hm|apply admissible_priced].
      * eapply Forall_impl; [apply Hm|apply admissible_priced].
  - exists m. split_and!; [done|apply Hm|apply Hm|apply framed_refl].
Qed.

Lemma admissible_resting (om : gmap string (list order)) ticker :
  map_Forall (λ _ l, Forall admissible l) om →
  Forall admissible (default [] (om !! ticker)).
Proof.
  intros Hom. destruct (om !! ticker) as [l|] eqn:E; simpl; [|done].
  by apply (Hom ticker).
Qed.

Lemma match_orders_admissible self ticker am :
  admissible_book self →
  ∃ self' am', match_orders self ticker am = Returned self' am' ∧
               admissible_book self'.
Proof.
  intros [Hb Hs]. unfold match_orders.
  set (m0 := initial_state self ticker am).
  destruct (match_loop_admissible
              (S (length (buys m0) + length (sells m0))) ticker m0)
    as (m' & -> & Hb' & Hs' & (_ & Eb & Es & _)); [|lia|].
  { split; apply sorted_Forall; by apply admissible_resting. }
  eexists _, _. split; [done|]. split; simpl.
  - rewrite Eb. by apply map_Forall_insert_2.
  - rewrite Es. by apply map_Forall_insert_2.
Qed.

Lemma accepted_admissible o acct : refused o acct = false → admissible o.
Proof.
  intros Hr. assert (¬ refusable o acct) as Hn.
  { intros Hrf%refused_refusable. congruence. }
  unfold refusable in Hn. split.
  - destruct (Z_lt_le_dec 0 (quantity o)); [done|]. exfalso. apply Hn. by left.
  - destruct (is_market o) eqn:Hm; [by left|right].
    destruct (is_limit o) eqn:Hl.
    + split; [done|]. apply is_limit_true in Hl.
      destruct (price o) as [p|] eqn:Hp.
      * exists p. split; [done|].
        destruct (Z_lt_le_dec 0 p); [done|]. exfalso. apply Hn.
        right; right; left. split; [done|]. right. by exists p.
      * exfalso. apply Hn. right; right; left. split; [done|]. by left.
    + exfalso. apply Hn. right; left.
      by split; [apply is_market_false|apply is_limit_false].
Qed.

Lemma add_order_admissible self o am :
  admissible_book self → admissible_book (add_order self o am).2.
Proof.
  intros [Hb Hs].
  destruct (refused o (get_account am (account_id o))) eqn:Hr.
  - by rewrite (proj2 (add_order_refused self o am Hr)).
  - rewrite (add_order_accepted self o am Hr). simpl.
    apply accepted_admissible in Hr.
    destruct (String.eqb (action o) "buy");
      [|destruct (String.eqb (action o) "sell")]; split; simpl; try done.
    + apply map_Forall_insert_2; [|done]. apply Forall_app. split.
      * by apply admissible_resting.
      * constructor; [done|constructor].
    + apply map_Forall_insert_2; [|done]. apply Forall_app. split.
      * by apply admissible_resting.
      * constructor; [done|constructor].
Qed.

(** X9: from a book whose resting orders are all as [add_order] admits
    them (a positive quantity; market, or limit with a positive price),
    the empty book for one, no sequence of [add_order] and [match_orders]
    calls raises an exception, and the resting orders of the book it ends
    with are again so. *)
Theorem run_calls_never_raises (cs : list call) self am :
  admissible_book self →
  ∃ self' am', run_calls cs self am = Returned self' am' ∧
               admissible_book self'.
Proof.
  revert self am. induction cs as [|c cs IH]; intros self am Hself.
  - by exists self, am.
  - destruct c as [o|ticker]; simpl.
    + pose proof (add_order_admissible self o am Hself) as Ha.
      destruct (add_order self o am) as [[ok msg] self1]. by apply IH.
    + destruct (match_orders_admissible self ticker am Hself)
        as (self1 & am1 & -> & Ha).
      by apply IH.
Qed.

(** X10: a trade never executes at a price worse than a limit: the record
    that an iteration appends to the log is for a resting buy order and a
    resting sell order of two accounts, and its price is at most the
    price of a limit buy order and equal to the price of a limit sell
    order; between two market orders it is the last trade price. *)
Theorem limit_price_respected ticker m m' t :
  match_iteration m ticker = Matched m' →
  trades_of (book m') = trades_of (book m) ++ [t] →
  ∃ b s,
    b ∈ buys m ∧ s ∈ sells m ∧
    buy_account_id t = account_id b ∧ sell_account_id t = account_id s ∧
    account_id b ≠ account_id s ∧
    tr_quantity t = Z.min (quantity b) (quantity s) ∧
    (is_limit b = true → ∃ pb, price b = Some pb ∧ (tr_price t ≤ pb)%Z) ∧
    (is_limit s = true → price s = Some (tr_price t)) ∧
    (is_market b = true → is_market s = true →
     last_trade_price (book m) !! ticker = Some (tr_price t)).
Proof.
  intros (i & j & b & s & p & Hsel & Hne & Hp & Hcase)%iteration_cases Hlog.
  pose proof Hsel as (Hi & Hj & _).
  destruct Hcase as [[_ ->]|[_ ->]]; simpl in Hlog.
  - exfalso. apply (f_equal length) in Hlog.
    rewrite length_app in Hlog. simpl in Hlog. lia.
  - unfold trades_of in Hlog at 1. simpl in Hlog.
    apply app_inv_head in Hlog. injection Hlog as <-.
    exists b, s. simpl.
    split_and!; try done;
      [by eapply list_elem_of_lookup_2|by eapply list_elem_of_lookup_2
      | | |]; unfold execution_price in Hp.
    + intros Hl. rewrite Hl, (is_limit_not_market b Hl) in Hp. simpl in Hp.
      destruct (is_market s); simpl in Hp.
      { injection Hp as Hp. exists p. split; [done|lia]. }
      destruct (is_limit s); simpl in Hp; [|done].
      destruct (price b) as [pb|]; [|by destruct (price s)].
      destruct (price s) as [ps|]; [|done].
      destruct (Z.leb_spec ps pb); [|done].
      exists pb. split; [done|]. injection Hp as <-. lia.
    + intros Hl. rewrite Hl, (is_limit_not_market s Hl) in Hp.
      rewrite !andb_false_r in Hp. rewrite !andb_true_r in Hp.
      destruct (is_market b); simpl in Hp; [congruence|].
      destruct (is_limit b); simpl in Hp; [|done].
      destruct (price b) as [pb|]; [|by destruct (price s)].
      destruct (price s) as [ps|]; [|done].
      destruct (Z.leb_spec ps pb); [|done]. congruence.
    + intros Hb Hs. rewrite Hb, Hs in Hp. simpl in Hp.
      destruct (last_trade_price (book m) !! ticker); [|done]. congruence.
Qed.

(** X11: on a ticker with no resting buy order or no resting sell order,
    an unknown ticker included, [match_orders] returns without a trade:
    the log, the last trade prices and the accounts are what they were,
    and the resting orders of the ticker are stored in priority order. *)
Theorem match_orders_empty_side self ticker am :
  resting_buys self ticker = [] ∨ resting_sells self ticker = [] →
  ∃ self',
    match_orders self ticker am = Returned self' am ∧
    trades_of self' = trades_of self ∧
    last_trade_price self' = last_trade_price self ∧
    resting_buys self' ticker = sorted buy_key (resting_buys self ticker) ∧
    resting_sells self' ticker = sorted sell_key (resting_sells self ticker).
Proof.
  intros Hempty. unfold match_orders.
  set (m0 := initial_state self ticker am).
  assert (loop_condition m0 = false) as Hc.
  { unfold loop_condition, m0, initial_state. simpl.
    unfold resting_buys, resting_sells in Hempty.
    destruct Hempty as [-> | ->]; simpl; [done|].
    by rewrite andb_false_r. }
  rewrite match_loop_step, Hc. eexists. split; [reflexivity|].
  unfold resting_buys, resting_sells. simpl.
  by rewrite !lookup_insert_eq.
Qed.

End Safety.

Section Settlement.
Context {AM : Type} `{!AccountManager AM} `{!AccountManagerLaws AM}.
Implicit Types (m : mstate AM) (b s : order) (ticker : string).

Lemma selected_two_accounts m ticker i j b s :
  selected m ticker i j b s → account_id b ≠ account_id s.
Proof.
  intros (_ & _ & Hsk & _). unfold skips in Hsk.
  apply orb_false_elim in Hsk as [Hacc _]. by apply Z.eqb_neq.
Qed.

Lemma transfer_accounts (am : AM) ticker b s p :
  account_id b ≠ account_id s →
  let e := Z.min (quantity b) (quantity s) in
  let buyer := get_account am (account_id b) in
  let seller := get_account am (account_id s) in
  let held := default 0%Z (positions seller !! ticker) in
  get_account (transfer am ticker b s p) (account_id b)
  = {| balance := balance buyer - e * p;
       positions := <[ticker := (default 0 (positions buyer !! ticker)
                                 + e)%Z]> (positions buyer) |} ∧
  get_account (transfer am ticker b s p) (account_id s)
  = {| balance := balance seller + e * p;
       positions := if decide (held - e = 0)%Z
                    then delete ticker (positions seller)
                    else <[ticker := (held - e)%Z]> (positions seller) |} ∧
  (∀ id, id ≠ account_id b → id ≠ account_id s →
         get_account (transfer am ticker b s p) id = get_account am id).
Proof.
  intros Hne e buyer seller held. unfold transfer. fold e. split_and!.
  - rewrite get_update_ne by done. by rewrite get_update_eq.
  - rewrite get_update_eq.
    rewrite (get_update_ne am (account_id b) (account_id s)) by done.
    fold seller. fold held. rewrite lookup_insert_eq. simpl. f_equal.
    case_decide as Hz.
    + rewrite (proj2 (Z.eqb_eq _ _) Hz). apply delete_insert_eq.
    + by rewrite (proj2 (Z.eqb_neq _ _) Hz).
  - intros id Hb Hs. rewrite !get_update_ne by done. done.
Qed.

(** X12: a trade moves cash and shares between its two accounts and
    touches no other: the buyer pays quantity times price and its position
    in the ticker grows by the quantity; the seller receives the same
    amount and its position shrinks by the quantity, whatever it held, the
    entry being dropped when it reaches zero. *)
Theorem trade_settlement m ticker i j b s p :
  selected m ticker i j b s →
  execution_price (book m) ticker b s = Exec (Some p) →
  (Z.min (quantity b) (quantity s) * p
   ≤ balance (get_account (accounts m) (account_id b)))%Z →
  let e := Z.min (quantity b) (quantity s) in
  let buyer := get_account (accounts m) (account_id b) in
  let seller := get_account (accounts m) (account_id s) in
  let held := default 0%Z (positions seller !! ticker) in
  ∃ m',
    match_iteration m ticker = Matched m' ∧
    get_account (accounts m') (account_id b)
    = {| balance := balance buyer - e * p;
         positions := <[ticker := (default 0 (positions buyer !! ticker)
                                   + e)%Z]> (positions buyer) |} ∧
    get_account (accounts m') (account_id s)
    = {| balance := balance seller + e * p;
         positions := if decide (held - e = 0)%Z
                      then delete ticker (positions seller)
                      else <[ticker := (held - e)%Z]> (positions seller) |} ∧
    (∀ id, id ≠ account_id b → id ≠ account_id s →
           get_account (accounts m') id = get_account (accounts m) id).
Proof.
  intros Hsel Hp Hle e buyer seller held.
  exists (after_trade m ticker i j b s p). split.
  - rewrite (selected_pair_body m ticker i j b s _ Hsel Hp).
    by apply settle_trade_full.
  - apply transfer_accounts. by eapply selected_two_accounts.
Qed.

Lemma admissible_execution_price self ticker b s p :
  admissible b → admissible s →
  (∀ q, last_trade_price self !! ticker = Some q → (0 < q)%Z) →
  execution_price self ticker b s = Exec (Some p) → (0 < p)%Z.
Proof.
  intros [_ Hb] [_ Hs] Hl. unfold execution_price.
  destruct Hb as [Hb|[Hb (pb & Hpb & Hposb)]],
           Hs as [Hs|[Hs (ps & Hps & Hposs)]].
  - rewrite Hb, Hs. simpl.
    destruct (last_trade_price self !! ticker) as [q|] eqn:E; [|done].
    intros [= <-]. by apply Hl.
  - rewrite Hb, Hs, (is_limit_not_market s Hs), Hps. simpl.
    by intros [= <-].
  - rewrite Hb, Hs, (is_limit_not_market b Hb), Hpb. simpl.
    by intros [= <-].
  - rewrite Hb, Hs, (is_limit_not_market b Hb), (is_limit_not_market s Hs),
      Hpb, Hps. simpl.
    destruct (ps <=? pb)%Z; [|done]. by intros [= <-].
Qed.

(** X13: [match_orders] overdraws no account: on a book of admissible
    orders, with a positive last trade price for the ticker if there is
    one, a call that finds no balance negative leaves none negative. *)
Theorem match_orders_no_overdraft self ticker am self' am' :
  admissible_book self →
  (∀ q, last_trade_price self !! ticker = Some q → (0 < q)%Z) →
  (∀ id, (0 ≤ balance (get_account am id))%Z) →
  match_orders self ticker am = Returned self' am' →
  ∀ id, (0 ≤ balance (get_account am' id))%Z.
Proof.
  intros [Hb Hs] Hl Ham. unfold match_orders.
  set (m0 := initial_state self ticker am).
  set (I := λ m : mstate AM,
         (Forall admissible (buys m) ∧ Forall admissible (sells m)) ∧
         (∀ q, last_trade_price (book m) !! ticker = Some q → (0 < q)%Z) ∧
         (∀ id, (0 ≤ balance (get_account (accounts m) id))%Z)).
  assert (∀ m m', I m → match_iteration m ticker = Matched m' → I m')
    as Hstep.
  { intros m m' (Hadm & Hltp & Hbal) Hit. split.
    { by eapply iteration_admissible. }
    apply iteration_cases in Hit
      as (i & j & b & s & p & Hsel & Hne & Hp & Hcase).
    pose proof Hsel as (Hi & Hj & _).
    destruct Hcase as [[_ ->]|[Hle ->]]; [by split|]. simpl.
    assert (admissible b) as Hab
      by (eapply Forall_lookup_1; [exact (proj1 Hadm)|exact Hi]).
    assert (admissible s) as Has
      by (eapply Forall_lookup_1; [exact (proj2 Hadm)|exact Hj]).
    pose proof (admissible_execution_price _ _ _ _ _ Hab Has Hltp Hp) as Hpos.
    split.
    - intros q. destruct (decide (ticker = ticker)); [|done].
      rewrite lookup_insert_eq. by intros [= <-].
    - destruct (transfer_accounts (accounts m) ticker b s p Hne)
        as (Eb & Es & Eo).
      intros id. destruct (decide (id = account_id b)) as [->|Hnb].
      { rewrite Eb. simpl. lia. }
      destruct (decide (id = account_id s)) as [->|Hns].
      { rewrite Es. simpl. pose proof (Hbal (account_id s)).
        destruct Hab as [Hqb _], Has as [Hqs _]. nia. }
      rewrite Eo by done. apply Hbal. }
  pose proof (match_loop_inv I ticker Hstep
                (S (length (buys m0) + length (sells m0))) m0) as Hinv.
  destruct (match_loop _ ticker m0) as [m| |]; [|done..].
  intros [= <- <-]. apply Hinv.
  split_and!; [| |done..]; apply sorted_Forall; by apply admissible_resting.
Qed.

End Settlement.

(** ** Best bid and best ask *)

Lemma py_min_from_Ok cur l r :
  py_min_from cur l = Ok r →
  (l = [] ∧ r = cur) ∨
  ∃ c zs, cur = Some c ∧ l = Some <$> zs ∧ r = Some (foldl Z.min c zs).
Proof.
  revert cur. induction l as [|x l IH]; intros cur; simpl.
  - intros [= <-]. by left.
  - destruct x as [v|], cur as [c|]; simpl; try done.
    intros Hr. right. exists c.
    assert (py_min_from (Some (Z.min c v)) l = Ok r) as Hr'.
    { destruct (Z.ltb_spec v c);
        [rewrite Z.min_r by lia|rewrite Z.min_l by lia]; done. }
    destruct (IH _ Hr') as [[-> ->]|(c' & zs & [= <-] & -> & ->)].
    + by exists [v].
    + by exists (v :: zs).
Qed.

Lemma py_max_from_Ok cur l r :
  py_max_from cur l = Ok r →
  (l = [] ∧ r = cur) ∨
  ∃ c zs, cur = Some c ∧ l = Some <$> zs ∧ r = Some (foldl Z.max c zs).
Proof.
  revert cur. induction l as [|x l IH]; intros cur; simpl.
  - intros [= <-]. by left.
  - destruct x as [v|], cur as [c|]; simpl; try done.
    intros Hr. right. exists c.
    assert (py_max_from (Some (Z.max c v)) l = Ok r) as Hr'.
    { destruct (Z.ltb_spec c v);
        [rewrite Z.max_r by lia|rewrite Z.max_l by lia]; done. }
    destruct (IH _ Hr') as [[-> ->]|(c' & zs & [= <-] & -> & ->)].
    + by exists [v].
    + by exists (v :: zs).
Qed.

(** The least of the prices of [lo], when [min] gives a number. *)
Lemma py_min_prices (lo : list order) p :
  py_min (map price lo) = Ok (Some p) →
  ∃ o, o ∈ lo ∧ price o = Some p ∧
       ∀ o', o' ∈ lo → ∃ q, price o' = Some q ∧ (p ≤ q)%Z.
Proof.
  destruct lo as [|o0 lo]; [done|]. simpl. intros Hr.
  assert (∃ c zs, price o0 = Some c ∧ map price lo = Some <$> zs ∧
                  p = foldl Z.min c zs) as (c & zs & Hc & Hzs & ->).
  { destruct (py_min_from_Ok _ _ _ Hr)
      as [[Hnil Hp]|(c & zs & Hc & Hzs & [= ->])].
    - exists p, []. by rewrite Hnil.
    - by exists c, zs. }
  destruct (foldl_min_spec c zs) as [Hin Hle].
  assert (∀ q, q ∈ c :: zs ↔ ∃ o, o ∈ o0 :: lo ∧ price o = Some q) as Hmem.
  { intros q. rewrite elem_of_cons. split.
    - intros [->|Hq]; [exists o0; split; [by left|done]|].
      assert (Some q ∈ map price lo) as Hq'.
      { rewrite Hzs. by apply list_elem_of_fmap_2. }
      apply list_elem_of_fmap in Hq' as (o & Ho & Hoin).
      exists o. split; [by right|done].
    - intros (o & [->|Ho]%elem_of_cons & Hq); [left; congruence|].
      right. assert (Some q ∈ Some <$> zs) as Hq'.
      { rewrite <- Hzs, <- Hq. by apply list_elem_of_fmap_2. }
      by apply list_elem_of_fmap in Hq' as (q' & [= <-] & Hq'). }
  apply Hmem in Hin as (o & Ho & Hp). exists o. split_and!; [done..|].
  intros o' Ho'.
  assert (∃ q, price o' = Some q) as [q Hq].
  { apply elem_of_cons in Ho' as [->|Ho']; [by eexists|].
    assert (price o' ∈ Some <$> zs) as Hq'.
    { rewrite <- Hzs. by apply list_elem_of_fmap_2. }
    apply list_elem_of_fmap in Hq' as (q & Hq & _). by exists q. }
  exists q. split; [done|]. apply Hle, Hmem. by exists o'.
Qed.

Lemma py_max_prices (lo : list order) p :
  py_max (map price lo) = Ok (Some p) →
  ∃ o, o ∈ lo ∧ price o = Some p ∧
       ∀ o', o' ∈ lo → ∃ q, price o' = Some q ∧ (q ≤ p)%Z.
Proof.
  destruct lo as [|o0 lo]; [done|]. simpl. intros Hr.
  assert (∃ c zs, price o0 = Some c ∧ map price lo = Some <$> zs ∧
                  p = foldl Z.max c zs) as (c & zs & Hc & Hzs & ->).
  { destruct (py_max_from_Ok _ _ _ Hr)
      as [[Hnil Hp]|(c & zs & Hc & Hzs & [= ->])].
    - exists p, []. by rewrite Hnil.
    - by exists c, zs. }
  destruct (foldl_max_spec c zs) as [Hin Hle].
  assert (∀ q, q ∈ c :: zs ↔ ∃ o, o ∈ o0 :: lo ∧ price o = Some q) as Hmem.
  { intros q. rewrite elem_of_cons. split.
    - intros [->|Hq]; [exists o0; split; [by left|done]|].
      assert (Some q ∈ map price lo) as Hq'.
      { rewrite Hzs. by apply list_elem_of_fmap_2. }
      apply list_elem_of_fmap in Hq' as (o & Ho & Hoin).
      exists o. split; [by right|done].
    - intros (o & [->|Ho]%elem_of_cons & Hq); [left; congruence|].
      right. assert (Some q ∈ Some <$> zs) as Hq'.
      { rewrite <- Hzs, <- Hq. by apply list_elem_of_fmap_2. }
      by apply list_elem_of_fmap in Hq' as (q' & [= <-] & Hq'). }
  apply Hmem in Hin as (o & Ho & Hp). exists o. split_and!; [done..|].
  intros o' Ho'.
  assert (∃ q, price o' = Some q) as [q Hq].
  { apply elem_of_cons in Ho' as [->|Ho']; [by eexists|].
    assert (price o' ∈ Some <$> zs) as Hq'.
    { rewrite <- Hzs. by apply list_elem_of_fmap_2. }
    apply list_elem_of_fmap in Hq' as (q & Hq & _). by exists q. }
  exists q. split; [done|]. apply Hle, Hmem. by exists o'.
Qed.

(** [min] or [max] gives [None] on one item without a price only. *)
Lemma py_min_None (lo : list order) :
  py_min (map price lo) = Ok None → ∃ o, lo = [o] ∧ price o = None.
Proof.
  destruct lo as [|o0 lo]; [done|]. simpl. intros Hr.
  destruct (py_min_from_Ok _ _ _ Hr) as [[Hnil Hp]|(c & zs & _ & _ & ?)];
    [|done].
  exists o0. apply map_eq_nil in Hnil. by subst.
Qed.

Lemma py_max_None (lo : list order) :
  py_max (map price lo) = Ok None → ∃ o, lo = [o] ∧ price o = None.
Proof.
  destruct lo as [|o0 lo]; [done|]. simpl. intros Hr.
  destruct (py_max_from_Ok _ _ _ Hr) as [[Hnil Hp]|(c & zs & _ & _ & ?)];
    [|done].
  exists o0. apply map_eq_nil in Hnil. by subst.
Qed.

(** [get_best_bid_ask] in terms of the two sides. *)
Lemma get_best_bid_ask_sides self ticker bid ask :
  get_best_bid_ask self ticker = Ok (bid, ask) ↔
  match limit_orders (resting_buys self ticker) with
  | [] => bid = None
  | lo => py_max (map price lo) = Ok bid
  end ∧
  match limit_orders (resting_sells self ticker) with
  | [] => ask = None
  | lo => py_min (map price lo) = Ok ask
  end.
Proof.
  unfold get_best_bid_ask, resting_buys, resting_sells.
  set (rb := match buy_orders self !! ticker with
             | Some orders =>
                 match limit_orders orders with
                 | [] => Ok None
                 | o :: l => py_max (map price (o :: l))
                 end
             | None => Ok None
             end).
  set (ra := match sell_orders self !! ticker with
             | Some orders =>
                 match limit_orders orders with
                 | [] => Ok None
                 | o :: l => py_min (map price (o :: l))
                 end
             | None => Ok None
             end).
  assert (rb = Ok bid ↔
          match limit_orders (default [] (buy_orders self !! ticker)) with
          | [] => bid = None
          | o :: l => py_max (map price (o :: l)) = Ok bid
          end) as Hb.
  { unfold rb. destruct (buy_orders self !! ticker) as [bs|]; simpl.
    - destruct (limit_orders bs); [|done]. split; [by intros [= <-]|].
      by intros ->.
    - split; [by intros [= <-]|]. by intros ->. }
  assert (ra = Ok ask ↔
          match limit_orders (default [] (sell_orders self !! ticker)) with
          | [] => ask = None
          | o :: l => py_min (map price (o :: l)) = Ok ask
          end) as Ha.
  { unfold ra. destruct (sell_orders self !! ticker) as [ss|]; simpl.
    - destruct (limit_orders ss); [|done]. split; [by intros [= <-]|].
      by intros ->.
    - split; [by intros [= <-]|]. by intros ->. }
  rewrite <- Hb, <- Ha. clearbody rb ra.
  destruct rb as [b'|e], ra as [a'|e']; split;
    try (intros [= <- <-]; done); try (intros [[= <-] [= <-]]; done);
    try done; try (intros [? ?]; done).
Qed.

(** X14: the best bid that [get_best_bid_ask] returns is the greatest
    price of the resting buy limit orders of the ticker and the best ask
    the least price of its resting sell limit orders; a side is [None]
    when it has no limit order, or a single one that has no price. *)
Theorem get_best_bid_ask_spec self ticker bid ask :
  get_best_bid_ask self ticker = Ok (bid, ask) →
  match bid with
  | Some p =>
      ∃ o, o ∈ limit_orders (resting_buys self ticker) ∧ price o = Some p ∧
           ∀ o', o' ∈ limit_orders (resting_buys self ticker) →
                 ∃ q, price o' = Some q ∧ (q ≤ p)%Z
  | None =>
      limit_orders (resting_buys self ticker) = [] ∨
      ∃ o, limit_orders (resting_buys self ticker) = [o] ∧ price o = None
  end ∧
  match ask with
  | Some p =>
      ∃ o, o ∈ limit_orders (resting_sells self ticker) ∧ price o = Some p ∧
           ∀ o', o' ∈ limit_orders (resting_sells self ticker) →
                 ∃ q, price o' = Some q ∧ (p ≤ q)%Z
  | None =>
      limit_orders (resting_sells self ticker) = [] ∨
      ∃ o, limit_orders (resting_sells self ticker) = [o] ∧ price o = None
  end.
Proof.
  intros [Hb Hs]%get_best_bid_ask_sides. split.
  - destruct (limit_orders (resting_buys self ticker)) as [|o0 lo] eqn:E.
    + subst bid. by left.
    + destruct bid as [p|]; [by apply py_max_prices|].
      right. by apply py_max_None.
  - destruct (limit_orders (resting_sells self ticker)) as [|o0 lo] eqn:E.
    + subst ask. by left.
    + destruct ask as [p|]; [by apply py_min_prices|].
      right. by apply py_min_None.
Qed.

(** X15: [get_best_price] and [get_best_bid_ask] agree: with a sell limit
    order resting, a buy lookup answers the best ask, and with a buy limit
    order resting a sell lookup answers the best bid; without one, that
    side of [get_best_bid_ask] is [None] and the lookup falls back on the
    last trade price or the initial price. *)
Theorem get_best_price_bid_ask self ticker bid ask :
  get_best_bid_ask self ticker = Ok (bid, ask) →
  (if decide (limit_orders (resting_sells self ticker) = [])
   then ask = None ∧
        get_best_price self "buy" ticker
        = Ok (Some (default (stock_info self ticker)
                            (last_trade_price self !! ticker)))
   else get_best_price self "buy" ticker = Ok ask) ∧
  (if decide (limit_orders (resting_buys self ticker) = [])
   then bid = None ∧
        get_best_price self "sell" ticker
        = Ok (Some (default (stock_info self ticker)
                            (last_trade_price self !! ticker)))
   else get_best_price self "sell" ticker = Ok bid).
Proof.
  intros [Hb Hs]%get_best_bid_ask_sides. split.
  - case_decide as E.
    + rewrite E in Hs. split; [done|].
      unfold get_best_price, resting_sells in *.
      destruct (sell_orders self !! ticker) as [ss|]; simpl in *; [|done].
      by rewrite E.
    + unfold get_best_price, resting_sells in *.
      destruct (sell_orders self !! ticker) as [ss|]; simpl in *; [|done].
      by destruct (limit_orders ss).
  - case_decide as E.
    + rewrite E in Hb. split; [done|].
      unfold get_best_price, resting_buys in *.
      destruct (buy_orders self !! ticker) as [bs|]; simpl in *; [|done].
      by rewrite E.
    + unfold get_best_price, resting_buys in *.
      destruct (buy_orders self !! ticker) as [bs|]; simpl in *; [|done].
      by destruct (limit_orders bs).
Qed.

(** ** The book after a call, and after a restart *)

Section AfterCalls.
Context {AM : Type} `{AccountManager AM} `{DatetimeLibrary}.
Implicit Types (m : mstate AM) (b s : order) (ticker : string).

(** Where the loop stops, no two limit orders of two accounts cross. *)
Lemma stopped_no_cross m ticker b s pb ps :
  loop_condition m = false ∨ match_iteration m ticker = NoMatch →
  b ∈ buys m → s ∈ sells m → account_id b ≠ account_id s →
  is_limit b = true → is_limit s = true →
  price b = Some pb → price s = Some ps → (pb < ps)%Z.
Proof.
  intros Hend Hb Hs Hne Hlb Hls Hpb Hps. destruct Hend as [Hc|Hit].
  - unfold loop_condition in Hc.
    destruct (buys m); [by apply elem_of_nil in Hb|].
    destruct (sells m); [by apply elem_of_nil in Hs|]. done.
  - pose proof (iteration_NoMatch m ticker Hit b s Hb Hs) as Hsk.
    unfold skips in Hsk. apply Z.eqb_neq in Hne. rewrite Hne in Hsk.
    unfold execution_price in Hsk.
    rewrite Hlb, Hls, (is_limit_not_market b Hlb),
      (is_limit_not_market s Hls), Hpb, Hps in Hsk.
    simpl in Hsk. destruct (ps <=? pb)%Z eqn:Hle; [done|]. lia.
Qed.

Lemma elem_of_limit_orders o (l : list order) :
  o ∈ limit_orders l ↔ o ∈ l ∧ is_limit o = true.
Proof. unfold limit_orders. rewrite !list_elem_of_In. apply filter_In. Qed.

(** X16: after [match_orders] has returned, the book of the ticker is
    not crossed as [get_best_bid_ask] shows it: when no account has limit
    orders on both sides, the best bid is below the best ask. *)
Theorem match_orders_uncrossed self ticker am self' am' bid ask :
  match_orders self ticker am = Returned self' am' →
  (∀ b s, b ∈ limit_orders (resting_buys self' ticker) →
          s ∈ limit_orders (resting_sells self' ticker) →
          account_id b ≠ account_id s) →
  get_best_bid_ask self' ticker = Ok (Some bid, Some ask) →
  (bid < ask)%Z.
Proof.
  intros (m & _ & Hend & -> & ->)%match_orders_thinned Hacc
         [Hb Hs]%get_best_bid_ask_sides.
  revert Hacc Hb Hs. unfold resting_buys, resting_sells. simpl.
  rewrite !lookup_insert_eq. simpl. intros Hacc Hb Hs.
  destruct (limit_orders (buys m)) as [|b0 lb] eqn:Eb; [done|].
  destruct (limit_orders (sells m)) as [|s0 ls] eqn:Es; [done|].
  destruct (py_max_prices (b0 :: lb) bid Hb) as (b & Hbin & Hpb & _).
  destruct (py_min_prices (s0 :: ls) ask Hs) as (s & Hsin & Hps & _).
  pose proof (Hacc b s Hbin Hsin) as Hne.
  rewrite <- Eb in Hbin. rewrite <- Es in Hsin.
  apply elem_of_limit_orders in Hbin as [Hbin Hlb], Hsin as [Hsin Hls].
  by eapply (stopped_no_cross m ticker b s).
Qed.

Lemma set_orders_same self :
  set_orders self (buy_orders self) (sell_orders self) = self.
Proof. by destruct self. Qed.

Lemma saved_synced self :
  well_timed self → synced (save_unmatched_orders self).
Proof.
  intros [Hb Hs]. unfold synced, load_unmatched_orders. simpl.
  by rewrite (load_side_serialized _ Hb), (load_side_serialized _ Hs).
Qed.

(** Loading reads the file only. *)
Lemma load_unmatched_orders_file self1 self2 r :
  unmatched_orders_file self2 = unmatched_orders_file self1 →
  load_unmatched_orders self1 = Ok r →
  load_unmatched_orders self2
  = Ok (set_orders self2 (buy_orders r) (sell_orders r)).
Proof.
  unfold load_unmatched_orders. intros ->.
  destruct (unmatched_orders_file self1) as [data|].
  - destruct (load_side (default ∅ (snap_buy_orders data))) as [bo|];
      [|done].
    destruct (load_side (default ∅ (snap_sell_orders data))) as [so|];
      [|done].
    by intros [= <-].
  - by intros [= <-].
Qed.

Lemma timestamps_valid_thinned (l l' : list order) :
  (forget_quantity <$> l') `sublist_of` (forget_quantity <$> l) →
  timestamps_valid l → timestamps_valid l'.
Proof.
  unfold timestamps_valid. intros Hsub Hl.
  assert (∀ k : list order,
            Forall (λ o, valid_datetime (timestamp o) = true) k
            ↔ Forall (λ o, valid_datetime (timestamp o) = true)
                     (forget_quantity <$> k)) as Hk.
  { intros k. by rewrite Forall_fmap. }
  apply Hk. apply Hk in Hl. apply Forall_forall. intros o Ho.
  apply (proj1 (Forall_forall _ _) Hl o). by eapply elem_of_sublist.
Qed.

Lemma timestamps_valid_resting (om : gmap string (list order)) ticker :
  map_Forall (λ _ l, timestamps_valid l) om →
  timestamps_valid (default [] (om !! ticker)).
Proof.
  intros Hom. destruct (om !! ticker) as [l|] eqn:E; simpl.
  - by apply (Hom ticker).
  - constructor.
Qed.

Lemma match_orders_well_timed self ticker am self' am' :
  well_timed self →
  match_orders self ticker am = Returned self' am' →
  well_timed self' ∧ synced self'.
Proof.
  intros [Hwb Hws] Hret.
  destruct (match_orders_Returned_loop
              (λ m m', thinned m m' ∧ framed ticker m m')
              self ticker am self' am')
    as (m & ([Hb Hs] & (_ & Eb & Es & _)) & _ & -> & ->); [| | |done|].
  { intros m. split; [apply thinned_refl|apply framed_refl]. }
  { intros m1 m2 m3 [T1 F1] [T2 F2]. split;
      [by eapply thinned_trans|by eapply framed_trans]. }
  { intros m m' Hit. split;
      [by eapply iteration_thinned|by eapply iteration_framed]. }
  simpl in *.
  assert (well_timed
            (set_orders (book m)
               (<[ticker := buys m]> (buy_orders (book m)))
               (<[ticker := sells m]> (sell_orders (book m))))) as Hwt.
  { split; simpl; rewrite ?Eb, ?Es; apply map_Forall_insert_2; try done.
    - eapply timestamps_valid_thinned; [exact Hb|].
      apply sorted_Forall. by apply timestamps_valid_resting.
    - eapply timestamps_valid_thinned; [exact Hs|].
      apply sorted_Forall. by apply timestamps_valid_resting. }
  split; [exact Hwt|]. by apply saved_synced.
Qed.

Lemma add_order_well_timed self o am :
  well_timed self → synced self →
  valid_datetime (timestamp o) = true →
  well_timed (add_order self o am).2 ∧ synced (add_order self o am).2.
Proof.
  intros [Hwb Hws] Hsy Ho.
  destruct (refused o (get_account am (account_id o))) eqn:Hr.
  - by rewrite (proj2 (add_order_refused self o am Hr)).
  - rewrite (add_order_accepted self o am Hr). simpl.
    match goal with
    | |- well_timed (save_unmatched_orders ?x) ∧ _ =>
        assert (well_timed x) as Hwt
    end.
    { destruct (String.eqb (action o) "buy");
        [|destruct (String.eqb (action o) "sell")]; split; simpl;
        try done; apply map_Forall_insert_2; try done;
        (apply Forall_app; split;
         [by apply timestamps_valid_resting|by constructor]). }
    split; [exact Hwt|]. by apply saved_synced.
Qed.

(** X17: what a restart finds.  After any calls of [add_order] and
    [match_orders] that return, on a book that was in step with its file,
    the file holds the resting orders: a new [OrderBook] over the same
    files has the same buy and sell orders and the same trade log, and no
    last trade price. *)
Theorem restart_restores_orders (cs : list call) self am self' am' :
  well_timed self → synced self → Forall timely cs →
  run_calls cs self am = Returned self' am' →
  ∃ r,
    OrderBook_init (stock_info self') (unmatched_orders_file self')
                   (executed_trades_file self') = Ok r ∧
    buy_orders r = buy_orders self' ∧
    sell_orders r = sell_orders self' ∧
    executed_trades_file r = executed_trades_file self' ∧
    last_trade_price r = ∅.
Proof.
  intros Hwt Hsy Hcs Hrun.
  assert (well_timed self' ∧ synced self') as [_ Hsy'].
  { revert self am Hwt Hsy Hrun.
    induction Hcs as [|c cs Hc Hcs IH]; intros self am Hwt Hsy; simpl.
    - by intros [= <- <-].
    - destruct c as [o|ticker].
      + pose proof (add_order_well_timed self o am Hwt Hsy Hc) as [Hw Hs].
        destruct (add_order self o am) as [[ok msg] self1]. by apply IH.
      + destruct (match_orders self ticker am) as [self1 am1| |] eqn:Hm;
          [|done..].
        destruct (match_orders_well_timed _ _ _ _ _ Hwt Hm) as [Hw Hs].
        by apply IH. }
  unfold OrderBook_init.
  match goal with
  | |- context [load_unmatched_orders ?x] =>
      rewrite (load_unmatched_orders_file self' x self' eq_refl Hsy')
  end.
  eexists. split; [reflexivity|]. done.
Qed.

End AfterCalls.

(** X18: the constructor on its files: without an unmatched-orders file
    the book starts empty; with a file that holds, for some ticker and on
    either side, an order on whose timestamp [datetime.fromisoformat]
    raises [ValueError], the constructor raises [ValueError]. *)
Theorem OrderBook_init_edge_cases `{DatetimeLibrary} stock trades :
  OrderBook_init stock None trades
  = Ok {| stock_info := stock; buy_orders := ∅; sell_orders := ∅;
          last_trade_price := ∅; unmatched_orders_file := None;
          executed_trades_file := trades |} ∧
  ∀ data ticker l s,
    (default ∅ (snap_buy_orders data) !! ticker = Some l ∨
     default ∅ (snap_sell_orders data) !! ticker = Some l) →
    s ∈ l → fromisoformat (s_timestamp s) = Raise ValueError →
    OrderBook_init stock (Some data) trades = Raise ValueError.
Proof.
  split; [done|]. intros data ticker l s Hl Hs Hts.
  assert (∀ side : gmap string (list serialized_order),
            side !! ticker = Some l → load_side side = Raise ValueError)
    as Hside.
  { intros side Hside. unfold load_side. rewrite decide_False; [done|].
    intros Hall. specialize (Hall ticker (mapM deserialize_order l)).
    rewrite lookup_fmap, Hside in Hall. specialize (Hall eq_refl).
    apply mapM_is_Some in Hall.
    pose proof (proj1 (Forall_forall _ _) Hall s Hs) as [o Ho].
    unfold deserialize_order in Ho. simpl in Ho. by rewrite Hts in Ho. }
  unfold OrderBook_init, load_unmatched_orders. simpl.
  destruct Hl as [Hl|Hl].
  - by rewrite (Hside _ Hl).
  - rewrite (Hside (default ∅ (snap_sell_orders data)) Hl).
    destruct (load_side (default ∅ (snap_buy_orders data))) as [bo|e] eqn:E;
      [done|].
    unfold load_side in E. case_decide; congruence.
Qed.

(** ** A new limit order and the best prices *)

Section NewOrder.
Context {AM : Type} `{AccountManager AM}.

Lemma py_min_from_app cur l1 l2 :
  py_min_from cur (l1 ++ l2)
  = match py_min_from cur l1 with
    | Ok r => py_min_from r l2
    | Raise e => Raise e
    end.
Proof.
  revert cur. induction l1 as [|x l1 IH]; intros cur; simpl; [done|].
  destruct (py_lt x cur) as [[|]|]; by rewrite ?IH.
Qed.

Lemma py_max_from_app cur l1 l2 :
  py_max_from cur (l1 ++ l2)
  = match py_max_from cur l1 with
    | Ok r => py_max_from r l2
    | Raise e => Raise e
    end.
Proof.
  revert cur. induction l1 as [|x l1 IH]; intros cur; simpl; [done|].
  destruct (py_lt cur x) as [[|]|]; by rewrite ?IH.
Qed.

Lemma limit_orders_snoc (l : list order) o :
  is_limit o = true → limit_orders (l ++ [o]) = limit_orders l ++ [o].
Proof. intros Ho. unfold limit_orders. rewrite List.filter_app. simpl. by rewrite Ho. Qed.

Lemma add_order_success self o am :
  (add_order self o am).1.1 = true →
  refused o (get_account am (account_id o)) = false.
Proof.
  intros Hok. destruct (refused o _) eqn:Hr; [|done].
  rewrite (proj1 (add_order_refused self o am Hr)) in Hok. done.
Qed.

(** X19: a sell limit order that [add_order] admits shows in the best
    ask: [get_best_bid_ask] then returns the same bid, and as ask the new
    price or the former ask, whichever is lower. *)
Theorem add_order_best_ask self o am p bid ask :
  (add_order self o am).1.1 = true →
  action o = "sell" → is_limit o = true → price o = Some p →
  get_best_bid_ask self (ticker o) = Ok (bid, ask) →
  (ask = None → limit_orders (resting_sells self (ticker o)) = []) →
  get_best_bid_ask (add_order self o am).2 (ticker o)
  = Ok (bid, Some (match ask with Some a => Z.min a p | None => p end)).
Proof.
  intros Hok Hact Hlim Hp [Hb Hs]%get_best_bid_ask_sides Hnone.
  rewrite (add_order_accepted self o am (add_order_success _ _ _ Hok)).
  rewrite Hact. simpl. apply get_best_bid_ask_sides.
  unfold resting_buys, resting_sells in *. simpl.
  rewrite lookup_insert_eq. simpl. split; [done|].
  rewrite (limit_orders_snoc _ _ Hlim).
  destruct (limit_orders (default [] (sell_orders self !! ticker o)))
    as [|o0 lo] eqn:E.
  - subst ask. simpl. by rewrite Hp.
  - destruct ask as [a|]; [|by specialize (Hnone eq_refl)].
    simpl in *. rewrite map_app, py_min_from_app, Hs. simpl. rewrite Hp.
    simpl. destruct (Z.ltb_spec p a); do 2 f_equal; lia.
Qed.

(** X20: a buy limit order that [add_order] admits shows in the best bid:
    [get_best_bid_ask] then returns the same ask, and as bid the new price
    or the former bid, whichever is higher. *)
Theorem add_order_best_bid self o am p bid ask :
  (add_order self o am).1.1 = true →
  action o = "buy" → is_limit o = true → price o = Some p →
  get_best_bid_ask self (ticker o) = Ok (bid, ask) →
  (bid = None → limit_orders (resting_buys self (ticker o)) = []) →
  get_best_bid_ask (add_order self o am).2 (ticker o)
  = Ok (Some (match bid with Some a => Z.max a p | None => p end), ask).
Proof.
  intros Hok Hact Hlim Hp [Hb Hs]%get_best_bid_ask_sides Hnone.
  rewrite (add_order_accepted self o am (add_order_success _ _ _ Hok)).
  rewrite Hact. simpl. apply get_best_bid_ask_sides.
  unfold resting_buys, resting_sells in *. simpl.
  rewrite lookup_insert_eq. simpl. split; [|done].
  rewrite (limit_orders_snoc _ _ Hlim).
  destruct (limit_orders (default [] (buy_orders self !! ticker o)))
    as [|o0 lo] eqn:E.
  - subst bid. simpl. by rewrite Hp.
  - destruct bid as [a|]; [|by specialize (Hnone eq_refl)].
    simpl in *. rewrite map_app, py_max_from_app, Hb. simpl. rewrite Hp.
    simpl. destruct (Z.ltb_spec a p); do 2 f_equal; lia.
Qed.

End NewOrder.

(** ** The further properties on the scenarios *)

Lemma match_orders_log_witness :
  ∃ self' am',
    match_orders (book_of [buy_101] [sell_100]) "XYZ" rich_accounts
    = Returned self' am' ∧
    ∃ new,
      trades_of self' = trades_of (book_of [buy_101] [sell_100]) ++ new ∧
      Forall (λ t, tr_ticker t = "XYZ") new ∧
      match last new with
      | Some t => last_trade_price self' !! "XYZ" = Some (tr_price t)
      | None => last_trade_price self'
                = last_trade_price (book_of [buy_101] [sell_100]) ∧
                am' = rich_accounts
      end.
Proof.
  eexists _, _. split; [vm_compute; reflexivity|].
  eapply (match_orders_log (book_of [buy_101] [sell_100]) "XYZ"
                           rich_accounts).
  vm_compute. reflexivity.
Defined.

Lemma match_orders_filled_quantity_witness :
  ∃ self' am',
    match_orders (book_of [buy_101] [sell_100]) "XYZ" rich_accounts
    = Returned self' am' ∧
    ∃ new,
      trades_of self' = trades_of (book_of [buy_101] [sell_100]) ++ new ∧
      sum_quantities new
      = (total_quantity (resting_sells (book_of [buy_101] [sell_100]) "XYZ")
         - total_quantity (resting_sells self' "XYZ"))%Z.
Proof.
  eexists _, _. split; [vm_compute; reflexivity|].
  eapply (match_orders_filled_quantity (book_of [buy_101] [sell_100]) "XYZ"
                                       rich_accounts).
  vm_compute. reflexivity.
Defined.

Lemma match_orders_trade_count_witness :
  ∃ self' am',
    match_orders (book_of [buy_101] [sell_100]) "XYZ" rich_accounts
    = Returned self' am' ∧
    ∃ new,
      trades_of self' = trades_of (book_of [buy_101] [sell_100]) ++ new ∧
      length new + length (resting_buys self' "XYZ")
        + length (resting_sells self' "XYZ")
      ≤ length (resting_buys (book_of [buy_101] [sell_100]) "XYZ")
        + length (resting_sells (book_of [buy_101] [sell_100]) "XYZ").
Proof.
  eexists _, _. split; [vm_compute; reflexivity|].
  eapply (match_orders_trade_count (book_of [buy_101] [sell_100]) "XYZ"
                                   rich_accounts).
  vm_compute. reflexivity.
Defined.

Lemma match_orders_other_tickers_witness :
  ∃ self' am',
    match_orders (book_of [buy_101] [sell_100]) "ABC" rich_accounts
    = Returned self' am' ∧
    resting_buys self' "XYZ" = [buy_101] ∧
    is_Some (buy_orders self' !! "ABC").
Proof.
  eexists _, _. split; [vm_compute; reflexivity|].
  edestruct (match_orders_other_tickers
               (book_of [buy_101] [sell_100]) "ABC" rich_accounts)
    as (Hother & _ & Hentry & _); [vm_compute; reflexivity|].
  split; [|exact Hentry].
  destruct (Hother "XYZ" ltac:(discriminate)) as (Hb & _).
  unfold resting_buys. rewrite Hb. reflexivity.
Defined.

Lemma match_orders_keeps_priority_witness :
  ∃ self' am',
    match_orders (book_of [buy_50; buy_101] [sell_100]) "XYZ" rich_accounts
    = Returned self' am' ∧
    ordered buy_key (resting_buys self' "XYZ") ∧
    ordered sell_key (resting_sells self' "XYZ").
Proof.
  eexists _, _. split; [vm_compute; reflexivity|].
  edestruct (match_orders_keeps_priority
               (book_of [buy_50; buy_101] [sell_100]) "XYZ" rich_accounts)
    as (Hb & Hs & _); [vm_compute; reflexivity|].
  split; [exact Hb|exact Hs].
Defined.

Lemma match_orders_idempotent_witness :
  ∃ self' am',
    match_orders (book_of [buy_101] [sell_100]) "XYZ" rich_accounts
    = Returned self' am' ∧
    match_orders self' "XYZ" am' = Returned self' am'.
Proof.
  eexists _, _. split; [vm_compute; reflexivity|].
  eapply (match_orders_idempotent (book_of [buy_101] [sell_100]) "XYZ"
                                  rich_accounts).
  vm_compute. reflexivity.
Defined.

Lemma run_calls_never_raises_witness :
  admissible_book empty_book ∧
  ∃ self' am',
    run_calls scenario_calls empty_book rich_accounts = Returned self' am' ∧
    admissible_book self'.
Proof.
  assert (admissible_book empty_book) as Hadm
    by (split; apply map_Forall_empty).
  split; [exact Hadm|].
  exact (run_calls_never_raises scenario_calls empty_book rich_accounts Hadm).
Defined.

Lemma limit_price_respected_witness :
  ∃ m' t,
    match_iteration (state_of [buy_101] [sell_100] rich_accounts) "XYZ"
    = Matched m' ∧
    trades_of (book m')
    = trades_of (book (state_of [buy_101] [sell_100] rich_accounts)) ++ [t] ∧
    tr_price t = 100%Z ∧
    ∃ b s,
      b ∈ [buy_101] ∧ s ∈ [sell_100] ∧
      buy_account_id t = account_id b ∧ sell_account_id t = account_id s ∧
      account_id b ≠ account_id s ∧
      tr_quantity t = Z.min (quantity b) (quantity s) ∧
      (is_limit b = true → ∃ pb, price b = Some pb ∧ (tr_price t ≤ pb)%Z) ∧
      (is_limit s = true → price s = Some (tr_price t)) ∧
      (is_market b = true → is_market s = true →
       last_trade_price (book_of [buy_101] [sell_100]) !! "XYZ"
       = Some (tr_price t)).
Proof.
  eexists _, _. split; [vm_compute; reflexivity|].
  split; [vm_compute; reflexivity|]. split; [reflexivity|].
  eapply (limit_price_respected
            "XYZ" (state_of [buy_101] [sell_100] rich_accounts));
    vm_compute; reflexivity.
Defined.

Lemma match_orders_empty_side_witness :
  resting_sells (book_of [buy_50; buy_101] []) "XYZ" = [] ∧
  ∃ self',
    match_orders (book_of [buy_50; buy_101] []) "XYZ" rich_accounts
    = Returned self' rich_accounts ∧
    resting_buys self' "XYZ" = [buy_101; buy_50].
Proof.
  split; [reflexivity|].
  destruct (match_orders_empty_side
              (book_of [buy_50; buy_101] []) "XYZ" rich_accounts)
    as (self' & Hret & _ & _ & Hb & _); [by right|].
  exists self'. split; [exact Hret|exact Hb].
Defined.

Lemma trade_settlement_witness :
  selected (state_of [buy_101] [sell_100] rich_accounts) "XYZ" 0 0
           buy_101 sell_100 ∧
  ∃ m',
    match_iteration (state_of [buy_101] [sell_100] rich_accounts) "XYZ"
    = Matched m' ∧
    balance (get_account (accounts m') 1%Z) = 99500%Z ∧
    balance (get_account (accounts m') 2%Z) = 100500%Z ∧
    positions (get_account (accounts m') 2%Z) !! "XYZ" = Some 95%Z ∧
    get_account (accounts m') 3%Z = rich_accounts 3%Z.
Proof.
  assert (selected (state_of [buy_101] [sell_100] rich_accounts) "XYZ" 0 0
                   buy_101 sell_100) as Hsel
    by (apply selected_first; reflexivity).
  split; [exact Hsel|].
  destruct (trade_settlement
              (state_of [buy_101] [sell_100] rich_accounts) "XYZ" 0 0
              buy_101 sell_100 100 Hsel eq_refl)
    as (m' & Hit & Eb & Es & Eo).
  { vm_compute. discriminate. }
  exists m'. split; [exact Hit|].
  change (account_id buy_101) with 1%Z in Eb.
  change (account_id sell_100) with 2%Z in Es.
  rewrite Eb, Es. split_and!; [reflexivity..|].
  apply Eo; discriminate.
Defined.

Lemma admissible_buy_101 : admissible buy_101.
Proof.
  split; [reflexivity|]. right. split; [reflexivity|].
  exists 101%Z. split; reflexivity.
Qed.

Lemma admissible_sell_100 : admissible sell_100.
Proof.
  split; [reflexivity|]. right. split; [reflexivity|].
  exists 100%Z. split; reflexivity.
Qed.

Lemma match_orders_no_overdraft_witness :
  admissible_book (book_of [buy_101] [sell_100]) ∧
  ∃ self' am',
    match_orders (book_of [buy_101] [sell_100]) "XYZ" rich_accounts
    = Returned self' am' ∧
    ∀ id, (0 ≤ balance (get_account am' id))%Z.
Proof.
  assert (admissible_book (book_of [buy_101] [sell_100])) as Hadm.
  { split; apply map_Forall_singleton; constructor;
      auto using admissible_buy_101, admissible_sell_100. }
  split; [exact Hadm|].
  eexists _, _. split; [vm_compute; reflexivity|].
  eapply (match_orders_no_overdraft
            (book_of [buy_101] [sell_100]) "XYZ" rich_accounts _ _ Hadm).
  - intros q Hq. vm_compute in Hq. discriminate.
  - intros id. vm_compute. discriminate.
  - vm_compute. reflexivity.
Defined.

Lemma get_best_bid_ask_spec_witness :
  get_best_bid_ask (book_of [buy_50; buy_101] [sell_100; sell_50]) "XYZ"
  = Ok (Some 101%Z, Some 50%Z) ∧
  ∃ o, o ∈ [sell_100; sell_50] ∧ price o = Some 50%Z.
Proof.
  assert (get_best_bid_ask (book_of [buy_50; buy_101] [sell_100; sell_50])
                           "XYZ" = Ok (Some 101%Z, Some 50%Z)) as Hget
    by reflexivity.
  split; [exact Hget|].
  destruct (get_best_bid_ask_spec _ _ _ _ Hget) as (_ & o & Ho & Hp & _).
  exists o. split; [exact Ho|exact Hp].
Defined.

Lemma get_best_price_bid_ask_witness :
  get_best_bid_ask (book_of [] [sell_100; sell_50]) "XYZ"
  = Ok (None, Some 50%Z) ∧
  get_best_price (book_of [] [sell_100; sell_50]) "buy" "XYZ"
  = Ok (Some 50%Z) ∧
  get_best_price (book_of [] [sell_100; sell_50]) "sell" "XYZ"
  = Ok (Some 50%Z).
Proof.
  assert (get_best_bid_ask (book_of [] [sell_100; sell_50]) "XYZ"
          = Ok (None, Some 50%Z)) as Hget by reflexivity.
  split; [exact Hget|].
  destruct (get_best_price_bid_ask _ _ _ _ Hget) as (Hbuy & Hsell).
  split; [exact Hbuy|exact (proj2 Hsell)].
Defined.

Lemma match_orders_uncrossed_witness :
  ∃ self' am',
    match_orders (book_of [buy_90] [sell_100]) "XYZ" rich_accounts
    = Returned self' am' ∧
    get_best_bid_ask self' "XYZ" = Ok (Some 90%Z, Some 100%Z) ∧
    (90 < 100)%Z.
Proof.
  eexists _, _. split; [vm_compute; reflexivity|].
  split; [vm_compute; reflexivity|].
  eapply (match_orders_uncrossed
            (book_of [buy_90] [sell_100]) "XYZ" rich_accounts).
  - vm_compute. reflexivity.
  - intros b s Hb Hs. vm_compute in Hb, Hs.
    apply list_elem_of_singleton in Hb, Hs. subst b s. discriminate.
  - vm_compute. reflexivity.
Defined.

Lemma restart_restores_orders_witness :
  well_timed empty_book ∧ synced empty_book ∧ Forall timely scenario_calls ∧
  ∃ self' am' r,
    run_calls scenario_calls empty_book rich_accounts = Returned self' am' ∧
    OrderBook_init (stock_info self') (unmatched_orders_file self')
                   (executed_trades_file self') = Ok r ∧
    buy_orders r = buy_orders self' ∧
    sell_orders r = sell_orders self' ∧
    last_trade_price r = ∅.
Proof.
  assert (well_timed empty_book) as Hwt by (split; apply map_Forall_empty).
  assert (synced empty_book) as Hsy by reflexivity.
  assert (Forall timely scenario_calls) as Hcs
    by (repeat constructor).
  split_and!; [exact Hwt|exact Hsy|exact Hcs|].
  eexists _, _. 
  edestruct (restart_restores_orders scenario_calls empty_book rich_accounts)
    as (r & Hinit & Hb & Hs & _ & Hl);
    [exact Hwt|exact Hsy|exact Hcs|vm_compute; reflexivity|].
  exists r. split; [vm_compute; reflexivity|].
  split_and!; [exact Hinit|exact Hb|exact Hs|exact Hl].
Defined.

Lemma add_order_best_ask_witness :
  (add_order (book_of [] [sell_100]) sell_50 rich_accounts).1.1 = true ∧
  get_best_bid_ask (book_of [] [sell_100]) "XYZ" = Ok (None, Some 100%Z) ∧
  get_best_bid_ask (add_order (book_of [] [sell_100]) sell_50
                              rich_accounts).2 "XYZ"
  = Ok (None, Some 50%Z).
Proof.
  assert ((add_order (book_of [] [sell_100]) sell_50 rich_accounts).1.1
          = true) as Hok by reflexivity.
  assert (get_best_bid_ask (book_of [] [sell_100]) "XYZ"
          = Ok (None, Some 100%Z)) as Hget by reflexivity.
  split_and!; [exact Hok|exact Hget|].
  exact (add_order_best_ask (book_of [] [sell_100]) sell_50 rich_accounts
           50 None (Some 100%Z) Hok eq_refl eq_refl eq_refl Hget
           ltac:(discriminate)).
Defined.

Lemma add_order_best_bid_witness :
  (add_order (book_of [buy_50] []) buy_101 rich_accounts).1.1 = true ∧
  get_best_bid_ask (book_of [buy_50] []) "XYZ" = Ok (Some 50%Z, None) ∧
  get_best_bid_ask (add_order (book_of [buy_50] []) buy_101
                              rich_accounts).2 "XYZ"
  = Ok (Some 101%Z, None).
Proof.
  assert ((add_order (book_of [buy_50] []) buy_101 rich_accounts).1.1
          = true) as Hok by reflexivity.
  assert (get_best_bid_ask (book_of [buy_50] []) "XYZ"
          = Ok (Some 50%Z, None)) as Hget by reflexivity.
  split_and!; [exact Hok|exact Hget|].
  exact (add_order_best_bid (book_of [buy_50] []) buy_101 rich_accounts
           101 (Some 50%Z) None Hok eq_refl eq_refl eq_refl Hget
           ltac:(discriminate)).
Defined.

(** A file with an order dated "yesterday". *)
Lemma OrderBook_init_edge_cases_witness :
  fromisoformat "yesterday" = Raise ValueError ∧
  OrderBook_init (λ _, 50%Z) (Some undated_snapshot) None = Raise ValueError.
Proof.
  assert (fromisoformat "yesterday" = Raise ValueError) as Hts
    by reflexivity.
  split; [exact Hts|].
  destruct (OrderBook_init_edge_cases (λ _, 50%Z) None) as [_ Hbad].
  eapply (Hbad undated_snapshot "XYZ").
  - left. reflexivity.
  - by left.
  - exact Hts.
Defined.
